(** * pocket-doc: the catalog extractors and the canonical schema model

    A shallow embedding of [internal/model/schema.go], of the four dialect
    extractors (PostgreSQL, Oracle, SQL Server, MySQL) and of the model
    validator, with the properties the specification states about them.

    Conventions of the embedding:
    - a Go slice is a [slice]: either the nil slice or a list of elements;
    - a Go function that returns [(T, error)] returns a pair whose second
      component is an [option error] ([None] is the nil error);
    - code that talks to [database/sql] runs in the monad [M], which threads
      the history of driver calls; the driver itself is an oracle that may
      answer differently as the history grows. *)

From Stdlib Require Import ZArith Ascii String.
From stdpp Require Import base strings list gmap pretty.

Local Open Scope Z_scope.

(** ** Go values used by the program *)

(** A slice keeps the difference between [nil] and an empty, allocated
    slice, which the specification relies on. *)
Inductive slice (A : Type) : Type :=
| nil_slice
| mk_slice (l : list A).
Arguments nil_slice {A}.
Arguments mk_slice {A} l.

Definition elems {A} (s : slice A) : list A :=
  match s with
  | nil_slice => []
  | mk_slice l => l
  end.

Definition is_nil {A} (s : slice A) : bool :=
  match s with
  | nil_slice => true
  | mk_slice _ => false
  end.

Definition len {A} (s : slice A) : nat := length (elems s).

(** [append(s, x)] *)
Definition append {A} (s : slice A) (x : A) : slice A :=
  mk_slice (elems s ++ [x]).

(** [append(s, xs...)]: with nothing to add the slice is returned as it
    is, so a nil slice stays nil. *)
Definition append_all {A} (s : slice A) (xs : list A) : slice A :=
  match xs with
  | [] => s
  | _ :: _ => mk_slice (elems s ++ xs)
  end.

(** [make([]T, n)] followed by [for i, x := range xs { dst[i] = f(x) }],
    written as the source writes it: an allocated slice of zero values,
    updated by index. *)
Fixpoint assign_by_index {A B} (f : nat -> A -> B) (i : nat) (xs : list A)
    (dst : list B) : list B :=
  match xs with
  | [] => dst
  | x :: xs' => assign_by_index f (S i) xs' (<[i := f i x]> dst)
  end.

(** Errors: a leaf error of the driver, or [fmt.Errorf] with a [%w] verb,
    which keeps the wrapped error. *)
Inductive error : Type :=
| errors_New (msg : string)
| wrapError (msg : string) (cause : error).

Definition Error (e : error) : string :=
  match e with
  | errors_New msg => msg
  | wrapError msg _ => msg
  end.

(** [errors.Unwrap] iterated: the innermost error. *)
Fixpoint root_cause (e : error) : error :=
  match e with
  | errors_New _ => e
  | wrapError _ c => root_cause c
  end.

Module fmt.

Inductive Arg : Type :=
| S_ (s : string)
| D_ (n : Z)
| W_ (e : error).

Definition render (verb : ascii) (a : Arg) : string :=
  match a with
  | S_ s => if Ascii.eqb verb "s" then s else "%!" +:+ String verb "(BADARG)"
  | D_ n => if Ascii.eqb verb "d" then pretty n else "%!" +:+ String verb "(BADARG)"
  | W_ e => Error e
  end.

(** [fmt.Sprintf] for the verbs the program uses ([%s], [%d], [%w]).
    Only the format is scanned for verbs, never the operands. *)
Fixpoint Sprintf (format : string) (args : list Arg) : string :=
  match format with
  | EmptyString => EmptyString
  | String c rest =>
    if Ascii.eqb c "%" then
      match rest with
      | EmptyString => "%!(NOVERB)"
      | String verb rest' =>
        match args with
        | [] => "%!" +:+ String verb "(MISSING)" +:+ Sprintf rest' []
        | a :: args' => render verb a +:+ Sprintf rest' args'
        end
      end
    else String c (Sprintf rest args)
  end.

(** [fmt.Errorf(format, args..., err)] with one [%w] operand. *)
Definition Errorf (format : string) (args : list Arg) (err : error) : error :=
  wrapError (Sprintf format (args ++ [W_ err])) err.

End fmt.

Module strings.

Fixpoint HasPrefix (s prefix : string) : bool :=
  match prefix, s with
  | EmptyString, _ => true
  | String _ _, EmptyString => false
  | String a p, String b s' => Ascii.eqb a b && HasPrefix s' p
  end.

Fixpoint Contains (s substr : string) : bool :=
  HasPrefix s substr ||
  match s with
  | EmptyString => false
  | String _ s' => Contains s' substr
  end.

Fixpoint Join (elems : list string) (sep : string) : string :=
  match elems with
  | [] => ""
  | [x] => x
  | x :: rest => x +:+ sep +:+ Join rest sep
  end.

(** White space, for the ASCII range. *)
Definition isSpace (c : ascii) : bool :=
  let n := Ascii.nat_of_ascii c in
  ((9 <=? n) && (n <=? 13))%nat || (n =? 32)%nat.

Fixpoint TrimLeftSpace (s : string) : string :=
  match s with
  | EmptyString => EmptyString
  | String c s' => if isSpace c then TrimLeftSpace s' else s
  end.

Definition TrimSpace (s : string) : string :=
  String.rev (TrimLeftSpace (String.rev (TrimLeftSpace s))).

(** [strings.Fields]: the maximal runs of non-space characters. [cur]
    is the run being read, reversed. *)
Fixpoint fields_go (s : string) (cur : string) : list string :=
  match s with
  | EmptyString =>
    match cur with EmptyString => [] | _ => [String.rev cur] end
  | String c s' =>
    if isSpace c then
      match cur with
      | EmptyString => fields_go s' ""
      | _ => String.rev cur :: fields_go s' ""
      end
    else fields_go s' (String c cur)
  end.

Definition Fields (s : string) : list string := fields_go s "".

(** [strings.Split(s, sep)] for a non-empty separator. [skip] counts the
    characters of a separator still to be passed over. *)
Fixpoint split_go (s sep : string) (skip : nat) (cur : string) : list string :=
  match s with
  | EmptyString => [String.rev cur]
  | String c s' =>
    match skip with
    | S k => split_go s' sep k cur
    | O =>
      if HasPrefix s sep
      then String.rev cur :: split_go s' sep (String.length sep - 1) ""
      else split_go s' sep O (String c cur)
    end
  end.

Definition Split (s sep : string) : list string := split_go s sep O "".

End strings.

(** Wall-clock values as the driver and [time.Now] deliver them. *)
Record Time : Type := mkTime {
  year : nat; month : nat; day : nat;
  hour : nat; minute : nat; second : nat
}.

Definition zeroTime : Time := mkTime 1 1 1 0 0 0.

Definition pad2 (n : nat) : string :=
  if (n <? 10)%nat then "0" +:+ pretty n else pretty n.

Definition pad4 (n : nat) : string :=
  if (n <? 10)%nat then "000" +:+ pretty n
  else if (n <? 100)%nat then "00" +:+ pretty n
  else if (n <? 1000)%nat then "0" +:+ pretty n
  else pretty n.

(** [t.Format("2006-01-02 15:04:05")] *)
Definition Format_datetime (t : Time) : string :=
  pad4 (year t) +:+ "-" +:+ pad2 (month t) +:+ "-" +:+ pad2 (day t) +:+ " " +:+
  pad2 (hour t) +:+ ":" +:+ pad2 (minute t) +:+ ":" +:+ pad2 (second t).

(** [sql.NullString], [sql.NullInt64], [sql.NullTime] *)
Record NullString : Type := mkNullString { String_ : string; Valid : bool }.
Record NullInt64 : Type := mkNullInt64 { Int64 : Z; ValidInt64 : bool }.
Record NullTime : Type := mkNullTime { Time_ : Time; ValidTime : bool }.

(** ** The canonical model: [internal/model/schema.go] *)

Record Column : Type := mkColumn {
  Column_Name : string;
  Column_Position : Z;
  Column_DataType : string;
  Column_Length : Z;
  Column_Precision : Z;
  Column_Scale : Z;
  Column_Nullable : bool;
  Column_DefaultValue : string;
  Column_Comment : string;
  Column_IsPrimaryKey : bool;
  Column_IsForeignKey : bool;
  Column_IsUnique : bool;
  Column_FKTargetTable : string;
  Column_FKTargetColumn : string;
  Column_IsAutoIncrement : bool;
  Column_CharacterSet : string;
  Column_Collation : string
}.

Record Index : Type := mkIndex {
  Index_Name : string;
  Index_TableName : string;
  Index_Owner : string;
  Index_Type : string;
  Index_Columns : slice string;
  Index_IsUnique : bool;
  Index_IsPrimary : bool;
  Index_IsEnabled : bool;
  Index_Comment : string;
  Index_CreatedAt : string
}.

Record Table : Type := mkTable {
  Table_Name : string;
  Table_Owner : string;
  Table_Type : string;
  Table_Comment : string;
  Table_Columns : slice Column;
  Table_Indexes : slice Index;
  Table_RowCount : Z;
  Table_CreatedAt : string;
  Table_ModifiedAt : string
}.

Record View : Type := mkView {
  View_Name : string;
  View_Owner : string;
  View_Type : string;
  View_Comment : string;
  View_Columns : slice Column;
  View_IsUpdatable : bool;
  View_CreatedAt : string;
  View_ModifiedAt : string
}.

Record RoutineArgument : Type := mkRoutineArgument {
  Arg_Name : string;
  Arg_Position : Z;
  Arg_Mode : string;
  Arg_DataType : string;
  Arg_DefaultValue : string;
  Arg_Comment : string
}.

Record Routine : Type := mkRoutine {
  Routine_Name : string;
  Routine_Owner : string;
  Routine_Type : string;
  Routine_Comment : string;
  Routine_Signature : string;
  Routine_Arguments : slice RoutineArgument;
  Routine_ReturnType : string;
  Routine_Language : string;
  Routine_IsDeterministic : bool;
  Routine_SecurityType : string;
  Routine_CreatedAt : string;
  Routine_ModifiedAt : string
}.

Record Sequence : Type := mkSequence {
  Sequence_Name : string;
  Sequence_Owner : string;
  Sequence_MinValue : Z;
  Sequence_MaxValue : Z;
  Sequence_Increment : Z;
  Sequence_LastNumber : Z;
  Sequence_CacheSize : Z;
  Sequence_IsCyclic : bool;
  Sequence_IsOrdered : bool;
  Sequence_Comment : string;
  Sequence_CreatedAt : string
}.

Record Trigger : Type := mkTrigger {
  Trigger_Name : string;
  Trigger_Owner : string;
  Trigger_TargetTable : string;
  Trigger_TargetType : string;
  Trigger_Timing : string;
  Trigger_Event : string;
  Trigger_Level : string;
  Trigger_Status : string;
  Trigger_Comment : string;
  Trigger_CreatedAt : string;
  Trigger_ModifiedAt : string
}.

Record Synonym : Type := mkSynonym {
  Synonym_Name : string;
  Synonym_Owner : string;
  Synonym_TargetObject : string;
  Synonym_TargetOwner : string;
  Synonym_TargetType : string;
  Synonym_IsPublic : bool;
  Synonym_Comment : string;
  Synonym_CreatedAt : string
}.

Record Schema : Type := mkSchema {
  Schema_DatabaseName : string;
  Schema_DatabaseType : string;
  Schema_Version : string;
  Schema_ExtractedAt : Time;
  Schema_Comment : string;
  Schema_Tables : slice Table;
  Schema_Views : slice View;
  Schema_Routines : slice Routine;
  Schema_Sequences : slice Sequence;
  Schema_Triggers : slice Trigger;
  Schema_Synonyms : slice Synonym;
  Schema_Indexes : slice Index
}.

(** *** The model seen through its field names

    [GoValue] is what a field of the model can hold; [fields_of_*] list
    the fields of a value under the names [schema.go] declares them. *)
#[warnings="-register-all"] Inductive GoValue : Type :=
| VString (s : string)
| VInt (n : Z)
| VBool (b : bool)
| VTime (t : Time)
| VSlice (l : list GoValue)
| VStruct (fields : list (string * GoValue)).

Definition fields_of_Column (c : Column) : list (string * GoValue) :=
  [ ("Name", VString (Column_Name c)); ("Position", VInt (Column_Position c));
    ("DataType", VString (Column_DataType c)); ("Length", VInt (Column_Length c));
    ("Precision", VInt (Column_Precision c)); ("Scale", VInt (Column_Scale c));
    ("Nullable", VBool (Column_Nullable c));
    ("DefaultValue", VString (Column_DefaultValue c));
    ("Comment", VString (Column_Comment c));
    ("IsPrimaryKey", VBool (Column_IsPrimaryKey c));
    ("IsForeignKey", VBool (Column_IsForeignKey c));
    ("IsUnique", VBool (Column_IsUnique c));
    ("FKTargetTable", VString (Column_FKTargetTable c));
    ("FKTargetColumn", VString (Column_FKTargetColumn c));
    ("IsAutoIncrement", VBool (Column_IsAutoIncrement c));
    ("CharacterSet", VString (Column_CharacterSet c));
    ("Collation", VString (Column_Collation c)) ].

Definition fields_of_View (v : View) : list (string * GoValue) :=
  [ ("Name", VString (View_Name v)); ("Owner", VString (View_Owner v));
    ("Type", VString (View_Type v)); ("Comment", VString (View_Comment v));
    ("Columns", VSlice (map (fun c => VStruct (fields_of_Column c)) (elems (View_Columns v))));
    ("IsUpdatable", VBool (View_IsUpdatable v));
    ("CreatedAt", VString (View_CreatedAt v));
    ("ModifiedAt", VString (View_ModifiedAt v)) ].

Definition fields_of_RoutineArgument (a : RoutineArgument) : list (string * GoValue) :=
  [ ("Name", VString (Arg_Name a)); ("Position", VInt (Arg_Position a));
    ("Mode", VString (Arg_Mode a)); ("DataType", VString (Arg_DataType a));
    ("DefaultValue", VString (Arg_DefaultValue a));
    ("Comment", VString (Arg_Comment a)) ].

Definition fields_of_Routine (r : Routine) : list (string * GoValue) :=
  [ ("Name", VString (Routine_Name r)); ("Owner", VString (Routine_Owner r));
    ("Type", VString (Routine_Type r)); ("Comment", VString (Routine_Comment r));
    ("Signature", VString (Routine_Signature r));
    ("Arguments",
      VSlice (map (fun a => VStruct (fields_of_RoutineArgument a))
                  (elems (Routine_Arguments r))));
    ("ReturnType", VString (Routine_ReturnType r));
    ("Language", VString (Routine_Language r));
    ("IsDeterministic", VBool (Routine_IsDeterministic r));
    ("SecurityType", VString (Routine_SecurityType r));
    ("CreatedAt", VString (Routine_CreatedAt r));
    ("ModifiedAt", VString (Routine_ModifiedAt r)) ].

Definition fields_of_Trigger (t : Trigger) : list (string * GoValue) :=
  [ ("Name", VString (Trigger_Name t)); ("Owner", VString (Trigger_Owner t));
    ("TargetTable", VString (Trigger_TargetTable t));
    ("TargetType", VString (Trigger_TargetType t));
    ("Timing", VString (Trigger_Timing t)); ("Event", VString (Trigger_Event t));
    ("Level", VString (Trigger_Level t)); ("Status", VString (Trigger_Status t));
    ("Comment", VString (Trigger_Comment t));
    ("CreatedAt", VString (Trigger_CreatedAt t));
    ("ModifiedAt", VString (Trigger_ModifiedAt t)) ].

(** ** The model validator: [validateNoSourceCodeFields] *)

Module validator.

(** The part of [go/ast] the validator inspects: type declarations,
    struct types and the names each field declaration introduces. *)
Record Field : Type := mkField { Names : list string }.

Inductive TypeExpr : Type :=
| StructType (fields : list Field)
| OtherType.

Record TypeSpec : Type := mkTypeSpec { Name : string; Type_ : TypeExpr }.

Definition File : Type := list TypeSpec.

Record ValidationResult : Type := mkResult {
  Rule : string;
  Passed : bool;
  Details : list string
}.

Definition forbiddenFields : list string :=
  ["Body"; "Definition"; "Script"; "Text"; "Source"].

(** The body of the [ast.Inspect] callback, for one node. *)
Definition inspect (typeSpec : TypeSpec) : list string :=
  match Type_ typeSpec with
  | StructType fields =>
    flat_map (fun field =>
      flat_map (fun name =>
        flat_map (fun forbidden =>
          if String.eqb name forbidden
          then [fmt.Sprintf "FORBIDDEN field '%s' found in struct %s"
                  [fmt.S_ name; fmt.S_ (Name typeSpec)]]
          else [])
        forbiddenFields)
      (Names field))
    fields
  | OtherType => []
  end.

(** [parsed] is the outcome of [parser.ParseFile] on the model file. *)
Definition validateNoSourceCodeFields (parsed : error + File) : ValidationResult :=
  match parsed with
  | inl err =>
    mkResult "NO SOURCE CODE FIELDS (Security)" false
      [fmt.Sprintf "Error parsing %s: %s"
         [fmt.S_ "internal/model/schema.go"; fmt.S_ (Error err)]]
  | inr node =>
    let violations := flat_map inspect node in
    if (0 <? length violations)%nat
    then mkResult "NO SOURCE CODE FIELDS (Security)" false violations
    else mkResult "NO SOURCE CODE FIELDS (Security)" true
           [ "✓ No forbidden source code fields (Body, Definition, Script, Text) found";
             "✓ Routine has Signature only (no Body)";
             "✓ Trigger has metadata only (no Definition)" ]
  end.

Definition struct_ (name : string) (fields : list string) : TypeSpec :=
  mkTypeSpec name (StructType (map (fun f => mkField [f]) fields)).

(** The declarations of [internal/model/schema.go], in file order. *)
Definition schema_go : File :=
  [ struct_ "Schema"
      ["DatabaseName"; "DatabaseType"; "Version"; "ExtractedAt"; "Comment";
       "Tables"; "Views"; "Routines"; "Sequences"; "Triggers"; "Synonyms";
       "Indexes"];
    struct_ "Table"
      ["Name"; "Owner"; "Type"; "Comment"; "Columns"; "Indexes"; "RowCount";
       "CreatedAt"; "ModifiedAt"];
    struct_ "View"
      ["Name"; "Owner"; "Type"; "Comment"; "Columns"; "IsUpdatable";
       "CreatedAt"; "ModifiedAt"];
    struct_ "Column"
      ["Name"; "Position"; "DataType"; "Length"; "Precision"; "Scale";
       "Nullable"; "DefaultValue"; "Comment"; "IsPrimaryKey"; "IsForeignKey";
       "IsUnique"; "FKTargetTable"; "FKTargetColumn"; "IsAutoIncrement";
       "CharacterSet"; "Collation"];
    struct_ "Routine"
      ["Name"; "Owner"; "Type"; "Comment"; "Signature"; "Arguments";
       "ReturnType"; "Language"; "IsDeterministic"; "SecurityType";
       "CreatedAt"; "ModifiedAt"];
    struct_ "RoutineArgument"
      ["Name"; "Position"; "Mode"; "DataType"; "DefaultValue"; "Comment"];
    struct_ "Index"
      ["Name"; "TableName"; "Owner"; "Type"; "Columns"; "IsUnique";
       "IsPrimary"; "IsEnabled"; "Comment"; "CreatedAt"];
    struct_ "Sequence"
      ["Name"; "Owner"; "MinValue"; "MaxValue"; "Increment"; "LastNumber";
       "CacheSize"; "IsCyclic"; "IsOrdered"; "Comment"; "CreatedAt"];
    struct_ "Trigger"
      ["Name"; "Owner"; "TargetTable"; "TargetType"; "Timing"; "Event";
       "Level"; "Status"; "Comment"; "CreatedAt"; "ModifiedAt"];
    struct_ "Synonym"
      ["Name"; "Owner"; "TargetObject"; "TargetOwner"; "TargetType";
       "IsPublic"; "Comment"; "CreatedAt"] ].

(** The field names a struct of the file declares. *)
Definition declared_fields (file : File) (name : string) : list string :=
  flat_map (fun ts =>
    if String.eqb (Name ts) name
    then match Type_ ts with
         | StructType fields => flat_map Names fields
         | OtherType => []
         end
    else [])
  file.

(** The two loops of [validateCommentFields] over the fields of a struct
    and the names of a field; [break] leaves the loop over the names. *)
Fixpoint names_loop (names : list string) (hasComment : bool) : bool :=
  match names with
  | [] => hasComment
  | name :: names =>
    if String.eqb name "Comment" then true else names_loop names hasComment
  end.

Definition fields_loop (fields : list Field) : bool :=
  fold_left (fun hasComment field => names_loop (Names field) hasComment)
    fields false.

(** Indexing a Go [map[string]bool]: a missing key reads as [false]. *)
Definition index (m : gmap string bool) (key : string) : bool :=
  default false (m !! key).

Definition requiredStructs : list string :=
  ["Schema"; "Table"; "View"; "Column"; "Routine";
   "RoutineArgument"; "Index"; "Sequence"; "Trigger"; "Synonym"].

Definition structsWithComment (node : File) : gmap string bool :=
  fold_left (fun (m : gmap string bool) typeSpec =>
    match Type_ typeSpec with
    | StructType fields => <[Name typeSpec := fields_loop fields]> m
    | OtherType => m
    end)
  node ∅.

Definition validateCommentFields (parsed : error + File) : ValidationResult :=
  match parsed with
  | inl err =>
    mkResult "COMMENT FIELDS ON ALL STRUCTS (Rich Metadata)" false
      [fmt.Sprintf "Error parsing %s: %s"
         [fmt.S_ "internal/model/schema.go"; fmt.S_ (Error err)]]
  | inr node =>
    let structsWithComment := structsWithComment node in
    let '(missing, details) :=
      fold_left (fun '(missing, details) structName =>
        if negb (index structsWithComment structName)
        then (missing ++ [fmt.Sprintf "Struct '%s' missing Comment field"
                            [fmt.S_ structName]], details)
        else (missing, details ++ [fmt.Sprintf "✓ %s has Comment field"
                                     [fmt.S_ structName]]))
      requiredStructs ([], []) in
    if (0 <? length missing)%nat
    then mkResult "COMMENT FIELDS ON ALL STRUCTS (Rich Metadata)" false
           (missing ++ details)
    else mkResult "COMMENT FIELDS ON ALL STRUCTS (Rich Metadata)" true details
  end.

Definition requiredTypes : list string :=
  ["Table"; "View"; "Routine"; "Sequence"; "Trigger"; "Synonym"].

Definition definedTypes (node : File) : gmap string bool :=
  fold_left (fun (m : gmap string bool) typeSpec => <[Name typeSpec := true]> m)
    node ∅.

Definition validateFullObjectCoverage (parsed : error + File) : ValidationResult :=
  match parsed with
  | inl err =>
    mkResult
      "FULL OBJECT COVERAGE (Tables/Views/Routines/Sequences/Triggers/Synonyms)"
      false
      [fmt.Sprintf "Error parsing %s: %s"
         [fmt.S_ "internal/model/schema.go"; fmt.S_ (Error err)]]
  | inr node =>
    let definedTypes := definedTypes node in
    let '(missing, details) :=
      fold_left (fun '(missing, details) typeName =>
        if negb (index definedTypes typeName)
        then (missing ++ [fmt.Sprintf "Missing type: %s" [fmt.S_ typeName]],
              details)
        else (missing,
              details ++ [fmt.Sprintf "✓ %s type defined" [fmt.S_ typeName]]))
      requiredTypes ([], []) in
    if (0 <? length missing)%nat
    then mkResult
           "FULL OBJECT COVERAGE (Tables/Views/Routines/Sequences/Triggers/Synonyms)"
           false (missing ++ details)
    else mkResult
           "FULL OBJECT COVERAGE (Tables/Views/Routines/Sequences/Triggers/Synonyms)"
           true details
  end.

(** [content] is the outcome of [os.ReadFile] on the configuration
    source. *)
Definition validateViperTags (content : error + string) : ValidationResult :=
  match content with
  | inl err =>
    mkResult "VIPER COMPATIBILITY (mapstructure tags)" false
      [fmt.Sprintf "Error reading %s: %s"
         [fmt.S_ "internal/config/config.go"; fmt.S_ (Error err)]]
  | inr content =>
    if negb (strings.Contains content "mapstructure:")
    then mkResult "VIPER COMPATIBILITY (mapstructure tags)" false
           ["No mapstructure tags found in config.go"]
    else mkResult "VIPER COMPATIBILITY (mapstructure tags)" true
           ["✓ Config structs have mapstructure tags";
            "✓ Compatible with Viper configuration loading"]
  end.

Definition newline : string := String "010"%char EmptyString.

(** [main]: what it prints and the status it exits with. The model file is
    parsed once by each of the first three rules. *)
Definition main (parsed1 parsed2 parsed3 : error + File)
    (content : error + string) : string * Z :=
  let out :=
    "🛡️  Phase 1 Critical Implementation Rules Validator" +:+ newline
    +:+ "===================================================" +:+ newline
    +:+ newline in
  let results :=
    [ validateNoSourceCodeFields parsed1;
      validateCommentFields parsed2;
      validateFullObjectCoverage parsed3;
      validateViperTags content ] in
  let '(out, allPassed) :=
    fold_left (fun '(out, allPassed) result =>
      let status := if Passed result then "✅ PASS" else "❌ FAIL" in
      let allPassed := if Passed result then allPassed else false in
      let out :=
        out +:+ fmt.Sprintf "%s Rule: %s" [fmt.S_ status; fmt.S_ (Rule result)]
            +:+ newline in
      let out :=
        fold_left (fun out detail =>
          out +:+ fmt.Sprintf "    %s" [fmt.S_ detail] +:+ newline)
        (Details result) out in
      (out +:+ newline, allPassed))
    results (out, true) in
  let out :=
    out +:+ "===================================================" +:+ newline in
  if allPassed
  then (out +:+ "✅ ALL CHECKS PASSED - Phase 1 Complete!" +:+ newline, 0)
  else (out +:+ "❌ VALIDATION FAILED - Fix issues above" +:+ newline, 1).

End validator.

(** ** The [database/sql] boundary

    A catalog query is named by the SQL literal it starts from
    ([Statement]), the text the extractor appends to it at run time and the
    arguments it binds. The driver is an oracle: given the history of calls
    so far and a query, it answers with an error or with rows. Every call
    into the driver is recorded, with its error if it returned one. *)

Module sql.

Inductive Statement : Type :=
| SelDatabaseInfo
| SelTables
| SelColumns
| SelConstraints
| SelForeignKeyTarget
| SelIndexes
| SelIndexColumns
| SelViews
| SelViewColumns
| SelRoutines
| SelRoutineArguments
| SelSequences
| SelTriggers
| SelSynonyms.

Record Query : Type := mkQuery {
  statement : Statement;
  appended : string;
  args : list string
}.

Inductive Call : Type :=
| CallQueryContext
| CallQueryRowScan
| CallRowsScan
| CallRowsErr.

Record Event : Type := mkEvent {
  ev_call : Call;
  ev_query : Query;
  ev_err : option error
}.

Definition World : Type := list Event.

(** [*sql.Rows]: each delivered row with the outcome of scanning it into
    the destinations the source names, and the error [rows.Err()] reports
    once iteration has stopped. *)
Record Rows (R : Type) : Type := mkRows {
  delivered : list (error + R);
  iteration_err : option error
}.
Arguments mkRows {R} delivered iteration_err.
Arguments delivered {R} r.
Arguments iteration_err {R} r.

Definition failure {E A} (r : E + A) : option E :=
  match r with
  | inl e => Some e
  | inr _ => None
  end.

Definition M (A : Type) : Type := World -> A * World.

#[export] Instance M_ret : MRet M := fun A (a : A) (w : World) => (a, w).

#[export] Instance M_bind : MBind M := fun A B (k : A -> M B) (m : M A) (w : World) =>
  let '(a, w1) := m w in k a w1.

(** [db.QueryContext(ctx, query, args...)] *)
Definition QueryContext {R} (answer : World -> Query -> error + Rows R)
    (q : Query) : M (error + Rows R) :=
  fun w => let r := answer w q in
           (r, w ++ [mkEvent CallQueryContext q (failure r)]).

(** [db.QueryRowContext(ctx, query, args...).Scan(dest...)] *)
Definition QueryRowScan {R} (answer : World -> Query -> error + R)
    (q : Query) : M (error + R) :=
  fun w => let r := answer w q in
           (r, w ++ [mkEvent CallQueryRowScan q (failure r)]).

(** [rows.Scan(dest...)] on the current row *)
Definition Scan {R} (q : Query) (row : error + R) : M (error + R) :=
  fun w => (row, w ++ [mkEvent CallRowsScan q (failure row)]).

(** [rows.Err()] *)
Definition Err {R} (q : Query) (rows : Rows R) : M (option error) :=
  fun w => (iteration_err rows, w ++ [mkEvent CallRowsErr q (iteration_err rows)]).

(** [for rows.Next() { if err := rows.Scan(...); err != nil { return nil,
    onScanErr(err) }; body }]. [body] returns the updated accumulator, or
    an error with which the enclosing function returns at once. *)
Fixpoint for_rows {R S} (q : Query) (onScanErr : error -> error)
    (body : S -> R -> M (S * option error))
    (rows : list (error + R)) (acc : S) : M (S * option error) :=
  match rows with
  | [] => mret (acc, None)
  | row :: rest =>
    scanned ← Scan q row;
    match scanned with
    | inl err => mret (acc, Some (onScanErr err))
    | inr r =>
      '(acc', err) ← body acc r;
      match err with
      | Some err => mret (acc', Some err)
      | None => for_rows q onScanErr body rest acc'
      end
    end
  end.

End sql.

Import sql.

(** [time.Now()] reads the clock and leaves no trace in the history. *)
Definition time_Now (clock : World -> Time) : M Time :=
  fun w => (clock w, w).

(** [for _, table := range schema.Tables { schema.Indexes =
    append(schema.Indexes, table.Indexes...) }], from the nil slice of the
    fresh [Schema]. *)
Definition collect_indexes (tables : slice Table) : slice Index :=
  foldl (fun indexes table => append_all indexes (elems (Table_Indexes table)))
    nil_slice (elems tables).

(** [var args []interface{}; for _, schema := range e.schemaFilter
    { args = append(args, schema) }] *)
Definition filter_args (schemaFilter : slice string) : slice string :=
  foldl append nil_slice (elems schemaFilter).

(** [if len(e.schemaFilter) > 0 { placeholders := make(...); for i := range
    e.schemaFilter { placeholders[i] = placeholder(i) }; query +=
    fmt.Sprintf(format, strings.Join(placeholders, ",")) }]: the text
    appended to the query. *)
Definition filter_clause (schemaFilter : slice string)
    (placeholder : nat -> string) (format : string) : string :=
  if (0 <? len schemaFilter)%nat then
    let placeholders :=
      assign_by_index (fun i _ => placeholder i) 0 (elems schemaFilter)
        (replicate (len schemaFilter) "") in
    fmt.Sprintf format [fmt.S_ (strings.Join placeholders ",")]
  else "".

(** ** PostgreSQL: [internal/extractor/postgres/extractor.go] *)

Module postgres.

Record Config : Type := mkConfig {
  Host : string;
  Port : Z;
  Database : string;
  Username : string;
  Password : string;
  SSLMode : string;
  SchemaFilter : slice string
}.

(** What the connection answers to each catalog query of the extractor; a
    row is the tuple of values [Scan] stores, in the order of its
    destinations. [clock] is [time.Now]. *)
Record DB : Type := mkDB {
  databaseInfo : World -> Query -> error + (string * string);
  tables : World -> Query -> error + Rows (string * string * string * Z * string);
  columns : World -> Query ->
    error + Rows (Z * string * string * bool * string * string * bool * bool * bool);
  foreignKeyTarget : World -> Query -> error + (NullString * NullString);
  indexes : World -> Query -> error + Rows (string * string * bool * bool * string);
  indexColumns : World -> Query -> error + Rows string;
  views : World -> Query -> error + Rows (string * string * string * bool);
  routines : World -> Query ->
    error + Rows (string * string * string * string * string * string * string);
  sequences : World -> Query ->
    error + Rows (string * string * Z * Z * Z * Z * bool * string);
  triggers : World -> Query ->
    error + Rows (string * string * string * string * string * string * string * string);
  clock : World -> Time
}.

Record Extractor : Type := mkExtractor {
  db : DB;
  config : Config;
  schemaFilter : slice string
}.

(** [sql_Open] is [sql.Open("postgres", connStr)]. *)
Definition NewExtractor (sql_Open : string -> string -> DB + error) (cfg : Config)
    : option Extractor * option error :=
  let connStr :=
    fmt.Sprintf "host=%s port=%d user=%s password=%s dbname=%s sslmode=%s"
      [fmt.S_ (Host cfg); fmt.D_ (Port cfg); fmt.S_ (Username cfg);
       fmt.S_ (Password cfg); fmt.S_ (Database cfg); fmt.S_ (SSLMode cfg)] in
  match sql_Open "postgres" connStr with
  | inr err =>
    (None, Some (fmt.Errorf "failed to open postgres connection: %w" [] err))
  | inl db =>
    let schemas := SchemaFilter cfg in
    let schemas :=
      if (len schemas =? 0)%nat then mk_slice ["public"] else schemas in
    (Some (mkExtractor db cfg schemas), None)
  end.

Definition placeholder (i : nat) : string :=
  fmt.Sprintf "$%d" [fmt.D_ (Z.of_nat i + 1)].

Definition GetDatabaseInfo (e : Extractor) : M (string * string * option error) :=
  r ← QueryRowScan (databaseInfo (db e)) (mkQuery SelDatabaseInfo "" []);
  match r with
  | inl err => mret ("", "", Some err)
  | inr (name, version) => mret (name, version, None)
  end.

Definition getForeignKeyTarget (e : Extractor) (schema table column : string)
    : M (option (gmap string string) * option error) :=
  r ← QueryRowScan (foreignKeyTarget (db e))
        (mkQuery SelForeignKeyTarget "" [schema; table; column]);
  match r with
  | inl err => mret (None, Some err)
  | inr (refTable, refColumn) =>
    if Valid refTable && Valid refColumn
    then mret (Some (<["column" := String_ refColumn]>
                      (<["table" := String_ refTable]> ∅)), None)
    else mret (None, None)
  end.

Definition getColumnsForTable (e : Extractor) (schema tableName : string)
    : M (slice Column * option error) :=
  let query := mkQuery SelColumns "" [schema; tableName] in
  res ← QueryContext (columns (db e)) query;
  match res with
  | inl err => mret (nil_slice, Some err)
  | inr rows =>
    '(columns, err) ←
      for_rows query id
        (fun columns '(Position, Name, DataType, Nullable, DefaultValue, Comment,
                       IsPrimaryKey, IsForeignKey, IsUnique) =>
          let IsAutoIncrement := strings.Contains DefaultValue "nextval" in
          '(FKTargetTable, FKTargetColumn) ←
            (if IsForeignKey then
               '(fkInfo, err) ← getForeignKeyTarget e schema tableName Name;
               match err, fkInfo with
               | None, Some fkInfo =>
                 mret (default "" (fkInfo !! "table"), default "" (fkInfo !! "column"))
               | _, _ => mret ("", "")
               end
             else mret ("", ""));
          mret (append columns
                  {| Column_Name := Name; Column_Position := Position;
                     Column_DataType := DataType; Column_Length := 0;
                     Column_Precision := 0; Column_Scale := 0;
                     Column_Nullable := Nullable;
                     Column_DefaultValue := DefaultValue;
                     Column_Comment := Comment;
                     Column_IsPrimaryKey := IsPrimaryKey;
                     Column_IsForeignKey := IsForeignKey;
                     Column_IsUnique := IsUnique;
                     Column_FKTargetTable := FKTargetTable;
                     Column_FKTargetColumn := FKTargetColumn;
                     Column_IsAutoIncrement := IsAutoIncrement;
                     Column_CharacterSet := ""; Column_Collation := "" |},
                None))
        (delivered rows) nil_slice;
    match err with
    | Some err => mret (nil_slice, Some err)
    | None => err ← Err query rows; mret (columns, err)
    end
  end.

Definition getIndexColumns (e : Extractor) (schema indexName : string)
    : M (slice string * option error) :=
  let query := mkQuery SelIndexColumns "" [schema; indexName] in
  res ← QueryContext (indexColumns (db e)) query;
  match res with
  | inl err => mret (nil_slice, Some err)
  | inr rows =>
    '(columns, err) ←
      for_rows query id (fun columns col => mret (append columns col, None))
        (delivered rows) nil_slice;
    match err with
    | Some err => mret (nil_slice, Some err)
    | None => err ← Err query rows; mret (columns, err)
    end
  end.

Definition getIndexesForTable (e : Extractor) (schema tableName : string)
    : M (slice Index * option error) :=
  let query := mkQuery SelIndexes "" [schema; tableName] in
  res ← QueryContext (indexes (db e)) query;
  match res with
  | inl err => mret (nil_slice, Some err)
  | inr rows =>
    '(indexes, err) ←
      for_rows query id
        (fun indexes '(Name, Type_, IsUnique, isPrimary, Comment) =>
          '(Columns, err) ← getIndexColumns e schema Name;
          match err with
          | Some err => mret (indexes, Some err)
          | None =>
            mret (append indexes
                    {| Index_Name := Name; Index_TableName := tableName;
                       Index_Owner := schema; Index_Type := Type_;
                       Index_Columns := Columns; Index_IsUnique := IsUnique;
                       Index_IsPrimary := isPrimary; Index_IsEnabled := true;
                       Index_Comment := Comment; Index_CreatedAt := "" |},
                  None)
          end)
        (delivered rows) nil_slice;
    match err with
    | Some err => mret (nil_slice, Some err)
    | None => err ← Err query rows; mret (indexes, err)
    end
  end.

Definition GetTables (e : Extractor) : M (slice Table * option error) :=
  let query :=
    mkQuery SelTables
      (filter_clause (schemaFilter e) placeholder " AND n.nspname IN (%s)"
         +:+ " ORDER BY n.nspname, c.relname")
      (elems (filter_args (schemaFilter e))) in
  res ← QueryContext (tables (db e)) query;
  match res with
  | inl err => mret (nil_slice, Some (fmt.Errorf "failed to query tables: %w" [] err))
  | inr rows =>
    '(tables, err) ←
      for_rows query id
        (fun tables '(Owner, Name, Comment, RowCount, kind) =>
          '(Columns, err) ← getColumnsForTable e Owner Name;
          match err with
          | Some err => mret (tables, Some err)
          | None =>
            '(Indexes, err) ← getIndexesForTable e Owner Name;
            match err with
            | Some err => mret (tables, Some err)
            | None =>
              mret (append tables
                      {| Table_Name := Name; Table_Owner := Owner;
                         Table_Type := "TABLE"; Table_Comment := Comment;
                         Table_Columns := Columns; Table_Indexes := Indexes;
                         Table_RowCount := RowCount; Table_CreatedAt := "";
                         Table_ModifiedAt := "" |},
                    None)
            end
          end)
        (delivered rows) nil_slice;
    match err with
    | Some err => mret (nil_slice, Some err)
    | None => err ← Err query rows; mret (tables, err)
    end
  end.

Definition GetViews (e : Extractor) : M (slice View * option error) :=
  let query :=
    mkQuery SelViews
      (filter_clause (schemaFilter e) placeholder " AND n.nspname IN (%s)")
      (elems (filter_args (schemaFilter e))) in
  res ← QueryContext (views (db e)) query;
  match res with
  | inl err => mret (nil_slice, Some err)
  | inr rows =>
    '(views, err) ←
      for_rows query id
        (fun views '(Owner, Name, Comment, IsUpdatable) =>
          '(Columns, err) ← getColumnsForTable e Owner Name;
          match err with
          | Some err => mret (views, Some err)
          | None =>
            mret (append views
                    {| View_Name := Name; View_Owner := Owner; View_Type := "VIEW";
                       View_Comment := Comment; View_Columns := Columns;
                       View_IsUpdatable := IsUpdatable; View_CreatedAt := "";
                       View_ModifiedAt := "" |},
                  None)
          end)
        (delivered rows) nil_slice;
    match err with
    | Some err => mret (nil_slice, Some err)
    | None => err ← Err query rows; mret (views, err)
    end
  end.

Definition GetRoutines (e : Extractor) : M (slice Routine * option error) :=
  let query :=
    mkQuery SelRoutines
      (filter_clause (schemaFilter e) placeholder " AND n.nspname IN (%s)")
      (elems (filter_args (schemaFilter e))) in
  res ← QueryContext (routines (db e)) query;
  match res with
  | inl err => mret (nil_slice, Some err)
  | inr rows =>
    '(routines, err) ←
      for_rows query id
        (fun routines '(Owner, Name, Type_, Comment, argStr, returnType, Language) =>
          let ReturnType := if String.eqb Type_ "FUNCTION" then returnType else "" in
          let Signature :=
            fmt.Sprintf "%s %s(%s)" [fmt.S_ Type_; fmt.S_ Name; fmt.S_ argStr] in
          let Signature :=
            if String.eqb Type_ "FUNCTION"
            then Signature +:+ " RETURNS " +:+ returnType
            else Signature in
          mret (append routines
                  {| Routine_Name := Name; Routine_Owner := Owner;
                     Routine_Type := Type_; Routine_Comment := Comment;
                     Routine_Signature := Signature;
                     Routine_Arguments := nil_slice;
                     Routine_ReturnType := ReturnType;
                     Routine_Language := Language;
                     Routine_IsDeterministic := false;
                     Routine_SecurityType := ""; Routine_CreatedAt := "";
                     Routine_ModifiedAt := "" |},
                None))
        (delivered rows) nil_slice;
    match err with
    | Some err => mret (nil_slice, Some err)
    | None => err ← Err query rows; mret (routines, err)
    end
  end.

Definition GetSequences (e : Extractor) : M (slice Sequence * option error) :=
  let query :=
    mkQuery SelSequences
      (filter_clause (schemaFilter e) placeholder " AND n.nspname IN (%s)")
      (elems (filter_args (schemaFilter e))) in
  res ← QueryContext (sequences (db e)) query;
  match res with
  | inl err => mret (nil_slice, Some err)
  | inr rows =>
    '(sequences, err) ←
      for_rows query id
        (fun sequences '(Owner, Name, MinValue, MaxValue, Increment, LastNumber,
                         IsCyclic, Comment) =>
          mret (append sequences
                  {| Sequence_Name := Name; Sequence_Owner := Owner;
                     Sequence_MinValue := MinValue; Sequence_MaxValue := MaxValue;
                     Sequence_Increment := Increment;
                     Sequence_LastNumber := LastNumber; Sequence_CacheSize := 0;
                     Sequence_IsCyclic := IsCyclic; Sequence_IsOrdered := false;
                     Sequence_Comment := Comment; Sequence_CreatedAt := "" |},
                None))
        (delivered rows) nil_slice;
    match err with
    | Some err => mret (nil_slice, Some err)
    | None => err ← Err query rows; mret (sequences, err)
    end
  end.

Definition GetTriggers (e : Extractor) : M (slice Trigger * option error) :=
  let query :=
    mkQuery SelTriggers
      (filter_clause (schemaFilter e) placeholder " AND n.nspname IN (%s)")
      (elems (filter_args (schemaFilter e))) in
  res ← QueryContext (triggers (db e)) query;
  match res with
  | inl err => mret (nil_slice, Some err)
  | inr rows =>
    '(triggers, err) ←
      for_rows query id
        (fun triggers '(Owner, Name, TargetTable, Level, Timing, Event, Status,
                        Comment) =>
          mret (append triggers
                  {| Trigger_Name := Name; Trigger_Owner := Owner;
                     Trigger_TargetTable := TargetTable;
                     Trigger_TargetType := "TABLE"; Trigger_Timing := Timing;
                     Trigger_Event := Event; Trigger_Level := Level;
                     Trigger_Status := Status; Trigger_Comment := Comment;
                     Trigger_CreatedAt := ""; Trigger_ModifiedAt := "" |},
                None))
        (delivered rows) nil_slice;
    match err with
    | Some err => mret (nil_slice, Some err)
    | None => err ← Err query rows; mret (triggers, err)
    end
  end.

(** PostgreSQL has no synonyms. *)
Definition GetSynonyms (e : Extractor) : M (slice Synonym * option error) :=
  mret (mk_slice [], None).

Definition ExtractSchema (e : Extractor) : M (option Schema * option error) :=
  ExtractedAt ← time_Now (clock (db e));
  '(DatabaseName, Version, err) ← GetDatabaseInfo e;
  match err with
  | Some err => mret (None, Some err)
  | None =>
  '(Tables, err) ← GetTables e;
  match err with
  | Some err => mret (None, Some err)
  | None =>
  '(Views, err) ← GetViews e;
  match err with
  | Some err => mret (None, Some err)
  | None =>
  '(Routines, err) ← GetRoutines e;
  match err with
  | Some err => mret (None, Some err)
  | None =>
  '(Sequences, err) ← GetSequences e;
  match err with
  | Some err => mret (None, Some err)
  | None =>
  '(Triggers, err) ← GetTriggers e;
  match err with
  | Some err => mret (None, Some err)
  | None =>
  '(Synonyms, err) ← GetSynonyms e;
  match err with
  | Some err => mret (None, Some err)
  | None =>
    mret (Some {| Schema_DatabaseName := DatabaseName;
                  Schema_DatabaseType := "PostgreSQL";
                  Schema_Version := Version;
                  Schema_ExtractedAt := ExtractedAt;
                  Schema_Comment := "";
                  Schema_Tables := Tables; Schema_Views := Views;
                  Schema_Routines := Routines; Schema_Sequences := Sequences;
                  Schema_Triggers := Triggers; Schema_Synonyms := Synonyms;
                  Schema_Indexes := collect_indexes Tables |},
          None)
  end end end end end end end.

End postgres.

(** [for i := range columns { columns[i] = f(columns[i]) }]: the elements
    are updated in place, so a nil slice stays nil. *)
Definition update_each {A} (f : A -> A) (s : slice A) : slice A :=
  match s with
  | nil_slice => nil_slice
  | mk_slice l => mk_slice (map f l)
  end.

Definition set_IsPrimaryKey (c : Column) : Column :=
  mkColumn (Column_Name c) (Column_Position c) (Column_DataType c)
    (Column_Length c) (Column_Precision c) (Column_Scale c) (Column_Nullable c)
    (Column_DefaultValue c) (Column_Comment c) true (Column_IsForeignKey c)
    (Column_IsUnique c) (Column_FKTargetTable c) (Column_FKTargetColumn c)
    (Column_IsAutoIncrement c) (Column_CharacterSet c) (Column_Collation c).

Definition set_IsForeignKey (c : Column) : Column :=
  mkColumn (Column_Name c) (Column_Position c) (Column_DataType c)
    (Column_Length c) (Column_Precision c) (Column_Scale c) (Column_Nullable c)
    (Column_DefaultValue c) (Column_Comment c) (Column_IsPrimaryKey c) true
    (Column_IsUnique c) (Column_FKTargetTable c) (Column_FKTargetColumn c)
    (Column_IsAutoIncrement c) (Column_CharacterSet c) (Column_Collation c).

Definition set_IsUnique (c : Column) : Column :=
  mkColumn (Column_Name c) (Column_Position c) (Column_DataType c)
    (Column_Length c) (Column_Precision c) (Column_Scale c) (Column_Nullable c)
    (Column_DefaultValue c) (Column_Comment c) (Column_IsPrimaryKey c)
    (Column_IsForeignKey c) true (Column_FKTargetTable c)
    (Column_FKTargetColumn c) (Column_IsAutoIncrement c)
    (Column_CharacterSet c) (Column_Collation c).

Definition set_FKTargetTable (fkTable : string) (c : Column) : Column :=
  mkColumn (Column_Name c) (Column_Position c) (Column_DataType c)
    (Column_Length c) (Column_Precision c) (Column_Scale c) (Column_Nullable c)
    (Column_DefaultValue c) (Column_Comment c) (Column_IsPrimaryKey c)
    (Column_IsForeignKey c) (Column_IsUnique c) fkTable
    (Column_FKTargetColumn c) (Column_IsAutoIncrement c)
    (Column_CharacterSet c) (Column_Collation c).

Definition set_FKTargetColumn (fkCol : string) (c : Column) : Column :=
  mkColumn (Column_Name c) (Column_Position c) (Column_DataType c)
    (Column_Length c) (Column_Precision c) (Column_Scale c) (Column_Nullable c)
    (Column_DefaultValue c) (Column_Comment c) (Column_IsPrimaryKey c)
    (Column_IsForeignKey c) (Column_IsUnique c) (Column_FKTargetTable c)
    fkCol (Column_IsAutoIncrement c) (Column_CharacterSet c)
    (Column_Collation c).

(** ** Oracle: package [oracle] *)

Module oracle.

Record Config : Type := mkConfig {
  Host : string;
  Port : Z;
  ServiceName : string;
  Username : string;
  Password : string;
  SchemaFilter : slice string
}.

Record DB : Type := mkDB {
  databaseInfo : World -> Query -> error + (string * string);
  tables : World -> Query ->
    error + Rows (string * string * string * NullInt64 * string * NullString * NullString);
  columns : World -> Query ->
    error + Rows (string * Z * NullString * Z * Z * Z * string * NullString * string * Z);
  constraints : World -> Query ->
    error + Rows (string * string * NullString * NullString * NullString);
  indexes : World -> Query -> error + Rows (string * string * string * string);
  indexColumns : World -> Query -> error + Rows string;
  views : World -> Query -> error + Rows (string * string * string * string * string);
  routines : World -> Query ->
    error + Rows (string * string * NullString * string * string);
  routineArguments : World -> Query ->
    error + Rows (string * Z * string * string * NullString);
  sequences : World -> Query ->
    error + Rows (string * string * Z * Z * Z * Z * Z * string * string);
  triggers : World -> Query ->
    error + Rows (string * string * string * string * string * string * string);
  synonyms : World -> Query ->
    error + Rows (string * string * string * string * NullString);
  clock : World -> Time
}.

Record Extractor : Type := mkExtractor {
  db : DB;
  config : Config;
  schemaFilter : slice string
}.

(** [sql_Open] is [sql.Open("oracle", connStr)]. *)
Definition NewExtractor (sql_Open : string -> string -> DB + error) (cfg : Config)
    : option Extractor * option error :=
  let connStr :=
    fmt.Sprintf "oracle://%s:%s@%s:%d/%s"
      [fmt.S_ (Username cfg); fmt.S_ (Password cfg); fmt.S_ (Host cfg);
       fmt.D_ (Port cfg); fmt.S_ (ServiceName cfg)] in
  match sql_Open "oracle" connStr with
  | inr err =>
    (None, Some (fmt.Errorf "failed to open oracle connection: %w" [] err))
  | inl db => (Some (mkExtractor db cfg (SchemaFilter cfg)), None)
  end.

Definition placeholder (i : nat) : string :=
  fmt.Sprintf ":%d" [fmt.D_ (Z.of_nat i + 1)].

Definition GetDatabaseInfo (e : Extractor) : M (string * string * option error) :=
  r ← QueryRowScan (databaseInfo (db e)) (mkQuery SelDatabaseInfo "" []);
  match r with
  | inl err => mret ("", "", Some err)
  | inr (name, version) => mret (name, version, None)
  end.

(** One row of the constraint query, entered into
    [constraintMap map[string]map[string]interface{}]. *)
Definition record_constraint (constraintMap : gmap string (gmap string GoValue))
    (colName constraintType : string) (rTable rColumn : NullString)
    : gmap string (gmap string GoValue) :=
  let constraintMap :=
    match constraintMap !! colName with
    | None => <[colName := ∅]> constraintMap
    | Some _ => constraintMap
    end in
  let entry := default ∅ (constraintMap !! colName) in
  if String.eqb constraintType "P" then
    <[colName := <["PK" := VBool true]> entry]> constraintMap
  else if String.eqb constraintType "R" then
    let entry := <["FK" := VBool true]> entry in
    let entry :=
      if Valid rTable && Valid rColumn
      then <["FK_COLUMN" := VString (String_ rColumn)]>
             (<["FK_TABLE" := VString (String_ rTable)]> entry)
      else entry in
    <[colName := entry]> constraintMap
  else if String.eqb constraintType "U" then
    <[colName := <["UK" := VBool true]> entry]> constraintMap
  else constraintMap.

(** The body of the loop that applies the constraints to [columns[i]]. *)
Definition apply_constraints (constraintMap : gmap string (gmap string GoValue))
    (col : Column) : Column :=
  match constraintMap !! Column_Name col with
  | Some constraints =>
    let col :=
      match constraints !! "PK" with
      | Some _ => set_IsPrimaryKey col
      | None => col
      end in
    let col :=
      match constraints !! "FK" with
      | Some _ =>
        let col := set_IsForeignKey col in
        let col :=
          match constraints !! "FK_TABLE" with
          | Some (VString fkTable) => set_FKTargetTable fkTable col
          | _ => col
          end in
        match constraints !! "FK_COLUMN" with
        | Some (VString fkCol) => set_FKTargetColumn fkCol col
        | _ => col
        end
      | None => col
      end in
    match constraints !! "UK" with
    | Some _ => set_IsUnique col
    | None => col
    end
  | None => col
  end.

(** The source updates [columns] in place and returns an error; here the
    updated slice is returned with it. *)
Definition enrichColumnsWithConstraints (e : Extractor) (owner tableName : string)
    (columns : slice Column) : M (slice Column * option error) :=
  let query := mkQuery SelConstraints "" [owner; tableName] in
  res ← QueryContext (constraints (db e)) query;
  match res with
  | inl err => mret (columns, Some err)
  | inr rows =>
    '(constraintMap, err) ←
      for_rows query id
        (fun constraintMap '(colName, constraintType, rOwner, rTable, rColumn) =>
          mret (record_constraint constraintMap colName constraintType rTable rColumn,
                None))
        (delivered rows) ∅;
    match err with
    | Some err => mret (columns, Some err)
    | None =>
      let columns := update_each (apply_constraints constraintMap) columns in
      err ← Err query rows; mret (columns, err)
    end
  end.

Definition getColumnsForTable (e : Extractor) (owner tableName : string)
    : M (slice Column * option error) :=
  let query := mkQuery SelColumns "" [owner; tableName] in
  res ← QueryContext (columns (db e)) query;
  match res with
  | inl err => mret (nil_slice, Some err)
  | inr rows =>
    '(columns, err) ←
      for_rows query id
        (fun columns '(Name, Position, dataType, Length, Precision, Scale,
                       nullable, defaultVal, Comment, CharLength) =>
          mret (append columns
                  {| Column_Name := Name; Column_Position := Position;
                     Column_DataType :=
                       if Valid dataType then String_ dataType else "";
                     Column_Length := CharLength;
                     Column_Precision := Precision; Column_Scale := Scale;
                     Column_Nullable := String.eqb nullable "Y";
                     Column_DefaultValue :=
                       if Valid defaultVal
                       then strings.TrimSpace (String_ defaultVal) else "";
                     Column_Comment := Comment;
                     Column_IsPrimaryKey := false;
                     Column_IsForeignKey := false;
                     Column_IsUnique := false;
                     Column_FKTargetTable := "";
                     Column_FKTargetColumn := "";
                     Column_IsAutoIncrement := false;
                     Column_CharacterSet := ""; Column_Collation := "" |},
                None))
        (delivered rows) nil_slice;
    match err with
    | Some err => mret (nil_slice, Some err)
    | None =>
      '(columns, err) ← enrichColumnsWithConstraints e owner tableName columns;
      match err with
      | Some err => mret (nil_slice, Some err)
      | None => err ← Err query rows; mret (columns, err)
      end
    end
  end.

Definition getIndexColumns (e : Extractor) (owner indexName : string)
    : M (slice string * option error) :=
  let query := mkQuery SelIndexColumns "" [owner; indexName] in
  res ← QueryContext (indexColumns (db e)) query;
  match res with
  | inl err => mret (nil_slice, Some err)
  | inr rows =>
    '(columns, err) ←
      for_rows query id (fun columns col => mret (append columns col, None))
        (delivered rows) nil_slice;
    match err with
    | Some err => mret (nil_slice, Some err)
    | None => err ← Err query rows; mret (columns, err)
    end
  end.

Definition getIndexesForTable (e : Extractor) (owner tableName : string)
    : M (slice Index * option error) :=
  let query := mkQuery SelIndexes "" [owner; tableName] in
  res ← QueryContext (indexes (db e)) query;
  match res with
  | inl err => mret (nil_slice, Some err)
  | inr rows =>
    '(indexes, err) ←
      for_rows query id
        (fun indexes '(Name, Type_, uniqueness, Comment) =>
          '(Columns, err) ← getIndexColumns e owner Name;
          match err with
          | Some err => mret (indexes, Some err)
          | None =>
            mret (append indexes
                    {| Index_Name := Name; Index_TableName := tableName;
                       Index_Owner := owner; Index_Type := Type_;
                       Index_Columns := Columns;
                       Index_IsUnique := String.eqb uniqueness "UNIQUE";
                       Index_IsPrimary := false; Index_IsEnabled := true;
                       Index_Comment := Comment; Index_CreatedAt := "" |},
                  None)
          end)
        (delivered rows) nil_slice;
    match err with
    | Some err => mret (nil_slice, Some err)
    | None => err ← Err query rows; mret (indexes, err)
    end
  end.

Definition GetTables (e : Extractor) : M (slice Table * option error) :=
  let query :=
    mkQuery SelTables
      (filter_clause (schemaFilter e) placeholder " AND t.OWNER IN (%s)"
         +:+ " ORDER BY t.OWNER, t.TABLE_NAME")
      (elems (filter_args (schemaFilter e))) in
  res ← QueryContext (tables (db e)) query;
  match res with
  | inl err => mret (nil_slice, Some (fmt.Errorf "failed to query tables: %w" [] err))
  | inr rows =>
    '(tables, err) ←
      for_rows query (fmt.Errorf "failed to scan table row: %w" [])
        (fun tables '(Owner, Name, Type_, rowCount, Comment, createdAt, modifiedAt) =>
          '(Columns, err) ← getColumnsForTable e Owner Name;
          match err with
          | Some err =>
            mret (tables,
                  Some (fmt.Errorf "failed to get columns for %s.%s: %w"
                          [fmt.S_ Owner; fmt.S_ Name] err))
          | None =>
            '(Indexes, err) ← getIndexesForTable e Owner Name;
            match err with
            | Some err =>
              mret (tables,
                    Some (fmt.Errorf "failed to get indexes for %s.%s: %w"
                            [fmt.S_ Owner; fmt.S_ Name] err))
            | None =>
              mret (append tables
                      {| Table_Name := Name; Table_Owner := Owner;
                         Table_Type := Type_; Table_Comment := Comment;
                         Table_Columns := Columns; Table_Indexes := Indexes;
                         Table_RowCount :=
                           if ValidInt64 rowCount then Int64 rowCount else 0;
                         Table_CreatedAt :=
                           if Valid createdAt then String_ createdAt else "";
                         Table_ModifiedAt :=
                           if Valid modifiedAt then String_ modifiedAt else "" |},
                    None)
            end
          end)
        (delivered rows) nil_slice;
    match err with
    | Some err => mret (nil_slice, Some err)
    | None => err ← Err query rows; mret (tables, err)
    end
  end.

Definition GetViews (e : Extractor) : M (slice View * option error) :=
  let query :=
    mkQuery SelViews
      (filter_clause (schemaFilter e) placeholder " AND v.OWNER IN (%s)")
      (elems (filter_args (schemaFilter e))) in
  res ← QueryContext (views (db e)) query;
  match res with
  | inl err => mret (nil_slice, Some err)
  | inr rows =>
    '(views, err) ←
      for_rows query id
        (fun views '(Owner, Name, Type_, Comment, updatable) =>
          '(Columns, err) ← getColumnsForTable e Owner Name;
          match err with
          | Some err => mret (views, Some err)
          | None =>
            mret (append views
                    {| View_Name := Name; View_Owner := Owner; View_Type := Type_;
                       View_Comment := Comment; View_Columns := Columns;
                       View_IsUpdatable := String.eqb updatable "Y";
                       View_CreatedAt := ""; View_ModifiedAt := "" |},
                  None)
          end)
        (delivered rows) nil_slice;
    match err with
    | Some err => mret (nil_slice, Some err)
    | None => err ← Err query rows; mret (views, err)
    end
  end.

Definition getRoutineArguments (e : Extractor) (owner objectName : string)
    : M (slice RoutineArgument * option error) :=
  let query := mkQuery SelRoutineArguments "" [owner; objectName] in
  res ← QueryContext (routineArguments (db e)) query;
  match res with
  | inl err => mret (nil_slice, Some err)
  | inr rows =>
    '(args, err) ←
      for_rows query id
        (fun args '(Name, Position, Mode, DataType, defaultVal) =>
          mret (append args
                  {| Arg_Name := Name; Arg_Position := Position;
                     Arg_Mode := Mode; Arg_DataType := DataType;
                     Arg_DefaultValue :=
                       if Valid defaultVal then String_ defaultVal else "";
                     Arg_Comment := "" |},
                None))
        (delivered rows) nil_slice;
    match err with
    | Some err => mret (nil_slice, Some err)
    | None => err ← Err query rows; mret (args, err)
    end
  end.

Definition buildSignature (name : string) (args : slice RoutineArgument)
    (routineType : string) : string :=
  let argStrs :=
    assign_by_index
      (fun _ arg =>
         fmt.Sprintf "%s %s %s"
           [fmt.S_ (Arg_Name arg); fmt.S_ (Arg_Mode arg); fmt.S_ (Arg_DataType arg)])
      0 (elems args) (replicate (len args) "") in
  if String.eqb routineType "FUNCTION" then
    fmt.Sprintf "FUNCTION %s(%s) RETURN <type>"
      [fmt.S_ name; fmt.S_ (strings.Join argStrs ", ")]
  else
    fmt.Sprintf "PROCEDURE %s(%s)"
      [fmt.S_ name; fmt.S_ (strings.Join argStrs ", ")].

Definition GetRoutines (e : Extractor) : M (slice Routine * option error) :=
  let query :=
    mkQuery SelRoutines
      (filter_clause (schemaFilter e) placeholder " AND p.OWNER IN (%s)")
      (elems (filter_args (schemaFilter e))) in
  res ← QueryContext (routines (db e)) query;
  match res with
  | inl err => mret (nil_slice, Some err)
  | inr rows =>
    '(routines, err) ←
      for_rows query id
        (fun routines '(Owner, Name, procName, Type_, Comment) =>
          let Name :=
            if Valid procName && negb (String.eqb (String_ procName) "")
            then Name +:+ "." +:+ String_ procName else Name in
          '(Arguments, err) ← getRoutineArguments e Owner Name;
          match err with
          | Some err => mret (routines, Some err)
          | None =>
            mret (append routines
                    {| Routine_Name := Name; Routine_Owner := Owner;
                       Routine_Type := Type_; Routine_Comment := Comment;
                       Routine_Signature := buildSignature Name Arguments Type_;
                       Routine_Arguments := Arguments;
                       Routine_ReturnType := "";
                       Routine_Language := "PL/SQL";
                       Routine_IsDeterministic := false;
                       Routine_SecurityType := ""; Routine_CreatedAt := "";
                       Routine_ModifiedAt := "" |},
                  None)
          end)
        (delivered rows) nil_slice;
    match err with
    | Some err => mret (nil_slice, Some err)
    | None => err ← Err query rows; mret (routines, err)
    end
  end.

Definition GetSequences (e : Extractor) : M (slice Sequence * option error) :=
  let query :=
    mkQuery SelSequences
      (filter_clause (schemaFilter e) placeholder " AND SEQUENCE_OWNER IN (%s)")
      (elems (filter_args (schemaFilter e))) in
  res ← QueryContext (sequences (db e)) query;
  match res with
  | inl err => mret (nil_slice, Some err)
  | inr rows =>
    '(sequences, err) ←
      for_rows query id
        (fun sequences '(Owner, Name, MinValue, MaxValue, Increment, LastNumber,
                         CacheSize, cycleFlag, orderFlag) =>
          mret (append sequences
                  {| Sequence_Name := Name; Sequence_Owner := Owner;
                     Sequence_MinValue := MinValue; Sequence_MaxValue := MaxValue;
                     Sequence_Increment := Increment;
                     Sequence_LastNumber := LastNumber;
                     Sequence_CacheSize := CacheSize;
                     Sequence_IsCyclic := String.eqb cycleFlag "Y";
                     Sequence_IsOrdered := String.eqb orderFlag "Y";
                     Sequence_Comment := ""; Sequence_CreatedAt := "" |},
                None))
        (delivered rows) nil_slice;
    match err with
    | Some err => mret (nil_slice, Some err)
    | None => err ← Err query rows; mret (sequences, err)
    end
  end.

Definition GetTriggers (e : Extractor) : M (slice Trigger * option error) :=
  let query :=
    mkQuery SelTriggers
      (filter_clause (schemaFilter e) placeholder " AND OWNER IN (%s)")
      (elems (filter_args (schemaFilter e))) in
  res ← QueryContext (triggers (db e)) query;
  match res with
  | inl err => mret (nil_slice, Some err)
  | inr rows =>
    '(triggers, err) ←
      for_rows query id
        (fun triggers '(Owner, Name, tableOwner, TargetTable, triggerType, Event,
                        Status) =>
          let parts := strings.Fields triggerType in
          mret (append triggers
                  {| Trigger_Name := Name; Trigger_Owner := Owner;
                     Trigger_TargetTable := TargetTable;
                     Trigger_TargetType := "TABLE";
                     Trigger_Timing :=
                       match parts with
                       | part :: _ => part
                       | [] => ""
                       end;
                     Trigger_Event := Event;
                     Trigger_Level :=
                       if strings.Contains triggerType "EACH ROW"
                       then "ROW" else "STATEMENT";
                     Trigger_Status := Status; Trigger_Comment := "";
                     Trigger_CreatedAt := ""; Trigger_ModifiedAt := "" |},
                None))
        (delivered rows) nil_slice;
    match err with
    | Some err => mret (nil_slice, Some err)
    | None => err ← Err query rows; mret (triggers, err)
    end
  end.

Definition GetSynonyms (e : Extractor) : M (slice Synonym * option error) :=
  let query :=
    mkQuery SelSynonyms
      (filter_clause (schemaFilter e) placeholder " AND OWNER IN (%s)")
      (elems (filter_args (schemaFilter e))) in
  res ← QueryContext (synonyms (db e)) query;
  match res with
  | inl err => mret (nil_slice, Some err)
  | inr rows =>
    '(synonyms, err) ←
      for_rows query id
        (fun synonyms '(Owner, Name, TargetOwner, TargetObject, dbLink) =>
          mret (append synonyms
                  {| Synonym_Name := Name; Synonym_Owner := Owner;
                     Synonym_TargetObject := TargetObject;
                     Synonym_TargetOwner := TargetOwner;
                     Synonym_TargetType := "TABLE";
                     Synonym_IsPublic := String.eqb Owner "PUBLIC";
                     Synonym_Comment := ""; Synonym_CreatedAt := "" |},
                None))
        (delivered rows) nil_slice;
    match err with
    | Some err => mret (nil_slice, Some err)
    | None => err ← Err query rows; mret (synonyms, err)
    end
  end.

Definition ExtractSchema (e : Extractor) : M (option Schema * option error) :=
  ExtractedAt ← time_Now (clock (db e));
  '(DatabaseName, Version, err) ← GetDatabaseInfo e;
  match err with
  | Some err => mret (None, Some (fmt.Errorf "failed to get database info: %w" [] err))
  | None =>
  '(Tables, err) ← GetTables e;
  match err with
  | Some err => mret (None, Some (fmt.Errorf "failed to get tables: %w" [] err))
  | None =>
  '(Views, err) ← GetViews e;
  match err with
  | Some err => mret (None, Some (fmt.Errorf "failed to get views: %w" [] err))
  | None =>
  '(Routines, err) ← GetRoutines e;
  match err with
  | Some err => mret (None, Some (fmt.Errorf "failed to get routines: %w" [] err))
  | None =>
  '(Sequences, err) ← GetSequences e;
  match err with
  | Some err => mret (None, Some (fmt.Errorf "failed to get sequences: %w" [] err))
  | None =>
  '(Triggers, err) ← GetTriggers e;
  match err with
  | Some err => mret (None, Some (fmt.Errorf "failed to get triggers: %w" [] err))
  | None =>
  '(Synonyms, err) ← GetSynonyms e;
  match err with
  | Some err => mret (None, Some (fmt.Errorf "failed to get synonyms: %w" [] err))
  | None =>
    mret (Some {| Schema_DatabaseName := DatabaseName;
                  Schema_DatabaseType := "Oracle";
                  Schema_Version := Version;
                  Schema_ExtractedAt := ExtractedAt;
                  Schema_Comment := "";
                  Schema_Tables := Tables; Schema_Views := Views;
                  Schema_Routines := Routines; Schema_Sequences := Sequences;
                  Schema_Triggers := Triggers; Schema_Synonyms := Synonyms;
                  Schema_Indexes := collect_indexes Tables |},
          None)
  end end end end end end end.

End oracle.

(** ** SQL Server: package [mssql] *)

Module mssql.

Record Config : Type := mkConfig {
  Host : string;
  Port : Z;
  Database : string;
  Username : string;
  Password : string;
  Encrypt : string;
  SchemaFilter : slice string
}.

Record DB : Type := mkDB {
  databaseInfo : World -> Query -> error + (string * string);
  tables : World -> Query ->
    error + Rows (string * string * string * string * NullInt64 * NullTime * NullTime);
  columns : World -> Query ->
    error + Rows (Z * string * string * Z * Z * Z * bool * string * string * bool
                  * bool * bool * bool);
  foreignKeyTarget : World -> Query -> error + (NullString * NullString);
  indexes : World -> Query -> error + Rows (string * string * bool * bool * string);
  indexColumns : World -> Query -> error + Rows string;
  views : World -> Query -> error + Rows (string * string * string * Z);
  viewColumns : World -> Query -> error + Rows (Z * string * string * string);
  routines : World -> Query -> error + Rows (string * string * string * string);
  routineParameters : World -> Query -> error + Rows (string * Z * string * string);
  sequences : World -> Query ->
    error + Rows (string * string * Z * Z * Z * Z * bool * string);
  triggers : World -> Query ->
    error + Rows (string * string * string * string * string * string * string);
  synonyms : World -> Query -> error + Rows (string * string * string * string);
  clock : World -> Time
}.

Record Extractor : Type := mkExtractor {
  db : DB;
  config : Config;
  schemaFilter : slice string
}.

(** [sql_Open] is [sql.Open("sqlserver", connStr)]. *)
Definition NewExtractor (sql_Open : string -> string -> DB + error) (cfg : Config)
    : option Extractor * option error :=
  let connStr :=
    fmt.Sprintf "sqlserver://%s:%s@%s:%d?database=%s&encrypt=%s"
      [fmt.S_ (Username cfg); fmt.S_ (Password cfg); fmt.S_ (Host cfg);
       fmt.D_ (Port cfg); fmt.S_ (Database cfg); fmt.S_ (Encrypt cfg)] in
  match sql_Open "sqlserver" connStr with
  | inr err =>
    (None, Some (fmt.Errorf "failed to open mssql connection: %w" [] err))
  | inl db =>
    let schemas := SchemaFilter cfg in
    let schemas :=
      if (len schemas =? 0)%nat then mk_slice ["dbo"] else schemas in
    (Some (mkExtractor db cfg schemas), None)
  end.

Definition placeholder (i : nat) : string :=
  fmt.Sprintf "@p%d" [fmt.D_ (Z.of_nat i + 1)].

Definition GetDatabaseInfo (e : Extractor) : M (string * string * option error) :=
  r ← QueryRowScan (databaseInfo (db e)) (mkQuery SelDatabaseInfo "" []);
  match r with
  | inl err => mret ("", "", Some err)
  | inr (name, version) => mret (name, version, None)
  end.

Definition getForeignKeyTarget (e : Extractor) (schema table column : string)
    : M (option (gmap string string) * option error) :=
  r ← QueryRowScan (foreignKeyTarget (db e))
        (mkQuery SelForeignKeyTarget "" [schema; table; column]);
  match r with
  | inl err => mret (None, Some err)
  | inr (refTable, refColumn) =>
    if Valid refTable && Valid refColumn
    then mret (Some (<["column" := String_ refColumn]>
                      (<["table" := String_ refTable]> ∅)), None)
    else mret (None, None)
  end.

Definition getColumnsForTable (e : Extractor) (schema tableName : string)
    : M (slice Column * option error) :=
  let query := mkQuery SelColumns "" [schema; tableName] in
  res ← QueryContext (columns (db e)) query;
  match res with
  | inl err => mret (nil_slice, Some err)
  | inr rows =>
    '(columns, err) ←
      for_rows query id
        (fun columns '(Position, Name, DataType, Length, Precision, Scale,
                       isNullable, DefaultValue, Comment, isIdentity, isPrimary,
                       isForeign, isUnique) =>
          '(FKTargetTable, FKTargetColumn) ←
            (if isForeign then
               '(fkInfo, err) ← getForeignKeyTarget e schema tableName Name;
               match err, fkInfo with
               | None, Some fkInfo =>
                 mret (default "" (fkInfo !! "table"), default "" (fkInfo !! "column"))
               | _, _ => mret ("", "")
               end
             else mret ("", ""));
          mret (append columns
                  {| Column_Name := Name; Column_Position := Position;
                     Column_DataType := DataType; Column_Length := Length;
                     Column_Precision := Precision; Column_Scale := Scale;
                     Column_Nullable := isNullable;
                     Column_DefaultValue := DefaultValue;
                     Column_Comment := Comment;
                     Column_IsPrimaryKey := isPrimary;
                     Column_IsForeignKey := isForeign;
                     Column_IsUnique := isUnique;
                     Column_FKTargetTable := FKTargetTable;
                     Column_FKTargetColumn := FKTargetColumn;
                     Column_IsAutoIncrement := isIdentity;
                     Column_CharacterSet := ""; Column_Collation := "" |},
                None))
        (delivered rows) nil_slice;
    match err with
    | Some err => mret (nil_slice, Some err)
    | None => err ← Err query rows; mret (columns, err)
    end
  end.

Definition getIndexColumns (e : Extractor) (schema table indexName : string)
    : M (slice string * option error) :=
  let query := mkQuery SelIndexColumns "" [schema; table; indexName] in
  res ← QueryContext (indexColumns (db e)) query;
  match res with
  | inl err => mret (nil_slice, Some err)
  | inr rows =>
    '(columns, err) ←
      for_rows query id (fun columns col => mret (append columns col, None))
        (delivered rows) nil_slice;
    match err with
    | Some err => mret (nil_slice, Some err)
    | None => err ← Err query rows; mret (columns, err)
    end
  end.

Definition getIndexesForTable (e : Extractor) (schema tableName : string)
    : M (slice Index * option error) :=
  let query := mkQuery SelIndexes "" [schema; tableName] in
  res ← QueryContext (indexes (db e)) query;
  match res with
  | inl err => mret (nil_slice, Some err)
  | inr rows =>
    '(indexes, err) ←
      for_rows query id
        (fun indexes '(Name, Type_, isUnique, isPrimary, Comment) =>
          '(Columns, err) ← getIndexColumns e schema tableName Name;
          match err with
          | Some err => mret (indexes, Some err)
          | None =>
            mret (append indexes
                    {| Index_Name := Name; Index_TableName := tableName;
                       Index_Owner := schema; Index_Type := Type_;
                       Index_Columns := Columns; Index_IsUnique := isUnique;
                       Index_IsPrimary := isPrimary; Index_IsEnabled := true;
                       Index_Comment := Comment; Index_CreatedAt := "" |},
                  None)
          end)
        (delivered rows) nil_slice;
    match err with
    | Some err => mret (nil_slice, Some err)
    | None => err ← Err query rows; mret (indexes, err)
    end
  end.

Definition GetTables (e : Extractor) : M (slice Table * option error) :=
  let query :=
    mkQuery SelTables
      (filter_clause (schemaFilter e) placeholder " AND s.name IN (%s)"
         +:+ " ORDER BY s.name, t.name")
      (elems (filter_args (schemaFilter e))) in
  res ← QueryContext (tables (db e)) query;
  match res with
  | inl err => mret (nil_slice, Some (fmt.Errorf "failed to query tables: %w" [] err))
  | inr rows =>
    '(tables, err) ←
      for_rows query id
        (fun tables '(Owner, Name, Type_, Comment, rowCount, createDate, modifyDate) =>
          '(Columns, err) ← getColumnsForTable e Owner Name;
          match err with
          | Some err => mret (tables, Some err)
          | None =>
            '(Indexes, err) ← getIndexesForTable e Owner Name;
            match err with
            | Some err => mret (tables, Some err)
            | None =>
              mret (append tables
                      {| Table_Name := Name; Table_Owner := Owner;
                         Table_Type := Type_; Table_Comment := Comment;
                         Table_Columns := Columns; Table_Indexes := Indexes;
                         Table_RowCount :=
                           if ValidInt64 rowCount then Int64 rowCount else 0;
                         Table_CreatedAt :=
                           if ValidTime createDate
                           then Format_datetime (Time_ createDate) else "";
                         Table_ModifiedAt :=
                           if ValidTime modifyDate
                           then Format_datetime (Time_ modifyDate) else "" |},
                    None)
            end
          end)
        (delivered rows) nil_slice;
    match err with
    | Some err => mret (nil_slice, Some err)
    | None => err ← Err query rows; mret (tables, err)
    end
  end.

Definition getColumnsForView (e : Extractor) (schema viewName : string)
    : M (slice Column * option error) :=
  let query := mkQuery SelViewColumns "" [schema; viewName] in
  res ← QueryContext (viewColumns (db e)) query;
  match res with
  | inl err => mret (nil_slice, Some err)
  | inr rows =>
    '(columns, err) ←
      for_rows query id
        (fun columns '(Position, Name, DataType, Comment) =>
          mret (append columns
                  {| Column_Name := Name; Column_Position := Position;
                     Column_DataType := DataType; Column_Length := 0;
                     Column_Precision := 0; Column_Scale := 0;
                     Column_Nullable := false; Column_DefaultValue := "";
                     Column_Comment := Comment;
                     Column_IsPrimaryKey := false;
                     Column_IsForeignKey := false;
                     Column_IsUnique := false;
                     Column_FKTargetTable := "";
                     Column_FKTargetColumn := "";
                     Column_IsAutoIncrement := false;
                     Column_CharacterSet := ""; Column_Collation := "" |},
                None))
        (delivered rows) nil_slice;
    match err with
    | Some err => mret (nil_slice, Some err)
    | None => err ← Err query rows; mret (columns, err)
    end
  end.

Definition GetViews (e : Extractor) : M (slice View * option error) :=
  let query :=
    mkQuery SelViews
      (filter_clause (schemaFilter e) placeholder " AND s.name IN (%s)")
      (elems (filter_args (schemaFilter e))) in
  res ← QueryContext (views (db e)) query;
  match res with
  | inl err => mret (nil_slice, Some err)
  | inr rows =>
    '(views, err) ←
      for_rows query id
        (fun views '(Owner, Name, Comment, isUpdatable) =>
          '(Columns, err) ← getColumnsForView e Owner Name;
          match err with
          | Some err => mret (views, Some err)
          | None =>
            mret (append views
                    {| View_Name := Name; View_Owner := Owner; View_Type := "VIEW";
                       View_Comment := Comment; View_Columns := Columns;
                       View_IsUpdatable := (isUpdatable =? 1);
                       View_CreatedAt := ""; View_ModifiedAt := "" |},
                  None)
          end)
        (delivered rows) nil_slice;
    match err with
    | Some err => mret (nil_slice, Some err)
    | None => err ← Err query rows; mret (views, err)
    end
  end.

Definition getRoutineParameters (e : Extractor) (schema routineName : string)
    : M (slice RoutineArgument * option error) :=
  let query := mkQuery SelRoutineArguments "" [schema; routineName] in
  res ← QueryContext (routineParameters (db e)) query;
  match res with
  | inl err => mret (nil_slice, Some err)
  | inr rows =>
    '(args, err) ←
      for_rows query id
        (fun args '(Name, Position, Mode, DataType) =>
          mret (append args
                  {| Arg_Name := Name; Arg_Position := Position;
                     Arg_Mode := Mode; Arg_DataType := DataType;
                     Arg_DefaultValue := ""; Arg_Comment := "" |},
                None))
        (delivered rows) nil_slice;
    match err with
    | Some err => mret (nil_slice, Some err)
    | None => err ← Err query rows; mret (args, err)
    end
  end.

Definition buildSignature (name : string) (args : slice RoutineArgument)
    (routineType : string) : string :=
  let argStrs :=
    assign_by_index
      (fun _ arg =>
         fmt.Sprintf "%s %s %s"
           [fmt.S_ (Arg_Name arg); fmt.S_ (Arg_Mode arg); fmt.S_ (Arg_DataType arg)])
      0 (elems args) (replicate (len args) "") in
  fmt.Sprintf "%s %s(%s)"
    [fmt.S_ routineType; fmt.S_ name; fmt.S_ (strings.Join argStrs ", ")].

Definition GetRoutines (e : Extractor) : M (slice Routine * option error) :=
  let query :=
    mkQuery SelRoutines
      (filter_clause (schemaFilter e) placeholder " AND s.name IN (%s)")
      (elems (filter_args (schemaFilter e))) in
  res ← QueryContext (routines (db e)) query;
  match res with
  | inl err => mret (nil_slice, Some err)
  | inr rows =>
    '(routines, err) ←
      for_rows query id
        (fun routines '(Owner, Name, Type_, Comment) =>
          '(Arguments, err) ← getRoutineParameters e Owner Name;
          match err with
          | Some err => mret (routines, Some err)
          | None =>
            mret (append routines
                    {| Routine_Name := Name; Routine_Owner := Owner;
                       Routine_Type := Type_; Routine_Comment := Comment;
                       Routine_Signature := buildSignature Name Arguments Type_;
                       Routine_Arguments := Arguments;
                       Routine_ReturnType := "";
                       Routine_Language := "T-SQL";
                       Routine_IsDeterministic := false;
                       Routine_SecurityType := ""; Routine_CreatedAt := "";
                       Routine_ModifiedAt := "" |},
                  None)
          end)
        (delivered rows) nil_slice;
    match err with
    | Some err => mret (nil_slice, Some err)
    | None => err ← Err query rows; mret (routines, err)
    end
  end.

Definition GetSequences (e : Extractor) : M (slice Sequence * option error) :=
  let query :=
    mkQuery SelSequences
      (filter_clause (schemaFilter e) placeholder " AND s.name IN (%s)")
      (elems (filter_args (schemaFilter e))) in
  res ← QueryContext (sequences (db e)) query;
  match res with
  | inl err => mret (nil_slice, Some err)
  | inr rows =>
    '(sequences, err) ←
      for_rows query id
        (fun sequences '(Owner, Name, MinValue, MaxValue, Increment, LastNumber,
                         isCycling, Comment) =>
          mret (append sequences
                  {| Sequence_Name := Name; Sequence_Owner := Owner;
                     Sequence_MinValue := MinValue; Sequence_MaxValue := MaxValue;
                     Sequence_Increment := Increment;
                     Sequence_LastNumber := LastNumber; Sequence_CacheSize := 0;
                     Sequence_IsCyclic := isCycling; Sequence_IsOrdered := false;
                     Sequence_Comment := Comment; Sequence_CreatedAt := "" |},
                None))
        (delivered rows) nil_slice;
    match err with
    | Some err => mret (nil_slice, Some err)
    | None => err ← Err query rows; mret (sequences, err)
    end
  end.

Definition GetTriggers (e : Extractor) : M (slice Trigger * option error) :=
  let query :=
    mkQuery SelTriggers
      (filter_clause (schemaFilter e) placeholder " AND s.name IN (%s)")
      (elems (filter_args (schemaFilter e))) in
  res ← QueryContext (triggers (db e)) query;
  match res with
  | inl err => mret (nil_slice, Some err)
  | inr rows =>
    '(triggers, err) ←
      for_rows query id
        (fun triggers '(Owner, Name, TargetTable, Event, Timing, Status, Comment) =>
          mret (append triggers
                  {| Trigger_Name := Name; Trigger_Owner := Owner;
                     Trigger_TargetTable := TargetTable;
                     Trigger_TargetType := "TABLE"; Trigger_Timing := Timing;
                     Trigger_Event := Event; Trigger_Level := "ROW";
                     Trigger_Status := Status; Trigger_Comment := Comment;
                     Trigger_CreatedAt := ""; Trigger_ModifiedAt := "" |},
                None))
        (delivered rows) nil_slice;
    match err with
    | Some err => mret (nil_slice, Some err)
    | None => err ← Err query rows; mret (triggers, err)
    end
  end.

Definition GetSynonyms (e : Extractor) : M (slice Synonym * option error) :=
  let query :=
    mkQuery SelSynonyms
      (filter_clause (schemaFilter e) placeholder " AND s.name IN (%s)")
      (elems (filter_args (schemaFilter e))) in
  res ← QueryContext (synonyms (db e)) query;
  match res with
  | inl err => mret (nil_slice, Some err)
  | inr rows =>
    '(synonyms, err) ←
      for_rows query id
        (fun synonyms '(Owner, Name, TargetObject, Comment) =>
          let parts := strings.Split TargetObject "." in
          let '(TargetOwner, TargetObject) :=
            match parts with
            | part0 :: part1 :: _ => (part0, part1)
            | _ => ("", TargetObject)
            end in
          mret (append synonyms
                  {| Synonym_Name := Name; Synonym_Owner := Owner;
                     Synonym_TargetObject := TargetObject;
                     Synonym_TargetOwner := TargetOwner;
                     Synonym_TargetType := "TABLE";
                     Synonym_IsPublic := false;
                     Synonym_Comment := Comment; Synonym_CreatedAt := "" |},
                None))
        (delivered rows) nil_slice;
    match err with
    | Some err => mret (nil_slice, Some err)
    | None => err ← Err query rows; mret (synonyms, err)
    end
  end.

Definition ExtractSchema (e : Extractor) : M (option Schema * option error) :=
  ExtractedAt ← time_Now (clock (db e));
  '(DatabaseName, Version, err) ← GetDatabaseInfo e;
  match err with
  | Some err => mret (None, Some err)
  | None =>
  '(Tables, err) ← GetTables e;
  match err with
  | Some err => mret (None, Some err)
  | None =>
  '(Views, err) ← GetViews e;
  match err with
  | Some err => mret (None, Some err)
  | None =>
  '(Routines, err) ← GetRoutines e;
  match err with
  | Some err => mret (None, Some err)
  | None =>
  '(Sequences, err) ← GetSequences e;
  match err with
  | Some err => mret (None, Some err)
  | None =>
  '(Triggers, err) ← GetTriggers e;
  match err with
  | Some err => mret (None, Some err)
  | None =>
  '(Synonyms, err) ← GetSynonyms e;
  match err with
  | Some err => mret (None, Some err)
  | None =>
    mret (Some {| Schema_DatabaseName := DatabaseName;
                  Schema_DatabaseType := "MSSQL";
                  Schema_Version := Version;
                  Schema_ExtractedAt := ExtractedAt;
                  Schema_Comment := "";
                  Schema_Tables := Tables; Schema_Views := Views;
                  Schema_Routines := Routines; Schema_Sequences := Sequences;
                  Schema_Triggers := Triggers; Schema_Synonyms := Synonyms;
                  Schema_Indexes := collect_indexes Tables |},
          None)
  end end end end end end end.

End mssql.

(** ** MySQL: package [mysql] *)

Module mysql.

Record Config : Type := mkConfig {
  Host : string;
  Port : Z;
  Database : string;
  Username : string;
  Password : string;
  SchemaFilter : slice string
}.

Record DB : Type := mkDB {
  databaseInfo : World -> Query -> error + (string * string);
  tables : World -> Query ->
    error + Rows (string * string * NullString * NullInt64 * string * NullTime * NullTime);
  columns : World -> Query ->
    error + Rows (string * Z * string * Z * Z * Z * string * string * string
                  * string * string);
  foreignKeyTarget : World -> Query -> error + (NullString * NullString);
  indexes : World -> Query -> error + Rows (string * string * Z);
  indexColumns : World -> Query -> error + Rows string;
  views : World -> Query -> error + Rows (string * string * string * string);
  routines : World -> Query ->
    error + Rows (string * string * string * string * string);
  routineParameters : World -> Query -> error + Rows (string * Z * string * string);
  triggers : World -> Query ->
    error + Rows (string * string * string * string * string * string * string);
  clock : World -> Time
}.

Record Extractor : Type := mkExtractor {
  db : DB;
  config : Config;
  schemaFilter : slice string
}.

(** [sql_Open] is [sql.Open("mysql", dsn)]. *)
Definition NewExtractor (sql_Open : string -> string -> DB + error) (cfg : Config)
    : option Extractor * option error :=
  let dsn :=
    fmt.Sprintf "%s:%s@tcp(%s:%d)/%s?parseTime=true"
      [fmt.S_ (Username cfg); fmt.S_ (Password cfg); fmt.S_ (Host cfg);
       fmt.D_ (Port cfg); fmt.S_ (Database cfg)] in
  match sql_Open "mysql" dsn with
  | inr err =>
    (None, Some (fmt.Errorf "failed to open mysql connection: %w" [] err))
  | inl db =>
    let schemas := SchemaFilter cfg in
    let schemas :=
      if (len schemas =? 0)%nat then mk_slice [Database cfg] else schemas in
    (Some (mkExtractor db cfg schemas), None)
  end.

Definition placeholder (i : nat) : string := "?".

Definition GetDatabaseInfo (e : Extractor) : M (string * string * option error) :=
  r ← QueryRowScan (databaseInfo (db e)) (mkQuery SelDatabaseInfo "" []);
  match r with
  | inl err => mret ("", "", Some err)
  | inr (name, version) => mret (name, version, None)
  end.

Definition getForeignKeyTarget (e : Extractor) (schema table column : string)
    : M (option (gmap string string) * option error) :=
  r ← QueryRowScan (foreignKeyTarget (db e))
        (mkQuery SelForeignKeyTarget "" [schema; table; column]);
  match r with
  | inl err => mret (None, Some err)
  | inr (refTable, refColumn) =>
    if Valid refTable && Valid refColumn
    then mret (Some (<["column" := String_ refColumn]>
                      (<["table" := String_ refTable]> ∅)), None)
    else mret (None, None)
  end.

Definition getColumnsForTable (e : Extractor) (schema tableName : string)
    : M (slice Column * option error) :=
  let query := mkQuery SelColumns "" [schema; tableName] in
  res ← QueryContext (columns (db e)) query;
  match res with
  | inl err => mret (nil_slice, Some err)
  | inr rows =>
    '(columns, err) ←
      for_rows query id
        (fun columns '(Name, Position, DataType, Length, Precision, Scale,
                       nullable, DefaultValue, Comment, columnKey, extra) =>
          let IsForeignKey :=
            String.eqb columnKey "MUL" || String.eqb columnKey "FOR" in
          '(FKTargetTable, FKTargetColumn) ←
            (if IsForeignKey then
               '(fkInfo, err) ← getForeignKeyTarget e schema tableName Name;
               match err, fkInfo with
               | None, Some fkInfo =>
                 mret (default "" (fkInfo !! "table"), default "" (fkInfo !! "column"))
               | _, _ => mret ("", "")
               end
             else mret ("", ""));
          mret (append columns
                  {| Column_Name := Name; Column_Position := Position;
                     Column_DataType := DataType; Column_Length := Length;
                     Column_Precision := Precision; Column_Scale := Scale;
                     Column_Nullable := String.eqb nullable "YES";
                     Column_DefaultValue := DefaultValue;
                     Column_Comment := Comment;
                     Column_IsPrimaryKey := String.eqb columnKey "PRI";
                     Column_IsForeignKey := IsForeignKey;
                     Column_IsUnique := String.eqb columnKey "UNI";
                     Column_FKTargetTable := FKTargetTable;
                     Column_FKTargetColumn := FKTargetColumn;
                     Column_IsAutoIncrement :=
                       strings.Contains extra "auto_increment";
                     Column_CharacterSet := ""; Column_Collation := "" |},
                None))
        (delivered rows) nil_slice;
    match err with
    | Some err => mret (nil_slice, Some err)
    | None => err ← Err query rows; mret (columns, err)
    end
  end.

Definition getIndexColumns (e : Extractor) (schema table indexName : string)
    : M (slice string * option error) :=
  let query := mkQuery SelIndexColumns "" [schema; table; indexName] in
  res ← QueryContext (indexColumns (db e)) query;
  match res with
  | inl err => mret (nil_slice, Some err)
  | inr rows =>
    '(columns, err) ←
      for_rows query id (fun columns col => mret (append columns col, None))
        (delivered rows) nil_slice;
    match err with
    | Some err => mret (nil_slice, Some err)
    | None => err ← Err query rows; mret (columns, err)
    end
  end.

Definition getIndexesForTable (e : Extractor) (schema tableName : string)
    : M (slice Index * option error) :=
  let query := mkQuery SelIndexes "" [schema; tableName] in
  res ← QueryContext (indexes (db e)) query;
  match res with
  | inl err => mret (nil_slice, Some err)
  | inr rows =>
    '(indexes, err) ←
      for_rows query id
        (fun indexes '(Name, Type_, nonUnique) =>
          '(Columns, err) ← getIndexColumns e schema tableName Name;
          match err with
          | Some err => mret (indexes, Some err)
          | None =>
            mret (append indexes
                    {| Index_Name := Name; Index_TableName := tableName;
                       Index_Owner := schema; Index_Type := Type_;
                       Index_Columns := Columns;
                       Index_IsUnique := (nonUnique =? 0);
                       Index_IsPrimary := String.eqb Name "PRIMARY";
                       Index_IsEnabled := true;
                       Index_Comment := ""; Index_CreatedAt := "" |},
                  None)
          end)
        (delivered rows) nil_slice;
    match err with
    | Some err => mret (nil_slice, Some err)
    | None => err ← Err query rows; mret (indexes, err)
    end
  end.

Definition GetTables (e : Extractor) : M (slice Table * option error) :=
  let query :=
    mkQuery SelTables
      (filter_clause (schemaFilter e) placeholder " AND TABLE_SCHEMA IN (%s)"
         +:+ " ORDER BY TABLE_SCHEMA, TABLE_NAME")
      (elems (filter_args (schemaFilter e))) in
  res ← QueryContext (tables (db e)) query;
  match res with
  | inl err => mret (nil_slice, Some (fmt.Errorf "failed to query tables: %w" [] err))
  | inr rows =>
    '(tables, err) ←
      for_rows query id
        (fun tables '(Owner, Name, engine, rowCount, Comment, createTime, updateTime) =>
          '(Columns, err) ← getColumnsForTable e Owner Name;
          match err with
          | Some err => mret (tables, Some err)
          | None =>
            '(Indexes, err) ← getIndexesForTable e Owner Name;
            match err with
            | Some err => mret (tables, Some err)
            | None =>
              mret (append tables
                      {| Table_Name := Name; Table_Owner := Owner;
                         Table_Type := if Valid engine then String_ engine else "";
                         Table_Comment := Comment;
                         Table_Columns := Columns; Table_Indexes := Indexes;
                         Table_RowCount :=
                           if ValidInt64 rowCount then Int64 rowCount else 0;
                         Table_CreatedAt :=
                           if ValidTime createTime
                           then Format_datetime (Time_ createTime) else "";
                         Table_ModifiedAt :=
                           if ValidTime updateTime
                           then Format_datetime (Time_ updateTime) else "" |},
                    None)
            end
          end)
        (delivered rows) nil_slice;
    match err with
    | Some err => mret (nil_slice, Some err)
    | None => err ← Err query rows; mret (tables, err)
    end
  end.

Definition GetViews (e : Extractor) : M (slice View * option error) :=
  let query :=
    mkQuery SelViews
      (filter_clause (schemaFilter e) placeholder " AND TABLE_SCHEMA IN (%s)")
      (elems (filter_args (schemaFilter e))) in
  res ← QueryContext (views (db e)) query;
  match res with
  | inl err => mret (nil_slice, Some err)
  | inr rows =>
    '(views, err) ←
      for_rows query id
        (fun views '(Owner, Name, Comment, updatable) =>
          '(Columns, err) ← getColumnsForTable e Owner Name;
          match err with
          | Some err => mret (views, Some err)
          | None =>
            mret (append views
                    {| View_Name := Name; View_Owner := Owner; View_Type := "VIEW";
                       View_Comment := Comment; View_Columns := Columns;
                       View_IsUpdatable := String.eqb updatable "YES";
                       View_CreatedAt := ""; View_ModifiedAt := "" |},
                  None)
          end)
        (delivered rows) nil_slice;
    match err with
    | Some err => mret (nil_slice, Some err)
    | None => err ← Err query rows; mret (views, err)
    end
  end.

Definition getRoutineParameters (e : Extractor) (schema routineName : string)
    : M (slice RoutineArgument * option error) :=
  let query := mkQuery SelRoutineArguments "" [schema; routineName] in
  res ← QueryContext (routineParameters (db e)) query;
  match res with
  | inl err => mret (nil_slice, Some err)
  | inr rows =>
    '(args, err) ←
      for_rows query id
        (fun args '(Name, Position, Mode, DataType) =>
          mret (append args
                  {| Arg_Name := Name; Arg_Position := Position;
                     Arg_Mode := Mode; Arg_DataType := DataType;
                     Arg_DefaultValue := ""; Arg_Comment := "" |},
                None))
        (delivered rows) nil_slice;
    match err with
    | Some err => mret (nil_slice, Some err)
    | None => err ← Err query rows; mret (args, err)
    end
  end.

Definition buildSignature (name : string) (args : slice RoutineArgument)
    (routineType : string) : string :=
  let argStrs :=
    assign_by_index
      (fun _ arg =>
         fmt.Sprintf "%s %s %s"
           [fmt.S_ (Arg_Mode arg); fmt.S_ (Arg_Name arg); fmt.S_ (Arg_DataType arg)])
      0 (elems args) (replicate (len args) "") in
  fmt.Sprintf "%s %s(%s)"
    [fmt.S_ routineType; fmt.S_ name; fmt.S_ (strings.Join argStrs ", ")].

Definition GetRoutines (e : Extractor) : M (slice Routine * option error) :=
  let query :=
    mkQuery SelRoutines
      (filter_clause (schemaFilter e) placeholder " AND ROUTINE_SCHEMA IN (%s)")
      (elems (filter_args (schemaFilter e))) in
  res ← QueryContext (routines (db e)) query;
  match res with
  | inl err => mret (nil_slice, Some err)
  | inr rows =>
    '(routines, err) ←
      for_rows query id
        (fun routines '(Owner, Name, Type_, Comment, returnType) =>
          '(Arguments, err) ← getRoutineParameters e Owner Name;
          match err with
          | Some err => mret (routines, Some err)
          | None =>
            mret (append routines
                    {| Routine_Name := Name; Routine_Owner := Owner;
                       Routine_Type := Type_; Routine_Comment := Comment;
                       Routine_Signature := buildSignature Name Arguments Type_;
                       Routine_Arguments := Arguments;
                       Routine_ReturnType :=
                         if String.eqb Type_ "FUNCTION" then returnType else "";
                       Routine_Language := "SQL";
                       Routine_IsDeterministic := false;
                       Routine_SecurityType := ""; Routine_CreatedAt := "";
                       Routine_ModifiedAt := "" |},
                  None)
          end)
        (delivered rows) nil_slice;
    match err with
    | Some err => mret (nil_slice, Some err)
    | None => err ← Err query rows; mret (routines, err)
    end
  end.

(** MySQL has no sequences. *)
Definition GetSequences (e : Extractor) : M (slice Sequence * option error) :=
  mret (mk_slice [], None).

Definition GetTriggers (e : Extractor) : M (slice Trigger * option error) :=
  let query :=
    mkQuery SelTriggers
      (filter_clause (schemaFilter e) placeholder " AND TRIGGER_SCHEMA IN (%s)")
      (elems (filter_args (schemaFilter e))) in
  res ← QueryContext (triggers (db e)) query;
  match res with
  | inl err => mret (nil_slice, Some err)
  | inr rows =>
    '(triggers, err) ←
      for_rows query id
        (fun triggers '(Owner, Name, objectSchema, TargetTable, Timing, Event,
                        Status) =>
          mret (append triggers
                  {| Trigger_Name := Name; Trigger_Owner := Owner;
                     Trigger_TargetTable := TargetTable;
                     Trigger_TargetType := "TABLE"; Trigger_Timing := Timing;
                     Trigger_Event := Event; Trigger_Level := "ROW";
                     Trigger_Status := Status; Trigger_Comment := "";
                     Trigger_CreatedAt := ""; Trigger_ModifiedAt := "" |},
                None))
        (delivered rows) nil_slice;
    match err with
    | Some err => mret (nil_slice, Some err)
    | None => err ← Err query rows; mret (triggers, err)
    end
  end.

(** MySQL has no synonyms. *)
Definition GetSynonyms (e : Extractor) : M (slice Synonym * option error) :=
  mret (mk_slice [], None).

Definition ExtractSchema (e : Extractor) : M (option Schema * option error) :=
  ExtractedAt ← time_Now (clock (db e));
  '(DatabaseName, Version, err) ← GetDatabaseInfo e;
  match err with
  | Some err => mret (None, Some err)
  | None =>
  '(Tables, err) ← GetTables e;
  match err with
  | Some err => mret (None, Some err)
  | None =>
  '(Views, err) ← GetViews e;
  match err with
  | Some err => mret (None, Some err)
  | None =>
  '(Routines, err) ← GetRoutines e;
  match err with
  | Some err => mret (None, Some err)
  | None =>
  '(Sequences, err) ← GetSequences e;
  match err with
  | Some err => mret (None, Some err)
  | None =>
  '(Triggers, err) ← GetTriggers e;
  match err with
  | Some err => mret (None, Some err)
  | None =>
  '(Synonyms, err) ← GetSynonyms e;
  match err with
  | Some err => mret (None, Some err)
  | None =>
    mret (Some {| Schema_DatabaseName := DatabaseName;
                  Schema_DatabaseType := "MySQL";
                  Schema_Version := Version;
                  Schema_ExtractedAt := ExtractedAt;
                  Schema_Comment := "";
                  Schema_Tables := Tables; Schema_Views := Views;
                  Schema_Routines := Routines; Schema_Sequences := Sequences;
                  Schema_Triggers := Triggers; Schema_Synonyms := Synonyms;
                  Schema_Indexes := collect_indexes Tables |},
          None)
  end end end end end end end.

End mysql.

(** ** The extractor interface and the orchestration the specification words *)

Module extractor.

(** [DBExtractor]: the method set every dialect implements ([Connect] and
    [Close] manage the connection and are outside the embedding). *)
Record DBExtractor : Type := mkDBExtractor {
  GetDatabaseInfo : M (string * string * option error);
  GetTables : M (slice Table * option error);
  GetViews : M (slice View * option error);
  GetRoutines : M (slice Routine * option error);
  GetSequences : M (slice Sequence * option error);
  GetTriggers : M (slice Trigger * option error);
  GetSynonyms : M (slice Synonym * option error);
  ExtractSchema : M (option Schema * option error)
}.

(** The four implementations of the interface. *)
Inductive Adapter : Type :=
| Oracle (e : oracle.Extractor)
| MySQL (e : mysql.Extractor)
| PostgreSQL (e : postgres.Extractor)
| MSSQL (e : mssql.Extractor).

Definition methods (a : Adapter) : DBExtractor :=
  match a with
  | Oracle e =>
    mkDBExtractor (oracle.GetDatabaseInfo e) (oracle.GetTables e)
      (oracle.GetViews e) (oracle.GetRoutines e) (oracle.GetSequences e)
      (oracle.GetTriggers e) (oracle.GetSynonyms e) (oracle.ExtractSchema e)
  | MySQL e =>
    mkDBExtractor (mysql.GetDatabaseInfo e) (mysql.GetTables e)
      (mysql.GetViews e) (mysql.GetRoutines e) (mysql.GetSequences e)
      (mysql.GetTriggers e) (mysql.GetSynonyms e) (mysql.ExtractSchema e)
  | PostgreSQL e =>
    mkDBExtractor (postgres.GetDatabaseInfo e) (postgres.GetTables e)
      (postgres.GetViews e) (postgres.GetRoutines e) (postgres.GetSequences e)
      (postgres.GetTriggers e) (postgres.GetSynonyms e) (postgres.ExtractSchema e)
  | MSSQL e =>
    mkDBExtractor (mssql.GetDatabaseInfo e) (mssql.GetTables e)
      (mssql.GetViews e) (mssql.GetRoutines e) (mssql.GetSequences e)
      (mssql.GetTriggers e) (mssql.GetSynonyms e) (mssql.ExtractSchema e)
  end.

Definition clock_of (a : Adapter) : World -> Time :=
  match a with
  | Oracle e => oracle.clock (oracle.db e)
  | MySQL e => mysql.clock (mysql.db e)
  | PostgreSQL e => postgres.clock (postgres.db e)
  | MSSQL e => mssql.clock (mssql.db e)
  end.

Definition database_type (a : Adapter) : string :=
  match a with
  | Oracle _ => "Oracle"
  | MySQL _ => "MySQL"
  | PostgreSQL _ => "PostgreSQL"
  | MSSQL _ => "MSSQL"
  end.

(** *** The orchestration as the specification words it

    The steps of an extraction, in the strict sequence of the
    specification; the aggregation of the indexes follows the last step. *)
Inductive Step : Type :=
| StepDatabaseInfo
| StepTables
| StepViews
| StepRoutines
| StepSequences
| StepTriggers
| StepSynonyms.

Definition strict_sequence : list Step :=
  [StepDatabaseInfo; StepTables; StepViews; StepRoutines; StepSequences;
   StepTriggers; StepSynonyms].

(** One step: call the method and store what it returned in the schema
    under construction. *)
Definition run_step (x : DBExtractor) (step : Step) (s : Schema)
    : M (Schema * option error) :=
  match step with
  | StepDatabaseInfo =>
    '(name, version, err) ← GetDatabaseInfo x;
    mret (mkSchema name (Schema_DatabaseType s) version (Schema_ExtractedAt s)
            (Schema_Comment s) (Schema_Tables s) (Schema_Views s)
            (Schema_Routines s) (Schema_Sequences s) (Schema_Triggers s)
            (Schema_Synonyms s) (Schema_Indexes s), err)
  | StepTables =>
    '(tables, err) ← GetTables x;
    mret (mkSchema (Schema_DatabaseName s) (Schema_DatabaseType s)
            (Schema_Version s) (Schema_ExtractedAt s) (Schema_Comment s)
            tables (Schema_Views s) (Schema_Routines s) (Schema_Sequences s)
            (Schema_Triggers s) (Schema_Synonyms s) (Schema_Indexes s), err)
  | StepViews =>
    '(views, err) ← GetViews x;
    mret (mkSchema (Schema_DatabaseName s) (Schema_DatabaseType s)
            (Schema_Version s) (Schema_ExtractedAt s) (Schema_Comment s)
            (Schema_Tables s) views (Schema_Routines s) (Schema_Sequences s)
            (Schema_Triggers s) (Schema_Synonyms s) (Schema_Indexes s), err)
  | StepRoutines =>
    '(routines, err) ← GetRoutines x;
    mret (mkSchema (Schema_DatabaseName s) (Schema_DatabaseType s)
            (Schema_Version s) (Schema_ExtractedAt s) (Schema_Comment s)
            (Schema_Tables s) (Schema_Views s) routines (Schema_Sequences s)
            (Schema_Triggers s) (Schema_Synonyms s) (Schema_Indexes s), err)
  | StepSequences =>
    '(sequences, err) ← GetSequences x;
    mret (mkSchema (Schema_DatabaseName s) (Schema_DatabaseType s)
            (Schema_Version s) (Schema_ExtractedAt s) (Schema_Comment s)
            (Schema_Tables s) (Schema_Views s) (Schema_Routines s) sequences
            (Schema_Triggers s) (Schema_Synonyms s) (Schema_Indexes s), err)
  | StepTriggers =>
    '(triggers, err) ← GetTriggers x;
    mret (mkSchema (Schema_DatabaseName s) (Schema_DatabaseType s)
            (Schema_Version s) (Schema_ExtractedAt s) (Schema_Comment s)
            (Schema_Tables s) (Schema_Views s) (Schema_Routines s)
            (Schema_Sequences s) triggers (Schema_Synonyms s)
            (Schema_Indexes s), err)
  | StepSynonyms =>
    '(synonyms, err) ← GetSynonyms x;
    mret (mkSchema (Schema_DatabaseName s) (Schema_DatabaseType s)
            (Schema_Version s) (Schema_ExtractedAt s) (Schema_Comment s)
            (Schema_Tables s) (Schema_Views s) (Schema_Routines s)
            (Schema_Sequences s) (Schema_Triggers s) synonyms
            (Schema_Indexes s), err)
  end.

(** The steps in order, stopping at the first one that fails: the outcome
    is the completed schema, or the failed step with its error. *)
Fixpoint run_sequence (x : DBExtractor) (steps : list Step) (s : Schema)
    : M (Schema + Step * error) :=
  match steps with
  | [] => mret (inl s)
  | step :: rest =>
    '(s', err) ← run_step x step s;
    match err with
    | Some err => mret (inr (step, err))
    | None => run_sequence x rest s'
    end
  end.

(** The context an adapter adds to the error of a failed step: the Oracle
    adapter names the step, the others return the error as it is. *)
Definition step_context (a : Adapter) (step : Step) (err : error) : error :=
  match a with
  | Oracle _ =>
    match step with
    | StepDatabaseInfo => fmt.Errorf "failed to get database info: %w" [] err
    | StepTables => fmt.Errorf "failed to get tables: %w" [] err
    | StepViews => fmt.Errorf "failed to get views: %w" [] err
    | StepRoutines => fmt.Errorf "failed to get routines: %w" [] err
    | StepSequences => fmt.Errorf "failed to get sequences: %w" [] err
    | StepTriggers => fmt.Errorf "failed to get triggers: %w" [] err
    | StepSynonyms => fmt.Errorf "failed to get synonyms: %w" [] err
    end
  | _ => err
  end.

Definition fresh_schema (a : Adapter) (extractedAt : Time) : Schema :=
  mkSchema "" (database_type a) "" extractedAt "" nil_slice nil_slice
    nil_slice nil_slice nil_slice nil_slice nil_slice.

Definition aggregate_indexes (s : Schema) : Schema :=
  mkSchema (Schema_DatabaseName s) (Schema_DatabaseType s) (Schema_Version s)
    (Schema_ExtractedAt s) (Schema_Comment s) (Schema_Tables s)
    (Schema_Views s) (Schema_Routines s) (Schema_Sequences s)
    (Schema_Triggers s) (Schema_Synonyms s)
    (collect_indexes (Schema_Tables s)).

(** The extraction of the specification: the strict sequence from a fresh
    schema, then the aggregation; a failed step yields no schema and that
    step's error. *)
Definition orchestrate (a : Adapter) : M (option Schema * option error) :=
  extractedAt ← time_Now (clock_of a);
  outcome ← run_sequence (methods a) strict_sequence (fresh_schema a extractedAt);
  match outcome with
  | inl s => mret (Some (aggregate_indexes s), None)
  | inr (step, err) => mret (None, Some (step_context a step err))
  end.

End extractor.

(** ** Statements about computations in [M] *)

(** [Post m Q]: whatever the history, the value [m] returns satisfies [Q]. *)
Definition Post {A} (m : M A) (Q : A -> Prop) : Prop :=
  forall w, Q (fst (m w)).

(** [Trace m Q]: [m] only extends the history, and [Q] relates the value
    it returns to the driver calls it added. *)
Definition Trace {A} (m : M A) (Q : A -> list Event -> Prop) : Prop :=
  forall w, exists evs, snd (m w) = w ++ evs /\ Q (fst (m w)) evs.

(** Every driver call [m] makes satisfies [P]. *)
Definition always {A} (P : Event -> Prop) (m : M A) : Prop :=
  Trace m (fun _ evs => Forall P evs).

(** A nil error at the end of [m] means that every driver call it made
    satisfies [ok]. *)
Definition quiet {A} (ok : Event -> Prop) (m : M (A * option error)) : Prop :=
  Trace m (fun res evs => snd res = None -> Forall ok evs).

Definition succeeded (ev : Event) : Prop := ev_err ev = None.

(** A driver call that succeeded, or the lookup of a foreign-key target. *)
Definition benign (ev : Event) : Prop :=
  ev_err ev = None \/
  (ev_call ev = CallQueryRowScan /\ statement (ev_query ev) = SelForeignKeyTarget).

(** ** The properties of the specification, as predicates *)

Import extractor.

(** *** Foreign-key targets of a column *)


(** The catalog named [(refTable, refColumn)], both non-NULL, as the
    target of column [name] of [owner.table]: in the answer to the
    per-column lookup or, for Oracle, in a row of type [R] of the
    constraint query of the table. *)
Definition fk_resolved (a : Adapter) (owner table name refTable refColumn : string)
    : Prop :=
  match a with
  | Oracle e =>
    exists w rows rOwner,
      oracle.constraints (oracle.db e) w (mkQuery SelConstraints "" [owner; table])
        = inr rows /\
      inr (name, "R", rOwner, mkNullString refTable true, mkNullString refColumn true)
        ∈ delivered rows
  | MySQL e =>
    exists w,
      mysql.foreignKeyTarget (mysql.db e) w
        (mkQuery SelForeignKeyTarget "" [owner; table; name])
        = inr (mkNullString refTable true, mkNullString refColumn true)
  | PostgreSQL e =>
    exists w,
      postgres.foreignKeyTarget (postgres.db e) w
        (mkQuery SelForeignKeyTarget "" [owner; table; name])
        = inr (mkNullString refTable true, mkNullString refColumn true)
  | MSSQL e =>
    exists w,
      mssql.foreignKeyTarget (mssql.db e) w
        (mkQuery SelForeignKeyTarget "" [owner; table; name])
        = inr (mkNullString refTable true, mkNullString refColumn true)
  end.

(** What the extractors establish: the two target fields are both empty,
    or the column is a foreign key and both come from one catalog row. *)
Definition fk_targets_by_design (a : Adapter) (owner table : string) (col : Column)
    : Prop :=
  (Column_FKTargetTable col = "" /\ Column_FKTargetColumn col = "") \/
  (Column_IsForeignKey col = true /\
   fk_resolved a owner table (Column_Name col)
     (Column_FKTargetTable col) (Column_FKTargetColumn col)).

(** *** Index columns *)

Definition index_columns_answer (a : Adapter) : World -> Query -> error + Rows string :=
  match a with
  | Oracle e => oracle.indexColumns (oracle.db e)
  | MySQL e => mysql.indexColumns (mysql.db e)
  | PostgreSQL e => postgres.indexColumns (postgres.db e)
  | MSSQL e => mssql.indexColumns (mssql.db e)
  end.

Definition index_columns_query (a : Adapter) (idx : Index) : Query :=
  match a with
  | Oracle _ | PostgreSQL _ =>
    mkQuery SelIndexColumns "" [Index_Owner idx; Index_Name idx]
  | MySQL _ | MSSQL _ =>
    mkQuery SelIndexColumns "" [Index_Owner idx; Index_TableName idx; Index_Name idx]
  end.

(** [Columns] holds the names the catalog delivered for the index, every
    one of them, in the order of delivery. *)
Definition columns_as_delivered (a : Adapter) (idx : Index) : Prop :=
  exists w names,
    index_columns_answer a w (index_columns_query a idx)
      = inr (mkRows (map inr names) None) /\
    elems (Index_Columns idx) = names.

(** *** Signatures *)

Definition name_mode_type (arg : RoutineArgument) : string :=
  Arg_Name arg +:+ " " +:+ Arg_Mode arg +:+ " " +:+ Arg_DataType arg.

Definition mode_name_type (arg : RoutineArgument) : string :=
  Arg_Mode arg +:+ " " +:+ Arg_Name arg +:+ " " +:+ Arg_DataType arg.


(** What each extractor synthesizes. *)
Definition signature_by_design (a : Adapter) (r : Routine) : Prop :=
  match a with
  | Oracle _ =>
    Routine_Signature r =
      (if String.eqb (Routine_Type r) "FUNCTION" then "FUNCTION" else "PROCEDURE")
      +:+ " " +:+ Routine_Name r +:+ "(" +:+
      strings.Join (map name_mode_type (elems (Routine_Arguments r))) ", " +:+ ")" +:+
      (if String.eqb (Routine_Type r) "FUNCTION" then " RETURN <type>" else "")
  | MSSQL _ =>
    Routine_Signature r =
      Routine_Type r +:+ " " +:+ Routine_Name r +:+ "(" +:+
      strings.Join (map name_mode_type (elems (Routine_Arguments r))) ", " +:+ ")"
  | MySQL _ =>
    Routine_Signature r =
      Routine_Type r +:+ " " +:+ Routine_Name r +:+ "(" +:+
      strings.Join (map mode_name_type (elems (Routine_Arguments r))) ", " +:+ ")"
  | PostgreSQL _ =>
    exists argStr,
      Routine_Signature r =
        Routine_Type r +:+ " " +:+ Routine_Name r +:+ "(" +:+ argStr +:+ ")" +:+
        (if String.eqb (Routine_Type r) "FUNCTION"
         then " RETURNS " +:+ Routine_ReturnType r else "")
  end.

(** The arguments of a routine are the rows the catalog delivered for it,
    in the order of delivery (PostgreSQL keeps no argument list). *)
Definition arguments_as_delivered (a : Adapter) (r : Routine) : Prop :=
  match a with
  | Oracle e =>
    exists w rows,
      oracle.routineArguments (oracle.db e) w
        (mkQuery SelRoutineArguments "" [Routine_Owner r; Routine_Name r])
        = inr (mkRows (map inr rows) None) /\
      map (fun arg => (Arg_Name arg, Arg_Position arg, Arg_Mode arg, Arg_DataType arg))
          (elems (Routine_Arguments r))
        = map (fun '(name, position, mode, dataType, _) =>
                 (name, position, mode, dataType)) rows
  | MySQL e =>
    exists w rows,
      mysql.routineParameters (mysql.db e) w
        (mkQuery SelRoutineArguments "" [Routine_Owner r; Routine_Name r])
        = inr (mkRows (map inr rows) None) /\
      map (fun arg => (Arg_Name arg, Arg_Position arg, Arg_Mode arg, Arg_DataType arg))
          (elems (Routine_Arguments r))
        = rows
  | MSSQL e =>
    exists w rows,
      mssql.routineParameters (mssql.db e) w
        (mkQuery SelRoutineArguments "" [Routine_Owner r; Routine_Name r])
        = inr (mkRows (map inr rows) None) /\
      map (fun arg => (Arg_Name arg, Arg_Position arg, Arg_Mode arg, Arg_DataType arg))
          (elems (Routine_Arguments r))
        = rows
  | PostgreSQL _ => Routine_Arguments r = nil_slice
  end.

(** *** Triggers *)

Definition row_level_table_trigger (t : Trigger) : Prop :=
  Trigger_Level t = "ROW" /\ Trigger_TargetType t = "TABLE".

(** *** The schema filter in the catalog queries *)

(** The statements that select catalog objects by owner. *)
Definition selects_by_owner (st : Statement) : bool :=
  match st with
  | SelTables | SelViews | SelRoutines | SelSequences | SelTriggers | SelSynonyms => true
  | _ => false
  end.

(** A query that selects by owner binds exactly [schemas], and the text
    appended to it holds an [IN] clause with the placeholders [marks]. *)
Definition restricted_to (schemas : list string) (marks : string) (ev : Event)
    : Prop :=
  selects_by_owner (statement (ev_query ev)) = true ->
  args (ev_query ev) = schemas /\
  strings.Contains (appended (ev_query ev)) (" IN (" +:+ marks +:+ ")") = true.

(** A query that selects by owner binds nothing and carries no [IN]
    clause. *)
Definition unrestricted (ev : Event) : Prop :=
  selects_by_owner (statement (ev_query ev)) = true ->
  args (ev_query ev) = [] /\
  strings.Contains (appended (ev_query ev)) " IN (" = false.

(** *** What a table, a view, a routine and a schema carry *)

(** The columns of a table have the foreign-key targets the extractor
    establishes, and its indexes the columns the catalog delivered. *)
Definition table_by_design (a : Adapter) (t : Table) : Prop :=
  Forall (fk_targets_by_design a (Table_Owner t) (Table_Name t))
    (elems (Table_Columns t)) /\
  Forall (columns_as_delivered a) (elems (Table_Indexes t)).

Definition view_by_design (a : Adapter) (v : View) : Prop :=
  Forall (fk_targets_by_design a (View_Owner v) (View_Name v))
    (elems (View_Columns v)).

Definition routine_by_design (a : Adapter) (r : Routine) : Prop :=
  signature_by_design a r /\ arguments_as_delivered a r.

Definition schema_by_design (a : Adapter) (s : Schema) : Prop :=
  Forall (table_by_design a) (elems (Schema_Tables s)) /\
  Forall (view_by_design a) (elems (Schema_Views s)) /\
  Forall (routine_by_design a) (elems (Schema_Routines s)).

(** *** Oracle: the constraint map

    The foreign-key entries of [constraintMap] are both absent, or both
    strings taken from one delivered row of type [R] for that column. *)
Definition fk_entries_from
    (rows : list (error + string * string * NullString * NullString * NullString))
    (constraintMap : gmap string (gmap string GoValue)) : Prop :=
  forall name entry, constraintMap !! name = Some entry ->
    match entry !! "FK_TABLE", entry !! "FK_COLUMN" with
    | None, None => True
    | Some (VString t), Some (VString c) =>
      exists rOwner, inr (name, "R", rOwner, mkNullString t true, mkNullString c true) ∈ rows
    | _, _ => False
    end.

(** *** Field names *)

(** [name.Name == forbidden] for one of the forbidden names. *)
Definition forbidden (name : string) : bool :=
  existsb (String.eqb name) validator.forbiddenFields.

(** The names a type declaration gives to the fields of its struct. *)
Definition struct_field_names (ts : validator.TypeSpec) : list string :=
  match validator.Type_ ts with
  | validator.StructType fields => flat_map validator.Names fields
  | validator.OtherType => []
  end.

(** Every field name met in a value of the model, at any depth. *)
Fixpoint names_in (v : GoValue) : list string :=
  match v with
  | VSlice l => flat_map names_in l
  | VStruct fields => flat_map (fun field => fst field :: names_in (snd field)) fields
  | _ => []
  end.

Definition no_source_field (v : GoValue) : Prop :=
  Forall (fun name => forbidden name = false) (names_in v).

(** *** The operations of the interface, taken together *)

(** Every driver call of every operation of the interface satisfies [P]. *)
Definition every_call (P : Event -> Prop) (x : DBExtractor) : Prop :=
  always P (GetDatabaseInfo x) /\ always P (GetTables x) /\
  always P (GetViews x) /\ always P (GetRoutines x) /\
  always P (GetSequences x) /\ always P (GetTriggers x) /\
  always P (GetSynonyms x) /\ always P (ExtractSchema x).

(** A nil error of any operation of the interface means that every driver
    call made during it satisfies [ok]. *)
Definition errors_surface (ok : Event -> Prop) (x : DBExtractor) : Prop :=
  quiet ok (GetDatabaseInfo x) /\ quiet ok (GetTables x) /\
  quiet ok (GetViews x) /\ quiet ok (GetRoutines x) /\
  quiet ok (GetSequences x) /\ quiet ok (GetTriggers x) /\
  quiet ok (GetSynonyms x) /\ quiet ok (ExtractSchema x).

(** The driver calls whose error an adapter may leave unreported. *)
Definition tolerated (a : Adapter) : Event -> Prop :=
  match a with
  | Oracle _ => succeeded
  | _ => benign
  end.

(** ** Sample catalogs *)

Definition no_rows {R} : error + Rows R := inr (mkRows [] None).

Definition sample_clock : World -> Time := fun _ => mkTime 2024 5 17 9 30 0.

(** A MySQL database [shop] with one table [orders]: a primary key, a
    column [customer_id] under a plain (non-unique) index and no foreign
    key at all, so the foreign-key lookup finds no row; and one stored
    function [order_total]. *)
Definition shop_db : mysql.DB :=
  mysql.mkDB
    (fun _ _ => inr ("shop", "8.0.36"))
    (fun _ _ =>
       inr (mkRows
              [inr ("shop", "orders", mkNullString "InnoDB" true, mkNullInt64 2 true,
                    "customer orders", mkNullTime zeroTime false,
                    mkNullTime zeroTime false)]
              None))
    (fun _ _ =>
       inr (mkRows
              [inr ("id", 1, "int", 0, 10, 0, "NO", "", "", "PRI", "auto_increment");
               inr ("customer_id", 2, "int", 0, 10, 0, "NO", "", "", "MUL", "");
               inr ("created_at", 3, "datetime", 0, 0, 0, "NO", "", "", "", "")]
              None))
    (fun _ _ => inl (errors_New "sql: no rows in result set"))
    (fun _ _ =>
       inr (mkRows [inr ("PRIMARY", "BTREE", 0); inr ("idx_customer_date", "BTREE", 1)]
              None))
    (fun _ q =>
       match args q with
       | [_; _; indexName] =>
         if String.eqb indexName "PRIMARY"
         then inr (mkRows [inr "id"] None)
         else inr (mkRows [inr "customer_id"; inr "created_at"] None)
       | _ => no_rows
       end)
    (fun _ _ => no_rows)
    (fun _ _ =>
       inr (mkRows [inr ("shop", "order_total", "FUNCTION", "", "decimal(10,2)")] None))
    (fun _ _ => inr (mkRows [inr ("p_order_id", 1, "IN", "int")] None))
    (fun _ _ => no_rows)
    sample_clock.

Definition shop : mysql.Extractor :=
  mysql.mkExtractor shop_db
    (mysql.mkConfig "localhost" 3306 "shop" "app" "secret" nil_slice)
    (mk_slice ["shop"]).

(** An Oracle database seen by user [HR]: [ALL_TABLES] also lists a table
    of [SYS]; the table query honours the owners it is given, and lists
    everything when it is given none. *)
Definition hr_db : oracle.DB :=
  oracle.mkDB
    (fun _ _ => inr ("ORCL", "Oracle Database 19c"))
    (fun _ q =>
       inr (mkRows
              (map inr
                 (List.filter
                    (fun '(owner, _, _, _, _, _, _) =>
                       match args q with
                       | [] => true
                       | owners => existsb (String.eqb owner) owners
                       end)
                    [("HR", "EMPLOYEES", "USERS", mkNullInt64 107 true, "",
                      mkNullString "" false, mkNullString "" false);
                     ("SYS", "DUAL", "SYSTEM", mkNullInt64 1 true, "",
                      mkNullString "" false, mkNullString "" false)]))
              None))
    (fun _ _ => no_rows)
    (fun _ _ => no_rows)
    (fun _ _ => no_rows)
    (fun _ _ => no_rows)
    (fun _ _ => no_rows)
    (fun _ _ =>
       inr (mkRows [inr ("HR", "RAISE_SALARY", mkNullString "" false, "PROCEDURE", "")]
              None))
    (fun _ _ =>
       inr (mkRows
              [inr ("EMP_ID", 1, "IN", "NUMBER", mkNullString "" false);
               inr ("PCT", 2, "IN", "NUMBER", mkNullString "" false)]
              None))
    (fun _ _ => no_rows)
    (fun _ _ => no_rows)
    (fun _ _ => no_rows)
    sample_clock.

Definition hr_config : oracle.Config :=
  oracle.mkConfig "db.example.com" 1521 "ORCL" "HR" "secret" nil_slice.

Definition hr_open : string -> string -> oracle.DB + error := fun _ _ => inl hr_db.

(** A PostgreSQL database with an empty catalog, configured without a
    schema filter. *)
Definition empty_pg_db : postgres.DB :=
  postgres.mkDB (fun _ _ => inr ("app", "PostgreSQL 16.2"))
    (fun _ _ => no_rows) (fun _ _ => no_rows)
    (fun _ _ => inl (errors_New "sql: no rows in result set"))
    (fun _ _ => no_rows) (fun _ _ => no_rows) (fun _ _ => no_rows)
    (fun _ _ => no_rows) (fun _ _ => no_rows) (fun _ _ => no_rows)
    sample_clock.

Definition pg_config : postgres.Config :=
  postgres.mkConfig "localhost" 5432 "app" "app" "secret" "disable" nil_slice.

Definition pg_open : string -> string -> postgres.DB + error :=
  fun _ _ => inl empty_pg_db.

(** [err] is reported by the last driver call of [evs]: that call returned
    an error, and it is the cause of [err]. *)
Definition reported (err : error) (evs : list Event) : Prop :=
  exists ev cause,
    last evs = Some ev /\ ev_err ev = Some cause /\ root_cause err = root_cause cause.

(** When [m] returns an error, the last driver call it made is the one
    that failed, and the error returned has that call's error as cause. *)
Definition stops_at_failure {A} (m : M (A * option error)) : Prop :=
  Trace m (fun res evs => forall err, snd res = Some err -> reported err evs).


(** A failed collection is nil, unless the failure is the one [rows.Err()]
    reports after the loop: then the values collected so far are returned
    with the error. *)
Definition nil_unless_iteration_error {T} (m : M (slice T * option error)) : Prop :=
  Trace m (fun res evs =>
    forall err, snd res = Some err ->
      fst res = nil_slice \/
      exists q, last evs = Some (mkEvent CallRowsErr q (Some err))).

Definition every_collection_nil_unless (x : DBExtractor) : Prop :=
  nil_unless_iteration_error (GetTables x) /\
  nil_unless_iteration_error (GetViews x) /\
  nil_unless_iteration_error (GetRoutines x) /\
  nil_unless_iteration_error (GetSequences x) /\
  nil_unless_iteration_error (GetTriggers x) /\
  nil_unless_iteration_error (GetSynonyms x).

(** The placeholders of an [IN] clause over [n] schemas, joined as the
    extractors join them. *)
Definition placeholders (placeholder : nat -> string) (n : nat) : string :=
  strings.Join (map placeholder (seq 0 n)) ",".

(** A format text without a verb. *)
Fixpoint no_verb (s : string) : bool :=
  match s with
  | EmptyString => true
  | String c rest => negb (Ascii.eqb c "%") && no_verb rest
  end.

(** The filter and the placeholder syntax of an adapter. *)
Definition schema_filter (a : Adapter) : slice string :=
  match a with
  | Oracle e => oracle.schemaFilter e
  | MySQL e => mysql.schemaFilter e
  | PostgreSQL e => postgres.schemaFilter e
  | MSSQL e => mssql.schemaFilter e
  end.

Definition placeholder_of (a : Adapter) : nat -> string :=
  match a with
  | Oracle _ => oracle.placeholder
  | MySQL _ => mysql.placeholder
  | PostgreSQL _ => postgres.placeholder
  | MSSQL _ => mssql.placeholder
  end.

(** What the connection of an adapter answers to the database-info query. *)
Definition database_info_answer (a : Adapter)
    : World -> Query -> error + (string * string) :=
  match a with
  | Oracle e => oracle.databaseInfo (oracle.db e)
  | MySQL e => mysql.databaseInfo (mysql.db e)
  | PostgreSQL e => postgres.databaseInfo (postgres.db e)
  | MSSQL e => mssql.databaseInfo (mssql.db e)
  end.

(** The Oracle extractor of [hr_db] under an explicit filter of two
    schemas. *)
Definition hr_scott : oracle.Extractor :=
  oracle.mkExtractor hr_db hr_config (mk_slice ["HR"; "SCOTT"]).

(** The fields of a schema that describe the extraction itself. *)
Definition header (s : Schema) : string * string * string * Time * string :=
  (Schema_DatabaseName s, Schema_DatabaseType s, Schema_Version s,
   Schema_ExtractedAt s, Schema_Comment s).

(** The first two values of a catalog row, whatever follows them. *)
Class Leading (A B R : Type) : Type := leading : R -> A * B.

#[export] Instance leading_pair {A B : Type} : Leading A B (A * B) := fun r => r.

#[export] Instance leading_more {A B R C : Type} `{Leading A B R}
    : Leading A B (R * C) :=
  fun r => leading (fst r).

(** The owner and the name of a catalog row: the first two values every
    query that lists objects selects. *)
Definition first_two {R : Type} `{Leading string string R} : R -> string * string :=
  leading.

(** The owner and the name the Oracle extractor gives a routine: the
    member of a package is named after the package and the member. *)
Definition oracle_routine_key
    (row : string * string * NullString * string * string) : string * string :=
  let '(Owner, Name, procName, _, _) := row in
  (Owner,
   if Valid procName && negb (String.eqb (String_ procName) "")
   then Name +:+ "." +:+ String_ procName else Name).

(** The catalog answered a query of statement [st] with rows that all
    scanned, without an iteration error, and [keys] are the owners and
    names [g] reads off them, in the order of delivery. *)
Definition delivered_keys {R : Type} (g : R -> string * string)
    (answer : World -> Query -> error + Rows R) (st : Statement)
    (keys : list (string * string)) : Prop :=
  exists w q rs,
    statement q = st /\
    answer w q = inr (mkRows (map inr rs) None) /\
    keys = map g rs.

(** The rows behind each collection of each adapter; a dialect without a
    concept lists nothing. *)
Definition catalog_lists (a : Adapter) (st : Statement)
    (keys : list (string * string)) : Prop :=
  match a, st with
  | Oracle e, SelTables => delivered_keys first_two (oracle.tables (oracle.db e)) st keys
  | Oracle e, SelViews => delivered_keys first_two (oracle.views (oracle.db e)) st keys
  | Oracle e, SelRoutines => delivered_keys oracle_routine_key (oracle.routines (oracle.db e)) st keys
  | Oracle e, SelSequences => delivered_keys first_two (oracle.sequences (oracle.db e)) st keys
  | Oracle e, SelTriggers => delivered_keys first_two (oracle.triggers (oracle.db e)) st keys
  | Oracle e, SelSynonyms => delivered_keys first_two (oracle.synonyms (oracle.db e)) st keys
  | MySQL e, SelTables => delivered_keys first_two (mysql.tables (mysql.db e)) st keys
  | MySQL e, SelViews => delivered_keys first_two (mysql.views (mysql.db e)) st keys
  | MySQL e, SelRoutines => delivered_keys first_two (mysql.routines (mysql.db e)) st keys
  | MySQL e, SelTriggers => delivered_keys first_two (mysql.triggers (mysql.db e)) st keys
  | MySQL _, (SelSequences | SelSynonyms) => keys = []
  | PostgreSQL e, SelTables => delivered_keys first_two (postgres.tables (postgres.db e)) st keys
  | PostgreSQL e, SelViews => delivered_keys first_two (postgres.views (postgres.db e)) st keys
  | PostgreSQL e, SelRoutines =>
    delivered_keys first_two (postgres.routines (postgres.db e)) st keys
  | PostgreSQL e, SelSequences =>
    delivered_keys first_two (postgres.sequences (postgres.db e)) st keys
  | PostgreSQL e, SelTriggers =>
    delivered_keys first_two (postgres.triggers (postgres.db e)) st keys
  | PostgreSQL _, SelSynonyms => keys = []
  | MSSQL e, SelTables => delivered_keys first_two (mssql.tables (mssql.db e)) st keys
  | MSSQL e, SelViews => delivered_keys first_two (mssql.views (mssql.db e)) st keys
  | MSSQL e, SelRoutines => delivered_keys first_two (mssql.routines (mssql.db e)) st keys
  | MSSQL e, SelSequences => delivered_keys first_two (mssql.sequences (mssql.db e)) st keys
  | MSSQL e, SelTriggers => delivered_keys first_two (mssql.triggers (mssql.db e)) st keys
  | MSSQL e, SelSynonyms => delivered_keys first_two (mssql.synonyms (mssql.db e)) st keys
  | _, _ => False
  end.

(** Every collection of the interface lists the objects of the catalog
    rows behind it, one per row and in their order. *)
Definition lists_catalog_rows (a : Adapter) (w : World) : Prop :=
  (snd (fst (GetTables (methods a) w)) = None ->
   catalog_lists a SelTables
     (map (fun t => (Table_Owner t, Table_Name t))
        (elems (fst (fst (GetTables (methods a) w)))))) /\
  (snd (fst (GetViews (methods a) w)) = None ->
   catalog_lists a SelViews
     (map (fun v => (View_Owner v, View_Name v))
        (elems (fst (fst (GetViews (methods a) w)))))) /\
  (snd (fst (GetRoutines (methods a) w)) = None ->
   catalog_lists a SelRoutines
     (map (fun r => (Routine_Owner r, Routine_Name r))
        (elems (fst (fst (GetRoutines (methods a) w)))))) /\
  (snd (fst (GetSequences (methods a) w)) = None ->
   catalog_lists a SelSequences
     (map (fun s => (Sequence_Owner s, Sequence_Name s))
        (elems (fst (fst (GetSequences (methods a) w)))))) /\
  (snd (fst (GetTriggers (methods a) w)) = None ->
   catalog_lists a SelTriggers
     (map (fun t => (Trigger_Owner t, Trigger_Name t))
        (elems (fst (fst (GetTriggers (methods a) w)))))) /\
  (snd (fst (GetSynonyms (methods a) w)) = None ->
   catalog_lists a SelSynonyms
     (map (fun s => (Synonym_Owner s, Synonym_Name s))
        (elems (fst (fst (GetSynonyms (methods a) w)))))).

(** The fields of a column that no constraint touches. *)
Definition plain (c : Column)
    : string * Z * string * Z * Z * Z * bool * string * string * bool * string * string :=
  (Column_Name c, Column_Position c, Column_DataType c, Column_Length c,
   Column_Precision c, Column_Scale c, Column_Nullable c, Column_DefaultValue c,
   Column_Comment c, Column_IsAutoIncrement c, Column_CharacterSet c,
   Column_Collation c).

(** [c'] is [c] with constraints applied: the plain fields are kept, no
    flag is cleared, and the targets change only on a foreign key. *)
Definition constraints_applied (c c' : Column) : Prop :=
  plain c' = plain c /\
  (Column_IsPrimaryKey c = true -> Column_IsPrimaryKey c' = true) /\
  (Column_IsForeignKey c = true -> Column_IsForeignKey c' = true) /\
  (Column_IsUnique c = true -> Column_IsUnique c' = true) /\
  (Column_IsForeignKey c' = false ->
   Column_FKTargetTable c' = Column_FKTargetTable c /\
   Column_FKTargetColumn c' = Column_FKTargetColumn c).

(** What each dialect's extractor makes of a column, whatever the catalog
    says. *)
Definition column_by_dialect (a : Adapter) (col : Column) : Prop :=
  Column_CharacterSet col = "" /\ Column_Collation col = "" /\
  match a with
  | MySQL _ =>
    Column_IsPrimaryKey col && Column_IsUnique col = false /\
    Column_IsPrimaryKey col && Column_IsForeignKey col = false /\
    Column_IsUnique col && Column_IsForeignKey col = false
  | PostgreSQL _ =>
    Column_Length col = 0 /\ Column_Precision col = 0 /\ Column_Scale col = 0 /\
    Column_IsAutoIncrement col = strings.Contains (Column_DefaultValue col) "nextval"
  | Oracle _ => Column_IsAutoIncrement col = false
  | MSSQL _ => True
  end.

(** The name and the position of a column. *)
Definition column_key (c : Column) : string * Z := (Column_Name c, Column_Position c).

Definition swap {A B} (p : A * B) : B * A := (snd p, fst p).

(** The columns of the table or view [owner.table] are the rows the
    catalog delivered for it: all of them, in the order of delivery, under
    their names and positions. The SQL Server extractor reads the columns
    of a view with a query of its own. *)
Definition columns_delivered (a : Adapter) (view : bool) (owner table : string)
    (cols : slice Column) : Prop :=
  match a with
  | Oracle e =>
    exists w rs,
      oracle.columns (oracle.db e) w (mkQuery SelColumns "" [owner; table])
        = inr (mkRows (map inr rs) None) /\
      map column_key (elems cols) = map leading rs
  | MySQL e =>
    exists w rs,
      mysql.columns (mysql.db e) w (mkQuery SelColumns "" [owner; table])
        = inr (mkRows (map inr rs) None) /\
      map column_key (elems cols) = map leading rs
  | PostgreSQL e =>
    exists w rs,
      postgres.columns (postgres.db e) w (mkQuery SelColumns "" [owner; table])
        = inr (mkRows (map inr rs) None) /\
      map column_key (elems cols) = map (fun r => swap (leading r)) rs
  | MSSQL e =>
    if view then
      exists w rs,
        mssql.viewColumns (mssql.db e) w (mkQuery SelViewColumns "" [owner; table])
          = inr (mkRows (map inr rs) None) /\
        map column_key (elems cols) = map (fun r => swap (leading r)) rs
    else
      exists w rs,
        mssql.columns (mssql.db e) w (mkQuery SelColumns "" [owner; table])
          = inr (mkRows (map inr rs) None) /\
        map column_key (elems cols) = map (fun r => swap (leading r)) rs
  end.

(** The function an adapter reads the columns of a table or of a view
    with. *)
Definition column_reader (a : Adapter) (view : bool) (owner name : string)
    : M (slice Column * option error) :=
  match a with
  | Oracle e => oracle.getColumnsForTable e owner name
  | MySQL e => mysql.getColumnsForTable e owner name
  | PostgreSQL e => postgres.getColumnsForTable e owner name
  | MSSQL e =>
    if view then mssql.getColumnsForView e owner name
    else mssql.getColumnsForTable e owner name
  end.

(** [Q] holds of the columns of every table and of every view. *)
Definition tables_columns (Q : bool -> string -> string -> slice Column -> Prop)
    (tables : slice Table) : Prop :=
  Forall (fun t => Q false (Table_Owner t) (Table_Name t) (Table_Columns t))
    (elems tables).

Definition views_columns (Q : bool -> string -> string -> slice Column -> Prop)
    (views : slice View) : Prop :=
  Forall (fun v => Q true (View_Owner v) (View_Name v) (View_Columns v))
    (elems views).

(** [Q] holds of the columns of what [GetTables], [GetViews] and a
    successful [ExtractSchema] return. *)
Definition every_column_list (a : Adapter) (w : World)
    (Q : bool -> string -> string -> slice Column -> Prop) : Prop :=
  tables_columns Q (fst (fst (GetTables (methods a) w))) /\
  views_columns Q (fst (fst (GetViews (methods a) w))) /\
  (forall s, fst (fst (ExtractSchema (methods a) w)) = Some s ->
     tables_columns Q (Schema_Tables s) /\ views_columns Q (Schema_Views s)).

(** ** The factory: [NewDBExtractor] of package [extractor] *)

Module dbextractor.

(** The unified configuration. *)
Record Config : Type := mkConfig {
  Host : string;
  Port : Z;
  Database : string;
  Username : string;
  Password : string;
  SSLMode : string;
  SchemaFilter : slice string
}.

(** What the factory takes from the Go runtime: [lower_trimmed] is
    [strings.ToLower(strings.TrimSpace(s))], the others are [sql.Open] for
    the driver of each dialect. *)
Record Runtime : Type := mkRuntime {
  lower_trimmed : string -> string;
  open_oracle : string -> string -> oracle.DB + error;
  open_mysql : string -> string -> mysql.DB + error;
  open_postgres : string -> string -> postgres.DB + error;
  open_mssql : string -> string -> mssql.DB + error
}.

(** A value of the interface type [DBExtractor]: the nil interface, or a
    pointer to the extractor of one dialect; the pointer itself may be
    nil. *)
Inductive DBExtractorValue : Type :=
| nil_interface
| oracle_pointer (e : option oracle.Extractor)
| mysql_pointer (e : option mysql.Extractor)
| postgres_pointer (e : option postgres.Extractor)
| mssql_pointer (e : option mssql.Extractor).

Definition NewDBExtractor (rt : Runtime) (dbType : string) (config : Config)
    : DBExtractorValue * option error :=
  let dbType := lower_trimmed rt dbType in
  if String.eqb dbType "oracle" then
    let cfg :=
      oracle.mkConfig (Host config) (Port config) (Database config)
        (Username config) (Password config) (SchemaFilter config) in
    let '(e, err) := oracle.NewExtractor (open_oracle rt) cfg in
    (oracle_pointer e, err)
  else if String.eqb dbType "mysql" then
    let cfg :=
      mysql.mkConfig (Host config) (Port config) (Database config)
        (Username config) (Password config) (SchemaFilter config) in
    let '(e, err) := mysql.NewExtractor (open_mysql rt) cfg in
    (mysql_pointer e, err)
  else if String.eqb dbType "postgresql" || String.eqb dbType "postgres"
          || String.eqb dbType "pg" then
    let sslMode := SSLMode config in
    let sslMode := if String.eqb sslMode "" then "disable" else sslMode in
    let cfg :=
      postgres.mkConfig (Host config) (Port config) (Database config)
        (Username config) (Password config) sslMode (SchemaFilter config) in
    let '(e, err) := postgres.NewExtractor (open_postgres rt) cfg in
    (postgres_pointer e, err)
  else if String.eqb dbType "mssql" || String.eqb dbType "sqlserver" then
    let encrypt :=
      if String.eqb (SSLMode config) "require" || String.eqb (SSLMode config) "true"
      then "true" else "disable" in
    let cfg :=
      mssql.mkConfig (Host config) (Port config) (Database config)
        (Username config) (Password config) encrypt (SchemaFilter config) in
    let '(e, err) := mssql.NewExtractor (open_mssql rt) cfg in
    (mssql_pointer e, err)
  else
    (nil_interface,
     Some (errors_New
             (fmt.Sprintf
                "unsupported database type: %s (supported: oracle, mysql, postgresql, mssql)"
                [fmt.S_ dbType]))).

Definition GetSupportedDatabases : slice string :=
  mk_slice ["oracle"; "mysql"; "postgresql"; "mssql"].

End dbextractor.

(** The names the factory accepts, once lowered and trimmed. *)
Definition accepted_types : list string :=
  ["oracle"; "mysql"; "postgresql"; "postgres"; "pg"; "mssql"; "sqlserver"].

(** The adapter behind a value of the interface, when it holds one. *)
Definition adapter_of (x : dbextractor.DBExtractorValue) : option Adapter :=
  match x with
  | dbextractor.nil_interface => None
  | dbextractor.oracle_pointer e => Oracle <$> e
  | dbextractor.mysql_pointer e => MySQL <$> e
  | dbextractor.postgres_pointer e => PostgreSQL <$> e
  | dbextractor.mssql_pointer e => MSSQL <$> e
  end.

(** The restriction the catalog queries of a factory-made adapter carry,
    by dialect and by the schema filter of the configuration. *)
Definition configured_restriction (config : dbextractor.Config) (a : Adapter)
    : Event -> Prop :=
  if (len (dbextractor.SchemaFilter config) =? 0)%nat then
    match a with
    | Oracle _ => unrestricted
    | MySQL _ => restricted_to [dbextractor.Database config] "?"
    | PostgreSQL _ => restricted_to ["public"] "$1"
    | MSSQL _ => restricted_to ["dbo"] "@p1"
    end
  else
    restricted_to (elems (dbextractor.SchemaFilter config))
      (placeholders (placeholder_of a) (len (dbextractor.SchemaFilter config))).

(** The dialect a type name selects. *)
Definition dialect_of_name (name : string) (a : Adapter) : Prop :=
  match a with
  | Oracle _ => name = "oracle"
  | MySQL _ => name = "mysql"
  | PostgreSQL _ => name ∈ ["postgresql"; "postgres"; "pg"]
  | MSSQL _ => name ∈ ["mssql"; "sqlserver"]
  end.

(** A runtime whose drivers all open the sample databases, and that
    leaves type names as they are. *)
Definition sample_runtime : dbextractor.Runtime :=
  dbextractor.mkRuntime (fun s => s) hr_open
    (fun _ _ => inl shop_db) pg_open
    (fun _ _ => inr (errors_New "sqlserver: unknown driver")).

Definition sample_config : dbextractor.Config :=
  dbextractor.mkConfig "localhost" 5432 "app" "app" "secret" "" nil_slice.

(** *** What the validator's rules read from a file *)

(** The struct declarations of a name, in file order. *)
Definition struct_declarations (file : validator.File) (name : string)
    : list (list validator.Field) :=
  flat_map (fun ts =>
    if String.eqb (validator.Name ts) name
    then match validator.Type_ ts with
         | validator.StructType fields => [fields]
         | validator.OtherType => []
         end
    else [])
  file.

(** The last struct declaration of [name] in the file has a field named
    [Comment]. *)
Definition last_declaration_has_comment (file : validator.File) (name : string)
    : Prop :=
  match last (struct_declarations file name) with
  | Some fields => "Comment" ∈ flat_map validator.Names fields
  | None => False
  end.

#[global] Instance last_declaration_has_comment_dec file name :
  Decision (last_declaration_has_comment file name).
Proof.
  unfold last_declaration_has_comment.
  destruct (last (struct_declarations file name)); apply _.
Defined.

(** Some declaration of the file, of a struct or of any other type, has
    the name. *)
Definition declared (file : validator.File) (name : string) : Prop :=
  name ∈ map validator.Name file.

#[global] Instance declared_dec file name : Decision (declared file name).
Proof. unfold declared. apply _. Defined.

(** A model file in which [Table] is declared a second time, without a
    [Comment] field. *)
Definition redeclared_go : validator.File :=
  validator.schema_go ++ [validator.struct_ "Table" ["Name"; "Owner"]].

(** *** The target of a SQL Server synonym *)

Definition dotless (s : string) : Prop := strings.Contains s "." = false.

(** What the extractor makes of a base object name: a name without a dot
    is the target object, with no owner; otherwise the owner is what
    precedes the first dot and the object what lies between the first dot
    and the second, or the end of the name. *)
Definition qualified_target (base owner object : string) : Prop :=
  (dotless base /\ owner = "" /\ object = base) \/
  (dotless owner /\ dotless object /\
   exists rest, base = owner +:+ "." +:+ object +:+ rest /\
                (rest = "" \/ strings.HasPrefix rest "." = true)).

Definition synonym_of_row (syn : Synonym)
    (row : string * string * string * string) : Prop :=
  let '(owner, name, base, comment) := row in
  Synonym_Owner syn = owner /\ Synonym_Name syn = name /\
  Synonym_Comment syn = comment /\ Synonym_TargetType syn = "TABLE" /\
  qualified_target base (Synonym_TargetOwner syn) (Synonym_TargetObject syn).

(** A SQL Server database with two synonyms: one for an object of another
    database, named by three parts, and one for a local object named by
    one. *)
Definition crm_db : mssql.DB :=
  mssql.mkDB
    (fun _ _ => inr ("crm", "Microsoft SQL Server 2022"))
    (fun _ _ => no_rows) (fun _ _ => no_rows)
    (fun _ _ => inl (errors_New "sql: no rows in result set"))
    (fun _ _ => no_rows) (fun _ _ => no_rows) (fun _ _ => no_rows)
    (fun _ _ => no_rows) (fun _ _ => no_rows) (fun _ _ => no_rows)
    (fun _ _ => no_rows) (fun _ _ => no_rows)
    (fun _ _ =>
       inr (mkRows [inr ("dbo", "Clients", "sales.dbo.Customers", "");
                    inr ("dbo", "Notes", "Remarks", "")] None))
    sample_clock.

Definition crm : mssql.Extractor :=
  mssql.mkExtractor crm_db
    (mssql.mkConfig "localhost" 1433 "crm" "app" "secret" "disable" nil_slice)
    (mk_slice ["dbo"]).

(** *** The indexes of a table *)

(** The function an adapter reads the indexes of a table with. *)
Definition index_reader (a : Adapter) (owner table : string)
    : M (slice Index * option error) :=
  match a with
  | Oracle e => oracle.getIndexesForTable e owner table
  | MySQL e => mysql.getIndexesForTable e owner table
  | PostgreSQL e => postgres.getIndexesForTable e owner table
  | MSSQL e => mssql.getIndexesForTable e owner table
  end.

(** An index as the adapter of a dialect fills it for the table [table] of
    [owner]: it is enabled and has no creation time; Oracle never marks it
    primary; MySQL marks it primary by its name and gives it no comment. *)
Definition index_in_table (a : Adapter) (owner table : string) (i : Index)
    : Prop :=
  Index_Owner i = owner /\ Index_TableName i = table /\
  Index_IsEnabled i = true /\ Index_CreatedAt i = "" /\
  match a with
  | Oracle _ => Index_IsPrimary i = false
  | MySQL _ =>
    Index_IsPrimary i = String.eqb (Index_Name i) "PRIMARY" /\
    Index_Comment i = ""
  | PostgreSQL _ | MSSQL _ => True
  end.

Definition tables_indexes (a : Adapter) (tables : slice Table) : Prop :=
  Forall (fun t =>
            Forall (index_in_table a (Table_Owner t) (Table_Name t))
              (elems (Table_Indexes t)))
    (elems tables).

(** *** The timing and the level of an Oracle trigger *)






(** * Properties *)

(** ** Slices and assignment by index *)

Lemma elems_append {A} (s : slice A) (x : A) : elems (append s x) = elems s ++ [x].
Proof. reflexivity. Qed.

Lemma elems_append_all {A} (s : slice A) (xs : list A) :
  elems (append_all s xs) = elems s ++ xs.
Proof. destruct xs; simpl; [by rewrite app_nil_r | done]. Qed.

Lemma elems_update_each {A} (f : A -> A) (s : slice A) :
  elems (update_each f s) = map f (elems s).
Proof. by destruct s. Qed.

Lemma assign_by_index_spec {A B} (f : nat -> A -> B) (xs : list A) :
  forall (i : nat) (pre post : list B),
    length pre = i -> length post = length xs ->
    assign_by_index f i xs (pre ++ post) = pre ++ imap (fun k => f (i + k)%nat) xs.
Proof.
  induction xs as [|x xs IH]; intros i pre post Hpre Hpost; simpl.
  - destruct post; [done | discriminate].
  - destruct post as [|p post]; [discriminate |].
    replace (<[i:=f i x]> (pre ++ p :: post)) with ((pre ++ [f i x]) ++ post).
    + rewrite IH; [| rewrite length_app; simpl; lia | simpl in Hpost; lia].
      rewrite <- app_assoc. simpl. f_equal. f_equal.
      * f_equal. lia.
      * apply imap_ext. intros k y _. simpl. f_equal. lia.
    + rewrite <- app_assoc. simpl.
      rewrite insert_app_r_alt by lia.
      replace (i - length pre)%nat with 0%nat by lia. done.
Qed.

Lemma assign_by_index_map {A B} (f : A -> B) (xs : list A) (zero : B) :
  assign_by_index (fun _ => f) 0 xs (replicate (length xs) zero) = map f xs.
Proof.
  pose proof (assign_by_index_spec (fun _ => f) xs 0 [] (replicate (length xs) zero)
                eq_refl (length_replicate _ _)) as H.
  simpl in H. rewrite H. apply imap_const.
Qed.

Lemma collect_indexes_from {A} (f : A -> list Index) (l : list A) (acc : slice Index) :
  elems (foldl (fun indexes x => append_all indexes (f x)) acc l)
    = elems acc ++ concat (map f l).
Proof.
  revert acc. induction l as [|x l IH]; intros acc; simpl.
  - by rewrite app_nil_r.
  - rewrite IH, elems_append_all, <- app_assoc. done.
Qed.

Lemma elems_collect_indexes (tables : slice Table) :
  elems (collect_indexes tables)
    = concat (map (fun t => elems (Table_Indexes t)) (elems tables)).
Proof. unfold collect_indexes. by rewrite collect_indexes_from. Qed.

(** ** Rules for [Post] *)

Lemma Post_ret {A} (a : A) (Q : A -> Prop) : Q a -> Post (mret a) Q.
Proof. intros H w. exact H. Qed.

Lemma Post_bind {A B} (m : M A) (k : A -> M B) (R : A -> Prop) (Q : B -> Prop) :
  Post m R -> (forall a, R a -> Post (k a) Q) -> Post (m ≫= k) Q.
Proof.
  intros Hm Hk w. unfold mbind, M_bind.
  specialize (Hm w). destruct (m w) as [a w1]. exact (Hk a Hm w1).
Qed.

Lemma Post_assoc {A B C} (m : M A) (k1 : A -> M B) (k2 : B -> M C) Q :
  Post (m ≫= (fun a => k1 a ≫= k2)) Q -> Post ((m ≫= k1) ≫= k2) Q.
Proof.
  intros H w. specialize (H w). unfold mbind, M_bind in *.
  by destruct (m w) as [a w1].
Qed.

Lemma Post_ret_bind {A B} (a : A) (k : A -> M B) Q :
  Post (k a) Q -> Post (mret a ≫= k) Q.
Proof. intros H w. exact (H w). Qed.

Lemma Post_True {A} (m : M A) : Post m (fun _ => True).
Proof. by intros w. Qed.

Lemma Post_QueryContext {R} (answer : World -> Query -> error + Rows R) q :
  Post (QueryContext answer q) (fun r => exists w, answer w q = r).
Proof. intros w. simpl. eauto. Qed.

Lemma Post_QueryRowScan {R} (answer : World -> Query -> error + R) q :
  Post (QueryRowScan answer q) (fun r => exists w, answer w q = r).
Proof. intros w. simpl. eauto. Qed.

Lemma Post_Scan {R} q (row : error + R) : Post (Scan q row) (fun r => r = row).
Proof. by intros w. Qed.

Lemma Post_Err {R} q (rows : Rows R) :
  Post (Err q rows) (fun e => e = iteration_err rows).
Proof. by intros w. Qed.

(** The loop keeps an invariant of the accumulator that its body keeps;
    the body may rely on the row being one of the delivered rows. *)
Lemma Post_for_rows {R S} q h (body : S -> R -> M (S * option error))
    (I : S -> Prop) (rows : list (error + R)) :
  (forall acc r, I acc -> inr r ∈ rows -> Post (body acc r) (fun res => I (fst res))) ->
  forall acc, I acc -> Post (for_rows q h body rows acc) (fun res => I (fst res)).
Proof.
  induction rows as [|row rows IH]; intros Hbody acc Hacc; simpl.
  - by apply Post_ret.
  - eapply Post_bind; [apply Post_Scan |]. intros ? ->.
    destruct row as [err | r]; [by apply Post_ret |].
    eapply Post_bind; [apply (Hbody acc r Hacc); left |].
    intros [acc' [err |]] Hacc'; simpl in Hacc'; [by apply Post_ret |].
    apply IH; [| done]. intros acc0 r0 H0 Hin. apply Hbody; [done | by right].
Qed.

(** A loop that only appends [f row]: without an error every delivered row
    was scanned, and the result is the old elements followed by the images
    of the rows, in the order of delivery. *)
Lemma for_rows_collect {R T} q h (f : R -> T)
    (body : slice T -> R -> M (slice T * option error)) (rows : list (error + R)) :
  (forall acc r w, body acc r w = ((append acc (f r), None), w)) ->
  forall (acc acc' : slice T) w w',
    for_rows q h body rows acc w = ((acc', None), w') ->
    exists rs, rows = map inr rs /\ elems acc' = elems acc ++ map f rs.
Proof.
  intros Hbody.
  induction rows as [|row rows IH]; intros acc acc' w w' H.
  - cbn in H. injection H as <- _. exists []. by rewrite app_nil_r.
  - destruct row as [err | r]; [by cbn in H |].
    simpl in H. unfold mbind, M_bind, Scan in H. simpl in H.
    rewrite Hbody in H. apply IH in H as (rs & -> & Hrs).
    exists (r :: rs). split; [done |].
    rewrite Hrs, elems_append, <- app_assoc. done.
Qed.

(** The functions that run one query and collect a value per row: a nil
    error means the driver answered with rows, all of them scanned, and no
    iteration error; the result lists one value per row, in order. *)
Lemma Post_collect {R T} (answer : World -> Query -> error + Rows R) q h0 h
    (f : R -> T) (body : slice T -> R -> M (slice T * option error)) :
  (forall acc r w, body acc r w = ((append acc (f r), None), w)) ->
  Post (res ← QueryContext answer q;
        match res with
        | inl err => mret (nil_slice, Some (h0 err))
        | inr rows =>
          '(xs, err) ← for_rows q h body (delivered rows) nil_slice;
          match err with
          | Some err => mret (nil_slice, Some err)
          | None => err ← Err q rows; mret (xs, err)
          end
        end)
    (fun res =>
       snd res = None ->
       exists w rs, answer w q = inr (mkRows (map inr rs) None) /\
                    elems (fst res) = map f rs).
Proof.
  intros Hbody w. unfold mbind, M_bind, QueryContext. simpl.
  destruct (answer w q) as [err | [rows iter]] eqn:Hanswer; [done |]. simpl.
  destruct (for_rows _ _ _ _ _ _) as [[xs [err |]] w1] eqn:Hloop; [done |].
  simpl. intros ->.
  apply (for_rows_collect _ _ f) in Hloop as (rs & -> & Hxs); [| done].
  exists w, rs. done.
Qed.

(** ** Rules for [Trace] *)

Lemma Trace_ret {A} (a : A) (Q : A -> list Event -> Prop) :
  Q a [] -> Trace (mret a) Q.
Proof. intros H w. exists []. by rewrite app_nil_r. Qed.

Lemma Trace_bind {A B} (m : M A) (k : A -> M B)
    (R : A -> list Event -> Prop) (Q : B -> list Event -> Prop) :
  Trace m R ->
  (forall a evs1, R a evs1 -> Trace (k a) (fun b evs2 => Q b (evs1 ++ evs2))) ->
  Trace (m ≫= k) Q.
Proof.
  intros Hm Hk w. unfold mbind, M_bind.
  destruct (Hm w) as (evs1 & Hw1 & HR). destruct (m w) as [a w1]. simpl in *.
  destruct (Hk a evs1 HR w1) as (evs2 & Hw2 & HQ).
  exists (evs1 ++ evs2). split; [| done].
  rewrite Hw2, Hw1, app_assoc. done.
Qed.

Lemma Trace_assoc {A B C} (m : M A) (k1 : A -> M B) (k2 : B -> M C) Q :
  Trace (m ≫= (fun a => k1 a ≫= k2)) Q -> Trace ((m ≫= k1) ≫= k2) Q.
Proof.
  intros H w. specialize (H w). unfold mbind, M_bind in *.
  by destruct (m w) as [a w1].
Qed.

Lemma Trace_ret_bind {A B} (a : A) (k : A -> M B) Q :
  Trace (k a) Q -> Trace (mret a ≫= k) Q.
Proof. intros H w. exact (H w). Qed.

Lemma Trace_weaken {A} (m : M A) (R Q : A -> list Event -> Prop) :
  Trace m R -> (forall a evs, R a evs -> Q a evs) -> Trace m Q.
Proof.
  intros Hm HRQ w. destruct (Hm w) as (evs & Hw & HR). exists evs. auto.
Qed.

Lemma Trace_QueryContext {R} (answer : World -> Query -> error + Rows R) q :
  Trace (QueryContext answer q)
    (fun r evs => evs = [mkEvent CallQueryContext q (failure r)]).
Proof. intros w. eexists. split; reflexivity. Qed.

Lemma Trace_QueryRowScan {R} (answer : World -> Query -> error + R) q :
  Trace (QueryRowScan answer q)
    (fun r evs => evs = [mkEvent CallQueryRowScan q (failure r)]).
Proof. intros w. eexists. split; reflexivity. Qed.

Lemma Trace_Scan {R} q (row : error + R) :
  Trace (Scan q row)
    (fun r evs => r = row /\ evs = [mkEvent CallRowsScan q (failure row)]).
Proof. intros w. eexists. split; [reflexivity | done]. Qed.

Lemma Trace_Err {R} q (rows : Rows R) :
  Trace (Err q rows) (fun e evs => evs = [mkEvent CallRowsErr q e]).
Proof. intros w. eexists. split; reflexivity. Qed.

Lemma Trace_time_Now clock : Trace (time_Now clock) (fun _ evs => evs = []).
Proof. intros w. exists []. by rewrite app_nil_r. Qed.

Lemma restricted_to_other schemas marks ev :
  selects_by_owner (statement (ev_query ev)) = false -> restricted_to schemas marks ev.
Proof. intros H Hsel. by rewrite H in Hsel. Qed.

Lemma unrestricted_other ev :
  selects_by_owner (statement (ev_query ev)) = false -> unrestricted ev.
Proof. intros H Hsel. by rewrite H in Hsel. Qed.

Lemma succeeded_benign ev : succeeded ev -> benign ev.
Proof. by left. Qed.

Lemma quiet_for_rows {R S} (ok : Event -> Prop) q h
    (body : S -> R -> M (S * option error)) (rows : list (error + R)) :
  (forall ev, succeeded ev -> ok ev) ->
  (forall acc r, quiet ok (body acc r)) ->
  forall acc, quiet ok (for_rows q h body rows acc).
Proof.
  intros Hok Hbody. induction rows as [|row rows IH]; intros acc; simpl.
  - apply Trace_ret. by intros _.
  - eapply Trace_bind; [apply Trace_Scan |]. intros ? evs1 [-> ->].
    destruct row as [err | r]; [by apply Trace_ret |].
    eapply Trace_bind; [apply Hbody |]. intros [acc' [err |]] evs2 H2; simpl in *.
    + by apply Trace_ret.
    + eapply Trace_weaken; [apply IH |]. simpl. intros res evs3 H3 Hnil.
      rewrite ?Forall_app, ?Forall_cons, ?Forall_app. split_and!; auto.
      by apply Hok.
Qed.

Lemma always_for_rows {R S} (P : Event -> Prop) q h
    (body : S -> R -> M (S * option error)) (rows : list (error + R)) :
  (forall err, P (mkEvent CallRowsScan q err)) ->
  (forall acc r, always P (body acc r)) ->
  forall acc, always P (for_rows q h body rows acc).
Proof.
  intros HP Hbody. induction rows as [|row rows IH]; intros acc; simpl.
  - apply Trace_ret. constructor.
  - eapply Trace_bind; [apply Trace_Scan |]. intros ? evs1 [-> ->].
    destruct row as [err | r].
    + apply Trace_ret. rewrite app_nil_r. by repeat constructor.
    + eapply Trace_bind; [apply Hbody |]. intros [acc' [err |]] evs2 H2; simpl in *.
      * apply Trace_ret. rewrite app_nil_r. by repeat constructor.
      * eapply Trace_weaken; [apply IH |]. simpl. intros res evs3 H3.
        rewrite ?Forall_app, ?Forall_cons, ?Forall_app. split_and!; auto.
Qed.

(** ** Proof automation on the shape of the program *)

Ltac destruct_tuples :=
  repeat match goal with
         | x : (_ * _)%type |- _ => destruct x
         end.

(** Goals about the driver calls collected along a path. *)
Ltac ok_events :=
  simpl in *; intros; simplify_eq/=;
  repeat match goal with
         | H : ?x = ?x -> _ |- _ => specialize (H eq_refl)
         end;
  repeat first [rewrite Forall_app | rewrite Forall_cons | rewrite Forall_nil];
  repeat split; auto;
  try (by left); try (by right); try done;
  try match goal with
      | HP : forall ev, selects_by_owner _ = false -> _ |- _ => by apply HP
      end;
  try (intros Hsel; simpl in Hsel; first [discriminate Hsel | by split]).

(** One step of a [Trace] proof: [loop] is the rule for [for_rows],
    [callee] applies the lemma of a called function. *)
Ltac trace_step loop callee :=
  lazymatch goal with
  | |- quiet _ _ => unfold quiet
  | |- always _ _ => unfold always
  | |- Trace (mret _) _ => apply Trace_ret; ok_events
  | |- Trace (match ?x with _ => _ end) _ => destruct x
  | |- Trace (if ?b then _ else _) _ => destruct b
  | |- Trace (mbind _ (if ?b then _ else _)) _ => destruct b
  | |- Trace (mbind _ (match ?x with _ => _ end)) _ => destruct x
  | |- Trace (mbind _ (mbind _ _)) _ => apply Trace_assoc
  | |- Trace (mbind _ (mret _)) _ => apply Trace_ret_bind; cbn beta iota
  | |- Trace (mbind _ (QueryContext _ _)) _ =>
    eapply Trace_bind; [apply Trace_QueryContext | intros ? ? ->]
  | |- Trace (mbind _ (QueryRowScan _ _)) _ =>
    eapply Trace_bind; [apply Trace_QueryRowScan | intros ? ? ->]
  | |- Trace (mbind _ (Err _ _)) _ =>
    eapply Trace_bind; [apply Trace_Err | intros ? ? ->]
  | |- Trace (mbind _ (time_Now _)) _ =>
    eapply Trace_bind; [apply Trace_time_Now | intros ? ? ->]
  | |- Trace (mbind _ (for_rows _ _ _ _ _)) _ =>
    eapply Trace_bind;
    [ loop; [ ok_events | intros ? ?; destruct_tuples ] | intros [? ?] ? ? ]
  | |- Trace (mbind _ _) _ =>
    eapply Trace_bind; [ callee | intros [? ?] ? ? ]
  end.

Ltac quiet_auto ok callee :=
  repeat (trace_step ltac:(apply (quiet_for_rows ok)) callee).

Ltac always_auto P callee :=
  repeat (trace_step ltac:(apply (always_for_rows P)) callee).

(** One step of a [Post] proof; the loops are handled by hand, with their
    invariant. *)
Ltac post_step callee :=
  lazymatch goal with
  | |- Post (mret _) _ => apply Post_ret
  | |- Post (match ?x with _ => _ end) _ => destruct x eqn:?
  | |- Post (if ?b then _ else _) _ => destruct b eqn:?
  | |- Post (mbind _ (if ?b then _ else _)) _ => destruct b eqn:?
  | |- Post (mbind _ (match ?x with _ => _ end)) _ => destruct x eqn:?
  | |- Post (mbind _ (mbind _ _)) _ => apply Post_assoc
  | |- Post (mbind _ (mret _)) _ => apply Post_ret_bind; cbn beta iota
  | |- Post (mbind _ (QueryContext _ _)) _ =>
    eapply Post_bind; [apply Post_QueryContext | intros ? [? ?]]
  | |- Post (mbind _ (QueryRowScan _ _)) _ =>
    eapply Post_bind; [apply Post_QueryRowScan | intros ? [? ?]]
  | |- Post (mbind _ (Err _ _)) _ =>
    eapply Post_bind; [apply Post_Err | intros ? ?]
  | |- Post (mbind _ (time_Now _)) _ =>
    eapply Post_bind; [apply Post_True | intros ? _]
  | |- Post (mbind _ (for_rows _ _ _ _ _)) _ => fail
  | |- Post (mbind _ _) _ =>
    eapply Post_bind; [ callee | intros [? ?] ? ]
  end.

(** A function that runs one query and appends one value per row keeps
    [Forall P] of what it returns: [body_tac] proves it of the loop body. *)
Ltac post_loop P callee body_tac :=
  repeat post_step callee; [constructor |];
  eapply Post_bind;
  [ apply (Post_for_rows _ _ _ (fun acc => Forall P (elems acc))); [| constructor];
    intros acc row Hacc Hin; destruct_tuples; body_tac
  | intros [xs err] Hxs; simpl in Hxs;
    repeat post_step callee; simpl; [constructor | done] ].

(** ** Propagation of driver errors *)

Lemma pg_getForeignKeyTarget_benign e schema table column :
  always benign (postgres.getForeignKeyTarget e schema table column).
Proof. unfold postgres.getForeignKeyTarget. always_auto benign fail. Qed.

Lemma pg_getColumnsForTable_quiet e schema table :
  quiet benign (postgres.getColumnsForTable e schema table).
Proof.
  unfold postgres.getColumnsForTable. quiet_auto benign
    ltac:(first [apply pg_getForeignKeyTarget_benign]).
Qed.

Lemma pg_getIndexColumns_quiet e schema index :
  quiet benign (postgres.getIndexColumns e schema index).
Proof. unfold postgres.getIndexColumns. quiet_auto benign fail. Qed.

Lemma pg_getIndexesForTable_quiet e schema table :
  quiet benign (postgres.getIndexesForTable e schema table).
Proof.
  unfold postgres.getIndexesForTable. quiet_auto benign
    ltac:(first [apply pg_getIndexColumns_quiet]).
Qed.

Lemma pg_GetDatabaseInfo_quiet e :
  quiet benign (postgres.GetDatabaseInfo e).
Proof. unfold postgres.GetDatabaseInfo. quiet_auto benign fail. Qed.

Lemma pg_GetTables_quiet e :
  quiet benign (postgres.GetTables e).
Proof.
  unfold postgres.GetTables. quiet_auto benign
    ltac:(first [apply pg_getColumnsForTable_quiet | apply pg_getIndexesForTable_quiet]).
Qed.

Lemma pg_GetViews_quiet e :
  quiet benign (postgres.GetViews e).
Proof.
  unfold postgres.GetViews. quiet_auto benign
    ltac:(first [apply pg_getColumnsForTable_quiet]).
Qed.

Lemma pg_GetRoutines_quiet e :
  quiet benign (postgres.GetRoutines e).
Proof. unfold postgres.GetRoutines. quiet_auto benign fail. Qed.

Lemma pg_GetSequences_quiet e :
  quiet benign (postgres.GetSequences e).
Proof. unfold postgres.GetSequences. quiet_auto benign fail. Qed.

Lemma pg_GetTriggers_quiet e :
  quiet benign (postgres.GetTriggers e).
Proof. unfold postgres.GetTriggers. quiet_auto benign fail. Qed.

Lemma pg_GetSynonyms_quiet e :
  quiet benign (postgres.GetSynonyms e).
Proof. unfold postgres.GetSynonyms. quiet_auto benign fail. Qed.

Lemma pg_ExtractSchema_quiet e :
  quiet benign (postgres.ExtractSchema e).
Proof.
  unfold postgres.ExtractSchema. quiet_auto benign
    ltac:(first [apply pg_GetDatabaseInfo_quiet | apply pg_GetTables_quiet
                  | apply pg_GetViews_quiet | apply pg_GetRoutines_quiet
                  | apply pg_GetSequences_quiet | apply pg_GetTriggers_quiet
                  | apply pg_GetSynonyms_quiet]).
Qed.

Lemma ms_getForeignKeyTarget_benign e schema table column :
  always benign (mssql.getForeignKeyTarget e schema table column).
Proof. unfold mssql.getForeignKeyTarget. always_auto benign fail. Qed.

Lemma ms_getColumnsForTable_quiet e schema table :
  quiet benign (mssql.getColumnsForTable e schema table).
Proof.
  unfold mssql.getColumnsForTable. quiet_auto benign
    ltac:(first [apply ms_getForeignKeyTarget_benign]).
Qed.

Lemma ms_getIndexColumns_quiet e schema table index :
  quiet benign (mssql.getIndexColumns e schema table index).
Proof. unfold mssql.getIndexColumns. quiet_auto benign fail. Qed.

Lemma ms_getIndexesForTable_quiet e schema table :
  quiet benign (mssql.getIndexesForTable e schema table).
Proof.
  unfold mssql.getIndexesForTable. quiet_auto benign
    ltac:(first [apply ms_getIndexColumns_quiet]).
Qed.

Lemma ms_getColumnsForView_quiet e schema view :
  quiet benign (mssql.getColumnsForView e schema view).
Proof. unfold mssql.getColumnsForView. quiet_auto benign fail. Qed.

Lemma ms_getRoutineParameters_quiet e schema routine :
  quiet benign (mssql.getRoutineParameters e schema routine).
Proof. unfold mssql.getRoutineParameters. quiet_auto benign fail. Qed.

Lemma ms_GetDatabaseInfo_quiet e :
  quiet benign (mssql.GetDatabaseInfo e).
Proof. unfold mssql.GetDatabaseInfo. quiet_auto benign fail. Qed.

Lemma ms_GetTables_quiet e :
  quiet benign (mssql.GetTables e).
Proof.
  unfold mssql.GetTables. quiet_auto benign
    ltac:(first [apply ms_getColumnsForTable_quiet | apply ms_getIndexesForTable_quiet]).
Qed.

Lemma ms_GetViews_quiet e :
  quiet benign (mssql.GetViews e).
Proof.
  unfold mssql.GetViews. quiet_auto benign
    ltac:(first [apply ms_getColumnsForView_quiet]).
Qed.

Lemma ms_GetRoutines_quiet e :
  quiet benign (mssql.GetRoutines e).
Proof.
  unfold mssql.GetRoutines. quiet_auto benign
    ltac:(first [apply ms_getRoutineParameters_quiet]).
Qed.

Lemma ms_GetSequences_quiet e :
  quiet benign (mssql.GetSequences e).
Proof. unfold mssql.GetSequences. quiet_auto benign fail. Qed.

Lemma ms_GetTriggers_quiet e :
  quiet benign (mssql.GetTriggers e).
Proof. unfold mssql.GetTriggers. quiet_auto benign fail. Qed.

Lemma ms_GetSynonyms_quiet e :
  quiet benign (mssql.GetSynonyms e).
Proof. unfold mssql.GetSynonyms. quiet_auto benign fail. Qed.

Lemma ms_ExtractSchema_quiet e :
  quiet benign (mssql.ExtractSchema e).
Proof.
  unfold mssql.ExtractSchema. quiet_auto benign
    ltac:(first [apply ms_GetDatabaseInfo_quiet | apply ms_GetTables_quiet
                  | apply ms_GetViews_quiet | apply ms_GetRoutines_quiet
                  | apply ms_GetSequences_quiet | apply ms_GetTriggers_quiet
                  | apply ms_GetSynonyms_quiet]).
Qed.

Lemma my_getForeignKeyTarget_benign e schema table column :
  always benign (mysql.getForeignKeyTarget e schema table column).
Proof. unfold mysql.getForeignKeyTarget. always_auto benign fail. Qed.

Lemma my_getColumnsForTable_quiet e schema table :
  quiet benign (mysql.getColumnsForTable e schema table).
Proof.
  unfold mysql.getColumnsForTable. quiet_auto benign
    ltac:(first [apply my_getForeignKeyTarget_benign]).
Qed.

Lemma my_getIndexColumns_quiet e schema table index :
  quiet benign (mysql.getIndexColumns e schema table index).
Proof. unfold mysql.getIndexColumns. quiet_auto benign fail. Qed.

Lemma my_getIndexesForTable_quiet e schema table :
  quiet benign (mysql.getIndexesForTable e schema table).
Proof.
  unfold mysql.getIndexesForTable. quiet_auto benign
    ltac:(first [apply my_getIndexColumns_quiet]).
Qed.

Lemma my_getRoutineParameters_quiet e schema routine :
  quiet benign (mysql.getRoutineParameters e schema routine).
Proof. unfold mysql.getRoutineParameters. quiet_auto benign fail. Qed.

Lemma my_GetDatabaseInfo_quiet e :
  quiet benign (mysql.GetDatabaseInfo e).
Proof. unfold mysql.GetDatabaseInfo. quiet_auto benign fail. Qed.

Lemma my_GetTables_quiet e :
  quiet benign (mysql.GetTables e).
Proof.
  unfold mysql.GetTables. quiet_auto benign
    ltac:(first [apply my_getColumnsForTable_quiet | apply my_getIndexesForTable_quiet]).
Qed.

Lemma my_GetViews_quiet e :
  quiet benign (mysql.GetViews e).
Proof.
  unfold mysql.GetViews. quiet_auto benign
    ltac:(first [apply my_getColumnsForTable_quiet]).
Qed.

Lemma my_GetRoutines_quiet e :
  quiet benign (mysql.GetRoutines e).
Proof.
  unfold mysql.GetRoutines. quiet_auto benign
    ltac:(first [apply my_getRoutineParameters_quiet]).
Qed.

Lemma my_GetSequences_quiet e :
  quiet benign (mysql.GetSequences e).
Proof. unfold mysql.GetSequences. quiet_auto benign fail. Qed.

Lemma my_GetTriggers_quiet e :
  quiet benign (mysql.GetTriggers e).
Proof. unfold mysql.GetTriggers. quiet_auto benign fail. Qed.

Lemma my_GetSynonyms_quiet e :
  quiet benign (mysql.GetSynonyms e).
Proof. unfold mysql.GetSynonyms. quiet_auto benign fail. Qed.

Lemma my_ExtractSchema_quiet e :
  quiet benign (mysql.ExtractSchema e).
Proof.
  unfold mysql.ExtractSchema. quiet_auto benign
    ltac:(first [apply my_GetDatabaseInfo_quiet | apply my_GetTables_quiet
                  | apply my_GetViews_quiet | apply my_GetRoutines_quiet
                  | apply my_GetSequences_quiet | apply my_GetTriggers_quiet
                  | apply my_GetSynonyms_quiet]).
Qed.

Lemma ora_enrichColumnsWithConstraints_quiet e owner table columns :
  quiet succeeded (oracle.enrichColumnsWithConstraints e owner table columns).
Proof. unfold oracle.enrichColumnsWithConstraints. quiet_auto succeeded fail. Qed.

Lemma ora_getColumnsForTable_quiet e owner table :
  quiet succeeded (oracle.getColumnsForTable e owner table).
Proof.
  unfold oracle.getColumnsForTable. quiet_auto succeeded
    ltac:(first [apply ora_enrichColumnsWithConstraints_quiet]).
Qed.

Lemma ora_getIndexColumns_quiet e owner index :
  quiet succeeded (oracle.getIndexColumns e owner index).
Proof. unfold oracle.getIndexColumns. quiet_auto succeeded fail. Qed.

Lemma ora_getIndexesForTable_quiet e owner table :
  quiet succeeded (oracle.getIndexesForTable e owner table).
Proof.
  unfold oracle.getIndexesForTable. quiet_auto succeeded
    ltac:(first [apply ora_getIndexColumns_quiet]).
Qed.

Lemma ora_getRoutineArguments_quiet e owner object :
  quiet succeeded (oracle.getRoutineArguments e owner object).
Proof. unfold oracle.getRoutineArguments. quiet_auto succeeded fail. Qed.

Lemma ora_GetDatabaseInfo_quiet e :
  quiet succeeded (oracle.GetDatabaseInfo e).
Proof. unfold oracle.GetDatabaseInfo. quiet_auto succeeded fail. Qed.

Lemma ora_GetTables_quiet e :
  quiet succeeded (oracle.GetTables e).
Proof.
  unfold oracle.GetTables. quiet_auto succeeded
    ltac:(first [apply ora_getColumnsForTable_quiet
                  | apply ora_getIndexesForTable_quiet]).
Qed.

Lemma ora_GetViews_quiet e :
  quiet succeeded (oracle.GetViews e).
Proof.
  unfold oracle.GetViews. quiet_auto succeeded
    ltac:(first [apply ora_getColumnsForTable_quiet]).
Qed.

Lemma ora_GetRoutines_quiet e :
  quiet succeeded (oracle.GetRoutines e).
Proof.
  unfold oracle.GetRoutines. quiet_auto succeeded
    ltac:(first [apply ora_getRoutineArguments_quiet]).
Qed.

Lemma ora_GetSequences_quiet e :
  quiet succeeded (oracle.GetSequences e).
Proof. unfold oracle.GetSequences. quiet_auto succeeded fail. Qed.

Lemma ora_GetTriggers_quiet e :
  quiet succeeded (oracle.GetTriggers e).
Proof. unfold oracle.GetTriggers. quiet_auto succeeded fail. Qed.

Lemma ora_GetSynonyms_quiet e :
  quiet succeeded (oracle.GetSynonyms e).
Proof. unfold oracle.GetSynonyms. quiet_auto succeeded fail. Qed.

Lemma ora_ExtractSchema_quiet e :
  quiet succeeded (oracle.ExtractSchema e).
Proof.
  unfold oracle.ExtractSchema. quiet_auto succeeded
    ltac:(first [apply ora_GetDatabaseInfo_quiet | apply ora_GetTables_quiet
                  | apply ora_GetViews_quiet | apply ora_GetRoutines_quiet
                  | apply ora_GetSequences_quiet | apply ora_GetTriggers_quiet
                  | apply ora_GetSynonyms_quiet]).
Qed.

(** ** The schema filter in the queries *)

Ltac filter_premise :=
  first [eassumption | apply restricted_to_other | apply unrestricted_other].

Lemma pg_getForeignKeyTarget_filter e (P : Event -> Prop) schema table column :
  (forall ev, selects_by_owner (statement (ev_query ev)) = false -> P ev) ->
  always P (postgres.getForeignKeyTarget e schema table column).
Proof.
  intros HP. unfold postgres.getForeignKeyTarget.
  always_auto P
    fail.
Qed.

Lemma pg_getColumnsForTable_filter e (P : Event -> Prop) schema table :
  (forall ev, selects_by_owner (statement (ev_query ev)) = false -> P ev) ->
  always P (postgres.getColumnsForTable e schema table).
Proof.
  intros HP. unfold postgres.getColumnsForTable.
  always_auto P
    ltac:(first [apply (pg_getForeignKeyTarget_filter e (P)); filter_premise]).
Qed.

Lemma pg_getIndexColumns_filter e (P : Event -> Prop) schema index :
  (forall ev, selects_by_owner (statement (ev_query ev)) = false -> P ev) ->
  always P (postgres.getIndexColumns e schema index).
Proof.
  intros HP. unfold postgres.getIndexColumns.
  always_auto P
    fail.
Qed.

Lemma pg_getIndexesForTable_filter e (P : Event -> Prop) schema table :
  (forall ev, selects_by_owner (statement (ev_query ev)) = false -> P ev) ->
  always P (postgres.getIndexesForTable e schema table).
Proof.
  intros HP. unfold postgres.getIndexesForTable.
  always_auto P
    ltac:(first [apply (pg_getIndexColumns_filter e (P)); filter_premise]).
Qed.

Lemma pg_GetDatabaseInfo_filter e (P : Event -> Prop) :
  (forall ev, selects_by_owner (statement (ev_query ev)) = false -> P ev) ->
  always P (postgres.GetDatabaseInfo e).
Proof.
  intros HP. unfold postgres.GetDatabaseInfo.
  always_auto P
    fail.
Qed.

Lemma pg_GetTables_filter e :
  postgres.schemaFilter e = mk_slice ["public"] ->
  always (restricted_to ["public"] "$1") (postgres.GetTables e).
Proof.
  intros Hf. unfold postgres.GetTables; rewrite ?Hf.
  always_auto (restricted_to ["public"] "$1")
      ltac:(first [apply (pg_getColumnsForTable_filter e (restricted_to ["public"] "$1")); filter_premise
                    | apply (pg_getIndexesForTable_filter e (restricted_to ["public"] "$1")); filter_premise]).
Qed.

Lemma pg_GetViews_filter e :
  postgres.schemaFilter e = mk_slice ["public"] ->
  always (restricted_to ["public"] "$1") (postgres.GetViews e).
Proof.
  intros Hf. unfold postgres.GetViews; rewrite ?Hf.
  always_auto (restricted_to ["public"] "$1")
      ltac:(first [apply (pg_getColumnsForTable_filter e (restricted_to ["public"] "$1")); filter_premise]).
Qed.

Lemma pg_GetRoutines_filter e :
  postgres.schemaFilter e = mk_slice ["public"] ->
  always (restricted_to ["public"] "$1") (postgres.GetRoutines e).
Proof.
  intros Hf. unfold postgres.GetRoutines; rewrite ?Hf.
  always_auto (restricted_to ["public"] "$1")
    fail.
Qed.

Lemma pg_GetSequences_filter e :
  postgres.schemaFilter e = mk_slice ["public"] ->
  always (restricted_to ["public"] "$1") (postgres.GetSequences e).
Proof.
  intros Hf. unfold postgres.GetSequences; rewrite ?Hf.
  always_auto (restricted_to ["public"] "$1")
    fail.
Qed.

Lemma pg_GetTriggers_filter e :
  postgres.schemaFilter e = mk_slice ["public"] ->
  always (restricted_to ["public"] "$1") (postgres.GetTriggers e).
Proof.
  intros Hf. unfold postgres.GetTriggers; rewrite ?Hf.
  always_auto (restricted_to ["public"] "$1")
    fail.
Qed.

Lemma pg_GetSynonyms_filter e (P : Event -> Prop) :
  (forall ev, selects_by_owner (statement (ev_query ev)) = false -> P ev) ->
  always P (postgres.GetSynonyms e).
Proof.
  intros HP. unfold postgres.GetSynonyms.
  always_auto P
    fail.
Qed.

Lemma pg_ExtractSchema_filter e :
  postgres.schemaFilter e = mk_slice ["public"] ->
  always (restricted_to ["public"] "$1") (postgres.ExtractSchema e).
Proof.
  intros Hf. unfold postgres.ExtractSchema; rewrite ?Hf.
  always_auto (restricted_to ["public"] "$1")
      ltac:(first [apply (pg_GetDatabaseInfo_filter e (restricted_to ["public"] "$1")); filter_premise
                    | apply pg_GetTables_filter; filter_premise
                    | apply pg_GetViews_filter; filter_premise
                    | apply pg_GetRoutines_filter; filter_premise
                    | apply pg_GetSequences_filter; filter_premise
                    | apply pg_GetTriggers_filter; filter_premise
                    | apply (pg_GetSynonyms_filter e (restricted_to ["public"] "$1")); filter_premise]).
Qed.

Lemma ms_getForeignKeyTarget_filter e (P : Event -> Prop) schema table column :
  (forall ev, selects_by_owner (statement (ev_query ev)) = false -> P ev) ->
  always P (mssql.getForeignKeyTarget e schema table column).
Proof.
  intros HP. unfold mssql.getForeignKeyTarget.
  always_auto P
    fail.
Qed.

Lemma ms_getColumnsForTable_filter e (P : Event -> Prop) schema table :
  (forall ev, selects_by_owner (statement (ev_query ev)) = false -> P ev) ->
  always P (mssql.getColumnsForTable e schema table).
Proof.
  intros HP. unfold mssql.getColumnsForTable.
  always_auto P
    ltac:(first [apply (ms_getForeignKeyTarget_filter e (P)); filter_premise]).
Qed.

Lemma ms_getIndexColumns_filter e (P : Event -> Prop) schema table index :
  (forall ev, selects_by_owner (statement (ev_query ev)) = false -> P ev) ->
  always P (mssql.getIndexColumns e schema table index).
Proof.
  intros HP. unfold mssql.getIndexColumns.
  always_auto P
    fail.
Qed.

Lemma ms_getIndexesForTable_filter e (P : Event -> Prop) schema table :
  (forall ev, selects_by_owner (statement (ev_query ev)) = false -> P ev) ->
  always P (mssql.getIndexesForTable e schema table).
Proof.
  intros HP. unfold mssql.getIndexesForTable.
  always_auto P
    ltac:(first [apply (ms_getIndexColumns_filter e (P)); filter_premise]).
Qed.

Lemma ms_getColumnsForView_filter e (P : Event -> Prop) schema view :
  (forall ev, selects_by_owner (statement (ev_query ev)) = false -> P ev) ->
  always P (mssql.getColumnsForView e schema view).
Proof.
  intros HP. unfold mssql.getColumnsForView.
  always_auto P
    fail.
Qed.

Lemma ms_getRoutineParameters_filter e (P : Event -> Prop) schema routine :
  (forall ev, selects_by_owner (statement (ev_query ev)) = false -> P ev) ->
  always P (mssql.getRoutineParameters e schema routine).
Proof.
  intros HP. unfold mssql.getRoutineParameters.
  always_auto P
    fail.
Qed.

Lemma ms_GetDatabaseInfo_filter e (P : Event -> Prop) :
  (forall ev, selects_by_owner (statement (ev_query ev)) = false -> P ev) ->
  always P (mssql.GetDatabaseInfo e).
Proof.
  intros HP. unfold mssql.GetDatabaseInfo.
  always_auto P
    fail.
Qed.

Lemma ms_GetTables_filter e :
  mssql.schemaFilter e = mk_slice ["dbo"] ->
  always (restricted_to ["dbo"] "@p1") (mssql.GetTables e).
Proof.
  intros Hf. unfold mssql.GetTables; rewrite ?Hf.
  always_auto (restricted_to ["dbo"] "@p1")
      ltac:(first [apply (ms_getColumnsForTable_filter e (restricted_to ["dbo"] "@p1")); filter_premise
                    | apply (ms_getIndexesForTable_filter e (restricted_to ["dbo"] "@p1")); filter_premise]).
Qed.

Lemma ms_GetViews_filter e :
  mssql.schemaFilter e = mk_slice ["dbo"] ->
  always (restricted_to ["dbo"] "@p1") (mssql.GetViews e).
Proof.
  intros Hf. unfold mssql.GetViews; rewrite ?Hf.
  always_auto (restricted_to ["dbo"] "@p1")
      ltac:(first [apply (ms_getColumnsForView_filter e (restricted_to ["dbo"] "@p1")); filter_premise]).
Qed.

Lemma ms_GetRoutines_filter e :
  mssql.schemaFilter e = mk_slice ["dbo"] ->
  always (restricted_to ["dbo"] "@p1") (mssql.GetRoutines e).
Proof.
  intros Hf. unfold mssql.GetRoutines; rewrite ?Hf.
  always_auto (restricted_to ["dbo"] "@p1")
      ltac:(first [apply (ms_getRoutineParameters_filter e (restricted_to ["dbo"] "@p1")); filter_premise]).
Qed.

Lemma ms_GetSequences_filter e :
  mssql.schemaFilter e = mk_slice ["dbo"] ->
  always (restricted_to ["dbo"] "@p1") (mssql.GetSequences e).
Proof.
  intros Hf. unfold mssql.GetSequences; rewrite ?Hf.
  always_auto (restricted_to ["dbo"] "@p1")
    fail.
Qed.

Lemma ms_GetTriggers_filter e :
  mssql.schemaFilter e = mk_slice ["dbo"] ->
  always (restricted_to ["dbo"] "@p1") (mssql.GetTriggers e).
Proof.
  intros Hf. unfold mssql.GetTriggers; rewrite ?Hf.
  always_auto (restricted_to ["dbo"] "@p1")
    fail.
Qed.

Lemma ms_GetSynonyms_filter e :
  mssql.schemaFilter e = mk_slice ["dbo"] ->
  always (restricted_to ["dbo"] "@p1") (mssql.GetSynonyms e).
Proof.
  intros Hf. unfold mssql.GetSynonyms; rewrite ?Hf.
  always_auto (restricted_to ["dbo"] "@p1")
    fail.
Qed.

Lemma ms_ExtractSchema_filter e :
  mssql.schemaFilter e = mk_slice ["dbo"] ->
  always (restricted_to ["dbo"] "@p1") (mssql.ExtractSchema e).
Proof.
  intros Hf. unfold mssql.ExtractSchema; rewrite ?Hf.
  always_auto (restricted_to ["dbo"] "@p1")
      ltac:(first [apply (ms_GetDatabaseInfo_filter e (restricted_to ["dbo"] "@p1")); filter_premise
                    | apply ms_GetTables_filter; filter_premise
                    | apply ms_GetViews_filter; filter_premise
                    | apply ms_GetRoutines_filter; filter_premise
                    | apply ms_GetSequences_filter; filter_premise
                    | apply ms_GetTriggers_filter; filter_premise
                    | apply ms_GetSynonyms_filter; filter_premise]).
Qed.

Lemma my_getForeignKeyTarget_filter e (P : Event -> Prop) schema table column :
  (forall ev, selects_by_owner (statement (ev_query ev)) = false -> P ev) ->
  always P (mysql.getForeignKeyTarget e schema table column).
Proof.
  intros HP. unfold mysql.getForeignKeyTarget.
  always_auto P
    fail.
Qed.

Lemma my_getColumnsForTable_filter e (P : Event -> Prop) schema table :
  (forall ev, selects_by_owner (statement (ev_query ev)) = false -> P ev) ->
  always P (mysql.getColumnsForTable e schema table).
Proof.
  intros HP. unfold mysql.getColumnsForTable.
  always_auto P
    ltac:(first [apply (my_getForeignKeyTarget_filter e (P)); filter_premise]).
Qed.

Lemma my_getIndexColumns_filter e (P : Event -> Prop) schema table index :
  (forall ev, selects_by_owner (statement (ev_query ev)) = false -> P ev) ->
  always P (mysql.getIndexColumns e schema table index).
Proof.
  intros HP. unfold mysql.getIndexColumns.
  always_auto P
    fail.
Qed.

Lemma my_getIndexesForTable_filter e (P : Event -> Prop) schema table :
  (forall ev, selects_by_owner (statement (ev_query ev)) = false -> P ev) ->
  always P (mysql.getIndexesForTable e schema table).
Proof.
  intros HP. unfold mysql.getIndexesForTable.
  always_auto P
    ltac:(first [apply (my_getIndexColumns_filter e (P)); filter_premise]).
Qed.

Lemma my_getRoutineParameters_filter e (P : Event -> Prop) schema routine :
  (forall ev, selects_by_owner (statement (ev_query ev)) = false -> P ev) ->
  always P (mysql.getRoutineParameters e schema routine).
Proof.
  intros HP. unfold mysql.getRoutineParameters.
  always_auto P
    fail.
Qed.

Lemma my_GetDatabaseInfo_filter e (P : Event -> Prop) :
  (forall ev, selects_by_owner (statement (ev_query ev)) = false -> P ev) ->
  always P (mysql.GetDatabaseInfo e).
Proof.
  intros HP. unfold mysql.GetDatabaseInfo.
  always_auto P
    fail.
Qed.

Lemma my_GetTables_filter e database :
  mysql.schemaFilter e = mk_slice [database] ->
  always (restricted_to [database] "?") (mysql.GetTables e).
Proof.
  intros Hf. unfold mysql.GetTables; rewrite ?Hf.
  always_auto (restricted_to [database] "?")
      ltac:(first [apply (my_getColumnsForTable_filter e (restricted_to [database] "?")); filter_premise
                    | apply (my_getIndexesForTable_filter e (restricted_to [database] "?")); filter_premise]).
Qed.

Lemma my_GetViews_filter e database :
  mysql.schemaFilter e = mk_slice [database] ->
  always (restricted_to [database] "?") (mysql.GetViews e).
Proof.
  intros Hf. unfold mysql.GetViews; rewrite ?Hf.
  always_auto (restricted_to [database] "?")
      ltac:(first [apply (my_getColumnsForTable_filter e (restricted_to [database] "?")); filter_premise]).
Qed.

Lemma my_GetRoutines_filter e database :
  mysql.schemaFilter e = mk_slice [database] ->
  always (restricted_to [database] "?") (mysql.GetRoutines e).
Proof.
  intros Hf. unfold mysql.GetRoutines; rewrite ?Hf.
  always_auto (restricted_to [database] "?")
      ltac:(first [apply (my_getRoutineParameters_filter e (restricted_to [database] "?")); filter_premise]).
Qed.

Lemma my_GetSequences_filter e (P : Event -> Prop) :
  (forall ev, selects_by_owner (statement (ev_query ev)) = false -> P ev) ->
  always P (mysql.GetSequences e).
Proof.
  intros HP. unfold mysql.GetSequences.
  always_auto P
    fail.
Qed.

Lemma my_GetTriggers_filter e database :
  mysql.schemaFilter e = mk_slice [database] ->
  always (restricted_to [database] "?") (mysql.GetTriggers e).
Proof.
  intros Hf. unfold mysql.GetTriggers; rewrite ?Hf.
  always_auto (restricted_to [database] "?")
    fail.
Qed.

Lemma my_GetSynonyms_filter e (P : Event -> Prop) :
  (forall ev, selects_by_owner (statement (ev_query ev)) = false -> P ev) ->
  always P (mysql.GetSynonyms e).
Proof.
  intros HP. unfold mysql.GetSynonyms.
  always_auto P
    fail.
Qed.

Lemma my_ExtractSchema_filter e database :
  mysql.schemaFilter e = mk_slice [database] ->
  always (restricted_to [database] "?") (mysql.ExtractSchema e).
Proof.
  intros Hf. unfold mysql.ExtractSchema; rewrite ?Hf.
  always_auto (restricted_to [database] "?")
      ltac:(first [apply (my_GetDatabaseInfo_filter e (restricted_to [database] "?")); filter_premise
                    | apply my_GetTables_filter; filter_premise
                    | apply my_GetViews_filter; filter_premise
                    | apply my_GetRoutines_filter; filter_premise
                    | apply (my_GetSequences_filter e (restricted_to [database] "?")); filter_premise
                    | apply my_GetTriggers_filter; filter_premise
                    | apply (my_GetSynonyms_filter e (restricted_to [database] "?")); filter_premise]).
Qed.

Lemma ora_enrichColumnsWithConstraints_filter e (P : Event -> Prop) owner table columns :
  (forall ev, selects_by_owner (statement (ev_query ev)) = false -> P ev) ->
  always P (oracle.enrichColumnsWithConstraints e owner table columns).
Proof.
  intros HP. unfold oracle.enrichColumnsWithConstraints.
  always_auto P
    fail.
Qed.

Lemma ora_getColumnsForTable_filter e (P : Event -> Prop) owner table :
  (forall ev, selects_by_owner (statement (ev_query ev)) = false -> P ev) ->
  always P (oracle.getColumnsForTable e owner table).
Proof.
  intros HP. unfold oracle.getColumnsForTable.
  always_auto P
    ltac:(first [apply (ora_enrichColumnsWithConstraints_filter e (P)); filter_premise]).
Qed.

Lemma ora_getIndexColumns_filter e (P : Event -> Prop) owner index :
  (forall ev, selects_by_owner (statement (ev_query ev)) = false -> P ev) ->
  always P (oracle.getIndexColumns e owner index).
Proof.
  intros HP. unfold oracle.getIndexColumns.
  always_auto P
    fail.
Qed.

Lemma ora_getIndexesForTable_filter e (P : Event -> Prop) owner table :
  (forall ev, selects_by_owner (statement (ev_query ev)) = false -> P ev) ->
  always P (oracle.getIndexesForTable e owner table).
Proof.
  intros HP. unfold oracle.getIndexesForTable.
  always_auto P
    ltac:(first [apply (ora_getIndexColumns_filter e (P)); filter_premise]).
Qed.

Lemma ora_getRoutineArguments_filter e (P : Event -> Prop) owner object :
  (forall ev, selects_by_owner (statement (ev_query ev)) = false -> P ev) ->
  always P (oracle.getRoutineArguments e owner object).
Proof.
  intros HP. unfold oracle.getRoutineArguments.
  always_auto P
    fail.
Qed.

Lemma ora_GetDatabaseInfo_filter e (P : Event -> Prop) :
  (forall ev, selects_by_owner (statement (ev_query ev)) = false -> P ev) ->
  always P (oracle.GetDatabaseInfo e).
Proof.
  intros HP. unfold oracle.GetDatabaseInfo.
  always_auto P
    fail.
Qed.

Lemma ora_GetTables_filter e :
  elems (oracle.schemaFilter e) = [] ->
  always (unrestricted) (oracle.GetTables e).
Proof.
  intros Hf. unfold oracle.GetTables, filter_clause, filter_args, len; rewrite ?Hf.
  always_auto (unrestricted)
      ltac:(first [apply (ora_getColumnsForTable_filter e (unrestricted)); filter_premise
                    | apply (ora_getIndexesForTable_filter e (unrestricted)); filter_premise]).
Qed.

Lemma ora_GetViews_filter e :
  elems (oracle.schemaFilter e) = [] ->
  always (unrestricted) (oracle.GetViews e).
Proof.
  intros Hf. unfold oracle.GetViews, filter_clause, filter_args, len; rewrite ?Hf.
  always_auto (unrestricted)
    ltac:(first [apply (ora_getColumnsForTable_filter e (unrestricted)); filter_premise]).
Qed.

Lemma ora_GetRoutines_filter e :
  elems (oracle.schemaFilter e) = [] ->
  always (unrestricted) (oracle.GetRoutines e).
Proof.
  intros Hf. unfold oracle.GetRoutines, filter_clause, filter_args, len; rewrite ?Hf.
  always_auto (unrestricted)
      ltac:(first [apply (ora_getRoutineArguments_filter e (unrestricted)); filter_premise]).
Qed.

Lemma ora_GetSequences_filter e :
  elems (oracle.schemaFilter e) = [] ->
  always (unrestricted) (oracle.GetSequences e).
Proof.
  intros Hf. unfold oracle.GetSequences, filter_clause, filter_args, len; rewrite ?Hf.
  always_auto (unrestricted)
    fail.
Qed.

Lemma ora_GetTriggers_filter e :
  elems (oracle.schemaFilter e) = [] ->
  always (unrestricted) (oracle.GetTriggers e).
Proof.
  intros Hf. unfold oracle.GetTriggers, filter_clause, filter_args, len; rewrite ?Hf.
  always_auto (unrestricted)
    fail.
Qed.

Lemma ora_GetSynonyms_filter e :
  elems (oracle.schemaFilter e) = [] ->
  always (unrestricted) (oracle.GetSynonyms e).
Proof.
  intros Hf. unfold oracle.GetSynonyms, filter_clause, filter_args, len; rewrite ?Hf.
  always_auto (unrestricted)
    fail.
Qed.

Lemma ora_ExtractSchema_filter e :
  elems (oracle.schemaFilter e) = [] ->
  always (unrestricted) (oracle.ExtractSchema e).
Proof.
  intros Hf. unfold oracle.ExtractSchema, filter_clause, filter_args, len; rewrite ?Hf.
  always_auto (unrestricted)
      ltac:(first [apply (ora_GetDatabaseInfo_filter e (unrestricted)); filter_premise
                    | apply ora_GetTables_filter; filter_premise
                    | apply ora_GetViews_filter; filter_premise
                    | apply ora_GetRoutines_filter; filter_premise
                    | apply ora_GetSequences_filter; filter_premise
                    | apply ora_GetTriggers_filter; filter_premise
                    | apply ora_GetSynonyms_filter; filter_premise]).
Qed.

(** ** Foreign-key targets *)

Lemma fk_info_lookup (t c : string) :
  default "" ((<["column" := c]> (<["table" := t]> (∅ : gmap string string))) !! "table") = t /\
  default "" ((<["column" := c]> (<["table" := t]> (∅ : gmap string string))) !! "column") = c.
Proof.
  split.
  - rewrite lookup_insert_ne by done. by rewrite lookup_insert_eq.
  - by rewrite lookup_insert_eq.
Qed.

Ltac fk_lookup_post :=
  repeat post_step fail; simpl; try done; subst;
  match goal with
  | Hb : Valid ?t && Valid ?c = true, Ha : _ = inr (?t, ?c) |- _ =>
    destruct t as [ts tv], c as [cs cv]; simpl in Hb;
    apply andb_prop in Hb as [-> ->];
    intros _ fkInfo [= <-];
    destruct (fk_info_lookup ts cs) as [-> ->];
    eexists; exact Ha
  end.

Lemma pg_getForeignKeyTarget_post e schema table column :
  Post (postgres.getForeignKeyTarget e schema table column)
    (fun res =>
       snd res = None -> forall fkInfo, fst res = Some fkInfo ->
       fk_resolved (PostgreSQL e) schema table column
         (default "" (fkInfo !! "table")) (default "" (fkInfo !! "column"))).
Proof. unfold postgres.getForeignKeyTarget. fk_lookup_post. Qed.

Lemma ms_getForeignKeyTarget_post e schema table column :
  Post (mssql.getForeignKeyTarget e schema table column)
    (fun res =>
       snd res = None -> forall fkInfo, fst res = Some fkInfo ->
       fk_resolved (MSSQL e) schema table column
         (default "" (fkInfo !! "table")) (default "" (fkInfo !! "column"))).
Proof. unfold mssql.getForeignKeyTarget. fk_lookup_post. Qed.

Lemma my_getForeignKeyTarget_post e schema table column :
  Post (mysql.getForeignKeyTarget e schema table column)
    (fun res =>
       snd res = None -> forall fkInfo, fst res = Some fkInfo ->
       fk_resolved (MySQL e) schema table column
         (default "" (fkInfo !! "table")) (default "" (fkInfo !! "column"))).
Proof. unfold mysql.getForeignKeyTarget. fk_lookup_post. Qed.

(** The body of the column loop, for the three adapters that look the
    target up per column. *)
Ltac fk_column_body lookup :=
  repeat post_step ltac:(apply lookup); simpl in *;
  (apply Forall_app; split; [done |]; apply Forall_singleton);
  first [ by left
        | right; split; [done |]; simpl;
          match goal with H : _ -> forall _, _ -> _ |- _ => by apply H end ].

Lemma pg_getColumnsForTable_fk e schema table :
  Post (postgres.getColumnsForTable e schema table)
    (fun res => Forall (fk_targets_by_design (PostgreSQL e) schema table)
                  (elems (fst res))).
Proof.
  unfold postgres.getColumnsForTable.
  post_loop (fk_targets_by_design (PostgreSQL e) schema table) fail
    ltac:(fk_column_body pg_getForeignKeyTarget_post).
Qed.

Lemma ms_getColumnsForTable_fk e schema table :
  Post (mssql.getColumnsForTable e schema table)
    (fun res => Forall (fk_targets_by_design (MSSQL e) schema table)
                  (elems (fst res))).
Proof.
  unfold mssql.getColumnsForTable.
  post_loop (fk_targets_by_design (MSSQL e) schema table) fail
    ltac:(fk_column_body ms_getForeignKeyTarget_post).
Qed.

Lemma ms_getColumnsForView_fk e schema view :
  Post (mssql.getColumnsForView e schema view)
    (fun res => Forall (fk_targets_by_design (MSSQL e) schema view)
                  (elems (fst res))).
Proof.
  unfold mssql.getColumnsForView.
  post_loop (fk_targets_by_design (MSSQL e) schema view) fail
    ltac:(fk_column_body ms_getForeignKeyTarget_post).
Qed.

Lemma my_getColumnsForTable_fk e schema table :
  Post (mysql.getColumnsForTable e schema table)
    (fun res => Forall (fk_targets_by_design (MySQL e) schema table)
                  (elems (fst res))).
Proof.
  unfold mysql.getColumnsForTable.
  post_loop (fk_targets_by_design (MySQL e) schema table) fail
    ltac:(fk_column_body my_getForeignKeyTarget_post).
Qed.

(** *** Oracle: the constraint map *)

Lemma fk_entries_from_empty rows : fk_entries_from rows ∅.
Proof. intros name entry H. by rewrite lookup_empty in H. Qed.

Lemma fk_entries_from_insert rows constraintMap colName entry :
  fk_entries_from rows constraintMap ->
  match entry !! "FK_TABLE", entry !! "FK_COLUMN" with
  | None, None => True
  | Some (VString t), Some (VString c) =>
    exists rOwner,
      inr (colName, "R", rOwner, mkNullString t true, mkNullString c true) ∈ rows
  | _, _ => False
  end ->
  fk_entries_from rows (<[colName := entry]> constraintMap).
Proof.
  intros Hmap Hentry name entry' Hlookup.
  destruct (decide (colName = name)) as [<- | Hne].
  - rewrite lookup_insert_eq in Hlookup. by injection Hlookup as <-.
  - rewrite lookup_insert_ne in Hlookup by done. by apply Hmap.
Qed.

Lemma record_constraint_fk_entries rows constraintMap colName constraintType
    rOwner rTable rColumn :
  inr (colName, constraintType, rOwner, rTable, rColumn) ∈ rows ->
  fk_entries_from rows constraintMap ->
  fk_entries_from rows
    (oracle.record_constraint constraintMap colName constraintType rTable rColumn).
Proof.
  intros Hin Hmap. unfold oracle.record_constraint.
  set (cm := match constraintMap !! colName with
             | Some _ => constraintMap
             | None => <[colName := ∅]> constraintMap
             end).
  assert (Hcm : fk_entries_from rows cm).
  { subst cm. destruct (constraintMap !! colName); [done |].
    apply fk_entries_from_insert; [done |]. by rewrite !lookup_empty. }
  assert (Hentry : match default ∅ (cm !! colName) !! "FK_TABLE",
                         default ∅ (cm !! colName) !! "FK_COLUMN" with
                   | None, None => True
                   | Some (VString t), Some (VString c) =>
                     exists rOwner,
                       inr (colName, "R", rOwner, mkNullString t true,
                            mkNullString c true) ∈ rows
                   | _, _ => False
                   end).
  { destruct (cm !! colName) as [entry |] eqn:Hlookup; simpl.
    - by apply (Hcm colName entry).
    - by rewrite !lookup_empty. }
  clearbody cm. clear Hmap.
  destruct (String.eqb constraintType "P") eqn:HP.
  { apply fk_entries_from_insert; [done |].
    by rewrite !lookup_insert_ne by done. }
  destruct (String.eqb constraintType "R") eqn:HR.
  { apply String.eqb_eq in HR as ->.
    apply fk_entries_from_insert; [done |].
    destruct rTable as [t [|]], rColumn as [c [|]]; simpl.
    - rewrite lookup_insert_ne by done. rewrite lookup_insert_eq.
      rewrite lookup_insert_eq. eauto.
    - by rewrite !lookup_insert_ne by done.
    - by rewrite !lookup_insert_ne by done.
    - by rewrite !lookup_insert_ne by done. }
  destruct (String.eqb constraintType "U") eqn:HU; [| done].
  apply fk_entries_from_insert; [done |].
  by rewrite !lookup_insert_ne by done.
Qed.

Lemma apply_constraints_fk e owner table w rows constraintMap col :
  oracle.constraints (oracle.db e) w (mkQuery SelConstraints "" [owner; table])
    = inr rows ->
  fk_entries_from (delivered rows) constraintMap ->
  Column_FKTargetTable col = "" -> Column_FKTargetColumn col = "" ->
  fk_targets_by_design (Oracle e) owner table (oracle.apply_constraints constraintMap col).
Proof.
  intros Hanswer Hmap Ht Hc. unfold oracle.apply_constraints.
  destruct (constraintMap !! Column_Name col) as [entry |] eqn:Hlookup; [| by left].
  specialize (Hmap _ _ Hlookup).
  destruct (entry !! "PK"), (entry !! "FK"), (entry !! "UK");
    destruct (entry !! "FK_TABLE") as [[t | | | | |] |],
             (entry !! "FK_COLUMN") as [[c | | | | |] |];
    try done; try (by left);
    (right; split; [done |]; simpl; destruct Hmap as [rOwner Hin]; by exists w, rows, rOwner).
Qed.

Lemma ora_enrichColumnsWithConstraints_fk e owner table columns :
  Forall (fun col => Column_FKTargetTable col = "" /\ Column_FKTargetColumn col = "")
    (elems columns) ->
  Post (oracle.enrichColumnsWithConstraints e owner table columns)
    (fun res => Forall (fk_targets_by_design (Oracle e) owner table) (elems (fst res))).
Proof.
  intros Hinit.
  assert (Hsame : Forall (fk_targets_by_design (Oracle e) owner table) (elems columns)).
  { eapply Forall_impl; [exact Hinit |]. intros col [Ht Hc]. by left. }
  unfold oracle.enrichColumnsWithConstraints.
  repeat post_step fail; [done |].
  eapply Post_bind.
  { apply (Post_for_rows _ _ _ (fk_entries_from (delivered r)));
      [| apply fk_entries_from_empty].
    intros acc row Hacc Hin. destruct_tuples. apply Post_ret. simpl.
    by eapply record_constraint_fk_entries. }
  intros [constraintMap err] Hmap. simpl in Hmap.
  repeat post_step fail; simpl; [done |].
  rewrite elems_update_each. apply Forall_fmap.
  eapply Forall_impl; [exact Hinit |]. intros col [Ht Hc]. simpl.
  subst. by eapply apply_constraints_fk.
Qed.

Lemma ora_getColumnsForTable_fk e owner table :
  Post (oracle.getColumnsForTable e owner table)
    (fun res => Forall (fk_targets_by_design (Oracle e) owner table) (elems (fst res))).
Proof.
  unfold oracle.getColumnsForTable.
  repeat post_step fail; [constructor |].
  eapply Post_bind.
  { apply (Post_for_rows _ _ _
             (fun acc => Forall (fun col => Column_FKTargetTable col = "" /\
                                            Column_FKTargetColumn col = "")
                           (elems acc))); [| constructor].
    intros acc row Hacc Hin. destruct_tuples. apply Post_ret. simpl.
    apply Forall_app. split; [done |]. by repeat constructor. }
  intros [columns err] Hcolumns. simpl in Hcolumns.
  repeat post_step ltac:(by apply ora_enrichColumnsWithConstraints_fk);
    simpl in *; try constructor; done.
Qed.

(** ** Index columns *)

Ltac index_columns_delivered H :=
  cbv beta in H; intros Hnil;
  destruct (H Hnil) as (? & ? & Hanswer & Hnames);
  rewrite map_id in Hnames;
  do 2 eexists; split; eassumption.

Lemma pg_getIndexColumns_delivered e schema index :
  Post (postgres.getIndexColumns e schema index)
    (fun res =>
       snd res = None ->
       exists w names,
         postgres.indexColumns (postgres.db e) w
           (mkQuery SelIndexColumns "" [schema; index])
           = inr (mkRows (map inr names) None) /\
         elems (fst res) = names).
Proof.
  intros w0.
  pose proof (Post_collect (postgres.indexColumns (postgres.db e))
                (mkQuery SelIndexColumns "" [schema; index]) (fun err => err) id id
                (fun columns col => mret (append columns col, None))
                (fun _ _ _ => eq_refl) w0) as H.
  index_columns_delivered H.
Qed.

Lemma ora_getIndexColumns_delivered e owner index :
  Post (oracle.getIndexColumns e owner index)
    (fun res =>
       snd res = None ->
       exists w names,
         oracle.indexColumns (oracle.db e) w
           (mkQuery SelIndexColumns "" [owner; index])
           = inr (mkRows (map inr names) None) /\
         elems (fst res) = names).
Proof.
  intros w0.
  pose proof (Post_collect (oracle.indexColumns (oracle.db e))
                (mkQuery SelIndexColumns "" [owner; index]) (fun err => err) id id
                (fun columns col => mret (append columns col, None))
                (fun _ _ _ => eq_refl) w0) as H.
  index_columns_delivered H.
Qed.

Lemma ms_getIndexColumns_delivered e schema table index :
  Post (mssql.getIndexColumns e schema table index)
    (fun res =>
       snd res = None ->
       exists w names,
         mssql.indexColumns (mssql.db e) w
           (mkQuery SelIndexColumns "" [schema; table; index])
           = inr (mkRows (map inr names) None) /\
         elems (fst res) = names).
Proof.
  intros w0.
  pose proof (Post_collect (mssql.indexColumns (mssql.db e))
                (mkQuery SelIndexColumns "" [schema; table; index]) (fun err => err)
                id id (fun columns col => mret (append columns col, None))
                (fun _ _ _ => eq_refl) w0) as H.
  index_columns_delivered H.
Qed.

Lemma my_getIndexColumns_delivered e schema table index :
  Post (mysql.getIndexColumns e schema table index)
    (fun res =>
       snd res = None ->
       exists w names,
         mysql.indexColumns (mysql.db e) w
           (mkQuery SelIndexColumns "" [schema; table; index])
           = inr (mkRows (map inr names) None) /\
         elems (fst res) = names).
Proof.
  intros w0.
  pose proof (Post_collect (mysql.indexColumns (mysql.db e))
                (mkQuery SelIndexColumns "" [schema; table; index]) (fun err => err)
                id id (fun columns col => mret (append columns col, None))
                (fun _ _ _ => eq_refl) w0) as H.
  index_columns_delivered H.
Qed.

(** The body of the index loop: the index appended carries the columns the
    call for it returned. *)
Ltac index_body lookup :=
  repeat post_step ltac:(apply lookup); simpl in *; try done;
  (apply Forall_app; split; [done |]; apply Forall_singleton);
  match goal with H : None = None -> _ |- _ => exact (H eq_refl) end.

Lemma pg_getIndexesForTable_delivered e schema table :
  Post (postgres.getIndexesForTable e schema table)
    (fun res => Forall (columns_as_delivered (PostgreSQL e)) (elems (fst res))).
Proof.
  unfold postgres.getIndexesForTable.
  post_loop (columns_as_delivered (PostgreSQL e)) fail
    ltac:(index_body pg_getIndexColumns_delivered).
Qed.

Lemma ora_getIndexesForTable_delivered e owner table :
  Post (oracle.getIndexesForTable e owner table)
    (fun res => Forall (columns_as_delivered (Oracle e)) (elems (fst res))).
Proof.
  unfold oracle.getIndexesForTable.
  post_loop (columns_as_delivered (Oracle e)) fail
    ltac:(index_body ora_getIndexColumns_delivered).
Qed.

Lemma ms_getIndexesForTable_delivered e schema table :
  Post (mssql.getIndexesForTable e schema table)
    (fun res => Forall (columns_as_delivered (MSSQL e)) (elems (fst res))).
Proof.
  unfold mssql.getIndexesForTable.
  post_loop (columns_as_delivered (MSSQL e)) fail
    ltac:(index_body ms_getIndexColumns_delivered).
Qed.

Lemma my_getIndexesForTable_delivered e schema table :
  Post (mysql.getIndexesForTable e schema table)
    (fun res => Forall (columns_as_delivered (MySQL e)) (elems (fst res))).
Proof.
  unfold mysql.getIndexesForTable.
  post_loop (columns_as_delivered (MySQL e)) fail
    ltac:(index_body my_getIndexColumns_delivered).
Qed.

(** ** Signatures *)

Lemma append_empty_r (s : string) : s +:+ "" = s.
Proof.
  induction s as [|c s IH]; [done |].
  rewrite <- IH at 2. reflexivity.
Qed.

Lemma append_assoc (s1 s2 s3 : string) : (s1 +:+ s2) +:+ s3 = s1 +:+ s2 +:+ s3.
Proof.
  induction s1 as [|c s1 IH]; [done |].
  change (String c ((s1 +:+ s2) +:+ s3) = String c (s1 +:+ s2 +:+ s3)).
  by rewrite IH.
Qed.

Lemma Sprintf_name_mode_type (a b c : string) :
  fmt.Sprintf "%s %s %s" [fmt.S_ a; fmt.S_ b; fmt.S_ c]
    = a +:+ " " +:+ b +:+ " " +:+ c.
Proof. simpl. by rewrite append_empty_r. Qed.

Lemma Sprintf_type_name_args (ty name argStr : string) :
  fmt.Sprintf "%s %s(%s)" [fmt.S_ ty; fmt.S_ name; fmt.S_ argStr]
    = ty +:+ " " +:+ name +:+ "(" +:+ argStr +:+ ")".
Proof. reflexivity. Qed.

Lemma argStrs_map (f : RoutineArgument -> string) (args : slice RoutineArgument) :
  assign_by_index (fun _ => f) 0 (elems args) (replicate (len args) "")
    = map f (elems args).
Proof. apply assign_by_index_map. Qed.

Lemma oracle_buildSignature_format name args routineType :
  oracle.buildSignature name args routineType =
    (if String.eqb routineType "FUNCTION" then "FUNCTION" else "PROCEDURE")
    +:+ " " +:+ name +:+ "(" +:+
    strings.Join (map name_mode_type (elems args)) ", " +:+ ")" +:+
    (if String.eqb routineType "FUNCTION" then " RETURN <type>" else "").
Proof.
  unfold oracle.buildSignature. rewrite argStrs_map.
  rewrite (map_ext _ name_mode_type)
    by (intros arg; apply Sprintf_name_mode_type).
  destruct (String.eqb routineType "FUNCTION"); simpl;
    rewrite ?append_empty_r; done.
Qed.

Lemma mssql_buildSignature_format name args routineType :
  mssql.buildSignature name args routineType =
    routineType +:+ " " +:+ name +:+ "(" +:+
    strings.Join (map name_mode_type (elems args)) ", " +:+ ")".
Proof.
  unfold mssql.buildSignature. rewrite argStrs_map.
  rewrite (map_ext _ name_mode_type)
    by (intros arg; apply Sprintf_name_mode_type).
  apply Sprintf_type_name_args.
Qed.

Lemma mysql_buildSignature_format name args routineType :
  mysql.buildSignature name args routineType =
    routineType +:+ " " +:+ name +:+ "(" +:+
    strings.Join (map mode_name_type (elems args)) ", " +:+ ")".
Proof.
  unfold mysql.buildSignature. rewrite argStrs_map.
  rewrite (map_ext _ mode_name_type)
    by (intros arg; apply Sprintf_name_mode_type).
  apply Sprintf_type_name_args.
Qed.

Lemma ora_getRoutineArguments_delivered e owner object :
  Post (oracle.getRoutineArguments e owner object)
    (fun res =>
       snd res = None ->
       exists w rows,
         oracle.routineArguments (oracle.db e) w
           (mkQuery SelRoutineArguments "" [owner; object])
           = inr (mkRows (map inr rows) None) /\
         map (fun arg => (Arg_Name arg, Arg_Position arg, Arg_Mode arg, Arg_DataType arg))
             (elems (fst res))
           = map (fun '(name, position, mode, dataType, _) =>
                    (name, position, mode, dataType)) rows).
Proof.
  unfold oracle.getRoutineArguments. intros w0.
  pose proof (Post_collect (oracle.routineArguments (oracle.db e))
                (mkQuery SelRoutineArguments "" [owner; object]) (fun err => err) id
                (fun '(Name, Position, Mode, DataType, defaultVal) =>
                   {| Arg_Name := Name; Arg_Position := Position;
                      Arg_Mode := Mode; Arg_DataType := DataType;
                      Arg_DefaultValue :=
                        if Valid defaultVal then String_ defaultVal else "";
                      Arg_Comment := "" |})
                (fun args '(Name, Position, Mode, DataType, defaultVal) =>
                   mret (append args
                           {| Arg_Name := Name; Arg_Position := Position;
                              Arg_Mode := Mode; Arg_DataType := DataType;
                              Arg_DefaultValue :=
                                if Valid defaultVal then String_ defaultVal else "";
                              Arg_Comment := "" |}, None))) as H.
  cbv beta in H. intros Hnil.
  destruct (H ltac:(by intros acc [[[[? ?] ?] ?] ?] w) w0 Hnil)
    as (w & rows & Hanswer & Hargs).
  exists w, rows. split; [done |].
  rewrite Hargs, map_map. apply map_ext. by intros [[[[? ?] ?] ?] ?].
Qed.

Lemma ms_getRoutineParameters_delivered e schema routine :
  Post (mssql.getRoutineParameters e schema routine)
    (fun res =>
       snd res = None ->
       exists w rows,
         mssql.routineParameters (mssql.db e) w
           (mkQuery SelRoutineArguments "" [schema; routine])
           = inr (mkRows (map inr rows) None) /\
         map (fun arg => (Arg_Name arg, Arg_Position arg, Arg_Mode arg, Arg_DataType arg))
             (elems (fst res))
           = rows).
Proof.
  unfold mssql.getRoutineParameters. intros w0.
  pose proof (Post_collect (mssql.routineParameters (mssql.db e))
                (mkQuery SelRoutineArguments "" [schema; routine]) (fun err => err) id
                (fun '(Name, Position, Mode, DataType) =>
                   {| Arg_Name := Name; Arg_Position := Position;
                      Arg_Mode := Mode; Arg_DataType := DataType;
                      Arg_DefaultValue := ""; Arg_Comment := "" |})
                (fun args '(Name, Position, Mode, DataType) =>
                   mret (append args
                           {| Arg_Name := Name; Arg_Position := Position;
                              Arg_Mode := Mode; Arg_DataType := DataType;
                              Arg_DefaultValue := ""; Arg_Comment := "" |},
                         None))) as H.
  cbv beta in H. intros Hnil.
  destruct (H ltac:(by intros acc [[[? ?] ?] ?] w) w0 Hnil)
    as (w & rows & Hanswer & Hargs).
  exists w, rows. split; [done |].
  rewrite Hargs, map_map. rewrite <- (map_id rows) at 2.
  apply map_ext. by intros [[[? ?] ?] ?].
Qed.

Lemma my_getRoutineParameters_delivered e schema routine :
  Post (mysql.getRoutineParameters e schema routine)
    (fun res =>
       snd res = None ->
       exists w rows,
         mysql.routineParameters (mysql.db e) w
           (mkQuery SelRoutineArguments "" [schema; routine])
           = inr (mkRows (map inr rows) None) /\
         map (fun arg => (Arg_Name arg, Arg_Position arg, Arg_Mode arg, Arg_DataType arg))
             (elems (fst res))
           = rows).
Proof.
  unfold mysql.getRoutineParameters. intros w0.
  pose proof (Post_collect (mysql.routineParameters (mysql.db e))
                (mkQuery SelRoutineArguments "" [schema; routine]) (fun err => err) id
                (fun '(Name, Position, Mode, DataType) =>
                   {| Arg_Name := Name; Arg_Position := Position;
                      Arg_Mode := Mode; Arg_DataType := DataType;
                      Arg_DefaultValue := ""; Arg_Comment := "" |})
                (fun args '(Name, Position, Mode, DataType) =>
                   mret (append args
                           {| Arg_Name := Name; Arg_Position := Position;
                              Arg_Mode := Mode; Arg_DataType := DataType;
                              Arg_DefaultValue := ""; Arg_Comment := "" |},
                         None))) as H.
  cbv beta in H. intros Hnil.
  destruct (H ltac:(by intros acc [[[? ?] ?] ?] w) w0 Hnil)
    as (w & rows & Hanswer & Hargs).
  exists w, rows. split; [done |].
  rewrite Hargs, map_map. rewrite <- (map_id rows) at 2.
  apply map_ext. by intros [[[? ?] ?] ?].
Qed.

Ltac routine_fields :=
  unfold routine_by_design, signature_by_design, arguments_as_delivered;
  cbn [fst snd elems append Routine_Signature Routine_Type Routine_Name
       Routine_Arguments Routine_Owner Routine_ReturnType] in *.

Ltac routine_body lookup format :=
  repeat post_step ltac:(apply lookup); routine_fields;
  first
    [ assumption
    | (apply Forall_app; split; [assumption |]; apply Forall_singleton);
      routine_fields; split;
      [ apply format
      | match goal with H : None = None -> _ |- _ => exact (H eq_refl) end ] ].

Lemma ora_GetRoutines_design e :
  Post (oracle.GetRoutines e)
    (fun res => Forall (routine_by_design (Oracle e)) (elems (fst res))).
Proof.
  unfold oracle.GetRoutines.
  post_loop (routine_by_design (Oracle e)) fail
    ltac:(routine_body ora_getRoutineArguments_delivered oracle_buildSignature_format).
Qed.

Lemma ms_GetRoutines_design e :
  Post (mssql.GetRoutines e)
    (fun res => Forall (routine_by_design (MSSQL e)) (elems (fst res))).
Proof.
  unfold mssql.GetRoutines.
  post_loop (routine_by_design (MSSQL e)) fail
    ltac:(routine_body ms_getRoutineParameters_delivered mssql_buildSignature_format).
Qed.

Lemma my_GetRoutines_design e :
  Post (mysql.GetRoutines e)
    (fun res => Forall (routine_by_design (MySQL e)) (elems (fst res))).
Proof.
  unfold mysql.GetRoutines.
  post_loop (routine_by_design (MySQL e)) fail
    ltac:(routine_body my_getRoutineParameters_delivered mysql_buildSignature_format).
Qed.

Lemma Sprintf_type_name_args_suffix (ty name argStr suffix : string) :
  fmt.Sprintf "%s %s(%s)" [fmt.S_ ty; fmt.S_ name; fmt.S_ argStr] +:+ suffix
    = ty +:+ " " +:+ name +:+ "(" +:+ argStr +:+ ")" +:+ suffix.
Proof.
  rewrite Sprintf_type_name_args.
  rewrite (append_assoc ty). f_equal.
  change ((" " +:+ name +:+ "(" +:+ argStr +:+ ")") +:+ suffix)
    with (" " +:+ ((name +:+ "(" +:+ argStr +:+ ")") +:+ suffix)).
  f_equal. rewrite (append_assoc name). f_equal.
  change (("(" +:+ argStr +:+ ")") +:+ suffix)
    with ("(" +:+ ((argStr +:+ ")") +:+ suffix)).
  f_equal. by rewrite (append_assoc argStr).
Qed.

Lemma pg_GetRoutines_design e :
  Post (postgres.GetRoutines e)
    (fun res => Forall (routine_by_design (PostgreSQL e)) (elems (fst res))).
Proof.
  unfold postgres.GetRoutines.
  post_loop (routine_by_design (PostgreSQL e)) fail
    ltac:(apply Post_ret; routine_fields;
          (apply Forall_app; split; [assumption |]; apply Forall_singleton);
          routine_fields; split; [| reflexivity];
          match goal with
          | |- exists argStr, (if String.eqb ?ty _ then _ else _) = _ =>
            eexists; destruct (String.eqb ty "FUNCTION");
            [ apply Sprintf_type_name_args_suffix
            | apply Sprintf_type_name_args ]
          end).
Qed.

(** ** Triggers of SQL Server *)

Lemma ms_GetTriggers_row_level e :
  Post (mssql.GetTriggers e)
    (fun res => Forall row_level_table_trigger (elems (fst res))).
Proof.
  unfold mssql.GetTriggers.
  post_loop row_level_table_trigger fail
    ltac:(apply Post_ret; simpl; apply Forall_app; split; [done |];
          by repeat constructor).
Qed.

(** ** Tables, views and the root index collection *)

Ltac table_body columns indexes :=
  repeat post_step ltac:(first [apply columns | apply indexes]);
  cbn [fst snd elems append] in *;
  first
    [ assumption
    | (apply Forall_app; split; [assumption |]; apply Forall_singleton);
      split; assumption ].

Ltac view_body columns :=
  repeat post_step ltac:(apply columns);
  cbn [fst snd elems append] in *;
  first
    [ assumption
    | (apply Forall_app; split; [assumption |]; apply Forall_singleton);
      assumption ].

Lemma pg_GetTables_design e :
  Post (postgres.GetTables e)
    (fun res => Forall (table_by_design (PostgreSQL e)) (elems (fst res))).
Proof.
  unfold postgres.GetTables.
  post_loop (table_by_design (PostgreSQL e)) fail
    ltac:(table_body pg_getColumnsForTable_fk pg_getIndexesForTable_delivered).
Qed.

Lemma ora_GetTables_design e :
  Post (oracle.GetTables e)
    (fun res => Forall (table_by_design (Oracle e)) (elems (fst res))).
Proof.
  unfold oracle.GetTables.
  post_loop (table_by_design (Oracle e)) fail
    ltac:(table_body ora_getColumnsForTable_fk ora_getIndexesForTable_delivered).
Qed.

Lemma ms_GetTables_design e :
  Post (mssql.GetTables e)
    (fun res => Forall (table_by_design (MSSQL e)) (elems (fst res))).
Proof.
  unfold mssql.GetTables.
  post_loop (table_by_design (MSSQL e)) fail
    ltac:(table_body ms_getColumnsForTable_fk ms_getIndexesForTable_delivered).
Qed.

Lemma my_GetTables_design e :
  Post (mysql.GetTables e)
    (fun res => Forall (table_by_design (MySQL e)) (elems (fst res))).
Proof.
  unfold mysql.GetTables.
  post_loop (table_by_design (MySQL e)) fail
    ltac:(table_body my_getColumnsForTable_fk my_getIndexesForTable_delivered).
Qed.

Lemma pg_GetViews_design e :
  Post (postgres.GetViews e)
    (fun res => Forall (view_by_design (PostgreSQL e)) (elems (fst res))).
Proof.
  unfold postgres.GetViews.
  post_loop (view_by_design (PostgreSQL e)) fail
    ltac:(view_body pg_getColumnsForTable_fk).
Qed.

Lemma ora_GetViews_design e :
  Post (oracle.GetViews e)
    (fun res => Forall (view_by_design (Oracle e)) (elems (fst res))).
Proof.
  unfold oracle.GetViews.
  post_loop (view_by_design (Oracle e)) fail
    ltac:(view_body ora_getColumnsForTable_fk).
Qed.

Lemma ms_GetViews_design e :
  Post (mssql.GetViews e)
    (fun res => Forall (view_by_design (MSSQL e)) (elems (fst res))).
Proof.
  unfold mssql.GetViews.
  post_loop (view_by_design (MSSQL e)) fail
    ltac:(view_body ms_getColumnsForView_fk).
Qed.

Lemma my_GetViews_design e :
  Post (mysql.GetViews e)
    (fun res => Forall (view_by_design (MySQL e)) (elems (fst res))).
Proof.
  unfold mysql.GetViews.
  post_loop (view_by_design (MySQL e)) fail
    ltac:(view_body my_getColumnsForTable_fk).
Qed.

Lemma GetTables_design a :
  Post (GetTables (methods a))
    (fun res => Forall (table_by_design a) (elems (fst res))).
Proof.
  destruct a; simpl;
    [apply ora_GetTables_design | apply my_GetTables_design
    | apply pg_GetTables_design | apply ms_GetTables_design].
Qed.

Lemma GetViews_design a :
  Post (GetViews (methods a))
    (fun res => Forall (view_by_design a) (elems (fst res))).
Proof.
  destruct a; simpl;
    [apply ora_GetViews_design | apply my_GetViews_design
    | apply pg_GetViews_design | apply ms_GetViews_design].
Qed.

Lemma GetRoutines_design a :
  Post (GetRoutines (methods a))
    (fun res => Forall (routine_by_design a) (elems (fst res))).
Proof.
  destruct a; simpl;
    [apply ora_GetRoutines_design | apply my_GetRoutines_design
    | apply pg_GetRoutines_design | apply ms_GetRoutines_design].
Qed.

(** ** The orchestration *)

(** The next step of both sides is the call [m]: when it fails both sides
    return at once. *)
Ltac schema_fields :=
  cbn [Schema_DatabaseName Schema_DatabaseType Schema_Version Schema_ExtractedAt
       Schema_Comment Schema_Tables Schema_Views Schema_Routines
       Schema_Sequences Schema_Triggers Schema_Synonyms Schema_Indexes].

Ltac same_step m :=
  match goal with
  | |- context [m ?w] =>
    let r := fresh "r" in
    let w' := fresh "w" in
    destruct (m w) as [r w']; destruct r as [? [? |]]; destruct_tuples;
    schema_fields; [reflexivity |]
  end.

Ltac same_steps :=
  let m0 := fresh "m" in let m1 := fresh "m" in let m2 := fresh "m" in
  let m3 := fresh "m" in let m4 := fresh "m" in let m5 := fresh "m" in
  let m6 := fresh "m" in
  intros m0 m1 m2 m3 m4 m5 m6;
  cbn [run_sequence strict_sequence run_step step_context fresh_schema
       database_type aggregate_indexes];
  cbn [GetDatabaseInfo GetTables GetViews GetRoutines GetSequences GetTriggers
       GetSynonyms];
  unfold mbind, M_bind, mret, M_ret, time_Now;
  same_step m0; same_step m1; same_step m2; same_step m3; same_step m4;
  same_step m5;
  match goal with
  | |- context [m6 ?w] =>
    destruct (m6 w) as [[? [? |]] ?]; schema_fields; reflexivity
  end.

Lemma ExtractSchema_orchestrate a w : ExtractSchema (methods a) w = orchestrate a w.
Proof.
  destruct a as [e | e | e | e]; unfold orchestrate;
    cbn [methods ExtractSchema clock_of].
  - unfold oracle.ExtractSchema.
    generalize (oracle.GetDatabaseInfo e) (oracle.GetTables e) (oracle.GetViews e)
      (oracle.GetRoutines e) (oracle.GetSequences e) (oracle.GetTriggers e)
      (oracle.GetSynonyms e).
    same_steps.
  - unfold mysql.ExtractSchema.
    generalize (mysql.GetDatabaseInfo e) (mysql.GetTables e) (mysql.GetViews e)
      (mysql.GetRoutines e) (mysql.GetSequences e) (mysql.GetTriggers e)
      (mysql.GetSynonyms e).
    same_steps.
  - unfold postgres.ExtractSchema.
    generalize (postgres.GetDatabaseInfo e) (postgres.GetTables e)
      (postgres.GetViews e) (postgres.GetRoutines e) (postgres.GetSequences e)
      (postgres.GetTriggers e) (postgres.GetSynonyms e).
    same_steps.
  - unfold mssql.ExtractSchema.
    generalize (mssql.GetDatabaseInfo e) (mssql.GetTables e) (mssql.GetViews e)
      (mssql.GetRoutines e) (mssql.GetSequences e) (mssql.GetTriggers e)
      (mssql.GetSynonyms e).
    same_steps.
Qed.

Lemma run_sequence_app x before after s w :
  run_sequence x (before ++ after) s w =
    match run_sequence x before s w with
    | (inl s1, w1) => run_sequence x after s1 w1
    | (inr failed, w1) => (inr failed, w1)
    end.
Proof.
  revert s w. induction before as [|step before IH]; intros s w; [done |].
  simpl. unfold mbind, M_bind.
  destruct (run_step x step s w) as [[s1 [err |]] w1]; [done |]. apply IH.
Qed.

(** A failed sequence stopped at its first failing step: the steps before
    it succeeded, in order, and the history ends where that step left it. *)
Lemma run_sequence_stops x steps s w step err w' :
  run_sequence x steps s w = (inr (step, err), w') ->
  exists before after s1 w1 s2,
    steps = before ++ step :: after /\
    run_sequence x before s w = (inl s1, w1) /\
    run_step x step s1 w1 = ((s2, Some err), w').
Proof.
  revert s w. induction steps as [|step0 steps IH]; intros s w H; [done |].
  simpl in H. unfold mbind, M_bind in H.
  destruct (run_step x step0 s w) as [[s1 [err0 |]] w1] eqn:Hstep.
  - injection H as <- <- <-. exists [], steps, s, w, s1. done.
  - destruct (IH _ _ H) as (before & after & s2 & w2 & s3 & -> & Hbefore & Hfail).
    exists (step0 :: before), after, s2, w2, s3. split_and!; [done | | done].
    simpl. unfold mbind, M_bind. by rewrite Hstep.
Qed.

Lemma step_context_root_cause a step err :
  root_cause (step_context a step err) = root_cause err.
Proof. by destruct a, step. Qed.

Lemma orchestrate_outcome a w :
  let '(outcome, w') :=
    run_sequence (methods a) strict_sequence (fresh_schema a (clock_of a w)) w in
  orchestrate a w =
    (match outcome with
     | inl s => (Some (aggregate_indexes s), None)
     | inr (step, err) => (None, Some (step_context a step err))
     end, w').
Proof.
  unfold orchestrate, mbind, M_bind, time_Now.
  by destruct (run_sequence _ _ _ _) as [[s | [step err]] w'].
Qed.

Lemma run_step_design a step s :
  schema_by_design a s ->
  Post (run_step (methods a) step s) (fun res => schema_by_design a (fst res)).
Proof.
  intros (Htables & Hviews & Hroutines).
  destruct step; unfold run_step.
  - eapply Post_bind; [apply Post_True |]. intros [[name version] err] _.
    by apply Post_ret.
  - eapply Post_bind; [apply GetTables_design |]. intros [tables err] H.
    by apply Post_ret.
  - eapply Post_bind; [apply GetViews_design |]. intros [views err] H.
    by apply Post_ret.
  - eapply Post_bind; [apply GetRoutines_design |]. intros [routines err] H.
    by apply Post_ret.
  - eapply Post_bind; [apply Post_True |]. intros [sequences err] _.
    by apply Post_ret.
  - eapply Post_bind; [apply Post_True |]. intros [triggers err] _.
    by apply Post_ret.
  - eapply Post_bind; [apply Post_True |]. intros [synonyms err] _.
    by apply Post_ret.
Qed.

Lemma run_sequence_design a steps :
  forall s, schema_by_design a s ->
  Post (run_sequence (methods a) steps s)
    (fun outcome => forall s', outcome = inl s' -> schema_by_design a s').
Proof.
  induction steps as [|step steps IH]; intros s Hs; simpl.
  - apply Post_ret. by intros s' [= <-].
  - eapply Post_bind; [by apply run_step_design |].
    intros [s1 [err |]] Hs1; simpl in Hs1; [by apply Post_ret |]. by apply IH.
Qed.

Lemma indexes_of_tables_delivered a (tables : slice Table) :
  Forall (table_by_design a) (elems tables) ->
  Forall (columns_as_delivered a) (elems (collect_indexes tables)).
Proof.
  intros H. rewrite elems_collect_indexes. apply Forall_concat, Forall_fmap.
  eapply Forall_impl; [exact H |]. by intros t [_ Hindexes].
Qed.

Lemma ExtractSchema_design a :
  Post (ExtractSchema (methods a))
    (fun res => forall s, fst res = Some s ->
       schema_by_design a s /\
       Forall (columns_as_delivered a) (elems (Schema_Indexes s))).
Proof.
  intros w. rewrite ExtractSchema_orchestrate.
  pose proof (orchestrate_outcome a w) as Houtcome.
  pose proof (run_sequence_design a strict_sequence
                (fresh_schema a (clock_of a w))) as Hdesign.
  specialize (Hdesign ltac:(by repeat split) w).
  destruct (run_sequence _ _ _ _) as [[s0 | [step err]] w'].
  - rewrite Houtcome. simpl. intros s [= <-].
    destruct (Hdesign s0 eq_refl) as (Htables & Hviews & Hroutines).
    split; [done |]. by apply indexes_of_tables_delivered.
  - rewrite Houtcome. by intros s.
Qed.

Lemma flat_map_nil {A B} (f : A -> list B) (l : list A) :
  flat_map f l = [] <-> Forall (fun x => f x = []) l.
Proof.
  induction l as [|x l IH]; simpl.
  - split; [constructor | done].
  - split.
    + intros [Hx Hl]%app_eq_nil. constructor; [done | by apply IH].
    + intros H. inversion H as [|? ? Hx Hl]; subst. rewrite Hx. by apply IH.
Qed.

Lemma Forall_flat_map {A B} (P : B -> Prop) (f : A -> list B) (l : list A) :
  Forall P (flat_map f l) <-> Forall (fun x => Forall P (f x)) l.
Proof.
  induction l as [|x l IH]; simpl.
  - split; constructor.
  - rewrite Forall_app, Forall_cons, IH. done.
Qed.

Lemma name_reported (name typeName : string) :
  flat_map (fun forbiddenName =>
      if String.eqb name forbiddenName
      then [fmt.Sprintf "FORBIDDEN field '%s' found in struct %s"
              [fmt.S_ name; fmt.S_ typeName]]
      else [])
    validator.forbiddenFields = [] <-> forbidden name = false.
Proof.
  unfold forbidden, validator.forbiddenFields. simpl.
  destruct (String.eqb name "Body"); [done |].
  destruct (String.eqb name "Definition"); [done |].
  destruct (String.eqb name "Script"); [done |].
  destruct (String.eqb name "Text"); [done |].
  by destruct (String.eqb name "Source").
Qed.

Lemma inspect_nil ts :
  validator.inspect ts = [] <->
  Forall (fun name => forbidden name = false) (struct_field_names ts).
Proof.
  unfold validator.inspect, struct_field_names.
  destruct (validator.Type_ ts) as [fields |]; [| split; [constructor | done]].
  rewrite flat_map_nil, Forall_flat_map.
  apply Forall_iff. intros field.
  rewrite flat_map_nil. apply Forall_iff. intros name. apply name_reported.
Qed.

Lemma validator_passes file :
  validator.Passed (validator.validateNoSourceCodeFields (inr file)) = true <->
  Forall (fun ts => Forall (fun name => forbidden name = false) (struct_field_names ts))
    file.
Proof.
  unfold validator.validateNoSourceCodeFields.
  rewrite <- (Forall_iff _ file _ inspect_nil), <- flat_map_nil.
  destruct (flat_map validator.inspect file); simpl; split; done.
Qed.

Lemma columns_no_source_field (columns : list Column) :
  Forall (fun name => forbidden name = false)
    (flat_map names_in (map (fun c => VStruct (fields_of_Column c)) columns)).
Proof.
  induction columns as [|c columns IH]; [constructor |].
  simpl. by repeat (constructor; [reflexivity |]).
Qed.

Lemma arguments_no_source_field (arguments : list RoutineArgument) :
  Forall (fun name => forbidden name = false)
    (flat_map names_in
       (map (fun a => VStruct (fields_of_RoutineArgument a)) arguments)).
Proof.
  induction arguments as [|a arguments IH]; [constructor |].
  simpl. by repeat (constructor; [reflexivity |]).
Qed.

Lemma Routine_no_source_field r : no_source_field (VStruct (fields_of_Routine r)).
Proof.
  unfold no_source_field. simpl.
  repeat (constructor; [reflexivity |]).
  apply Forall_app. split; [apply arguments_no_source_field |].
  by repeat (constructor; [reflexivity |]).
Qed.

Lemma View_no_source_field v : no_source_field (VStruct (fields_of_View v)).
Proof.
  unfold no_source_field. simpl.
  repeat (constructor; [reflexivity |]).
  apply Forall_app. split; [apply columns_no_source_field |].
  by repeat (constructor; [reflexivity |]).
Qed.

Lemma Trigger_no_source_field t : no_source_field (VStruct (fields_of_Trigger t)).
Proof. unfold no_source_field. simpl. by repeat (constructor; [reflexivity |]). Qed.

(** C1. The model file declares no field named Body, Definition, Script,
    Text or Source, and [validateNoSourceCodeFields] passes on it; the
    validator passes on a file exactly when no struct of the file declares
    such a field. The fields of a [Routine], a [Trigger] and a [View] are
    the ones the model file declares for them, so no value of these types,
    in particular none in a schema an adapter's [ExtractSchema] returned,
    has a field of a forbidden name at any depth. *)
Theorem no_source_code_fields :
  validator.Passed
    (validator.validateNoSourceCodeFields (inr validator.schema_go)) = true /\
  (forall file,
     validator.Passed (validator.validateNoSourceCodeFields (inr file)) = true <->
     Forall (fun ts =>
               Forall (fun name => forbidden name = false) (struct_field_names ts))
       file) /\
  (forall r, map fst (fields_of_Routine r)
             = validator.declared_fields validator.schema_go "Routine") /\
  (forall t, map fst (fields_of_Trigger t)
             = validator.declared_fields validator.schema_go "Trigger") /\
  (forall v, map fst (fields_of_View v)
             = validator.declared_fields validator.schema_go "View") /\
  (forall c, map fst (fields_of_Column c)
             = validator.declared_fields validator.schema_go "Column") /\
  (forall arg, map fst (fields_of_RoutineArgument arg)
               = validator.declared_fields validator.schema_go "RoutineArgument") /\
  (forall a w s, fst (fst (ExtractSchema (methods a) w)) = Some s ->
     Forall (fun r => no_source_field (VStruct (fields_of_Routine r)))
       (elems (Schema_Routines s)) /\
     Forall (fun t => no_source_field (VStruct (fields_of_Trigger t)))
       (elems (Schema_Triggers s)) /\
     Forall (fun v => no_source_field (VStruct (fields_of_View v)))
       (elems (Schema_Views s))).
Proof.
  split_and!; try done.
  - apply validator_passes.
  - intros a w s _. split_and!; apply Forall_forall; intros x _.
    + apply Routine_no_source_field.
    + apply Trigger_no_source_field.
    + apply View_no_source_field.
Qed.





(** C4. For every adapter, [ExtractSchema] is the extraction of the
    specification: from a fresh schema it runs GetDatabaseInfo, GetTables,
    GetViews, GetRoutines, GetSequences, GetTriggers and GetSynonyms in
    this order, then aggregates the indexes. When a step fails, the steps
    before it succeeded, no later step runs, and the result is the nil
    schema with the error of that step (the Oracle adapter wraps it with
    the name of the step, keeping it as the cause); a schema is returned
    exactly when the error is nil. *)
Theorem ExtractSchema_strict_sequence (a : Adapter) (w : World) :
  ExtractSchema (methods a) w = orchestrate a w /\
  match run_sequence (methods a) strict_sequence
          (fresh_schema a (clock_of a w)) w with
  | (inl s, w') =>
    ExtractSchema (methods a) w = ((Some (aggregate_indexes s), None), w')
  | (inr (step, err), w') =>
    ExtractSchema (methods a) w = ((None, Some (step_context a step err)), w') /\
    root_cause (step_context a step err) = root_cause err /\
    exists before after s1 w1 s2,
      strict_sequence = before ++ step :: after /\
      run_sequence (methods a) before (fresh_schema a (clock_of a w)) w
        = (inl s1, w1) /\
      run_step (methods a) step s1 w1 = ((s2, Some err), w')
  end /\
  (fst (fst (ExtractSchema (methods a) w)) = None <->
   snd (fst (ExtractSchema (methods a) w)) <> None).
Proof.
  rewrite ExtractSchema_orchestrate.
  pose proof (orchestrate_outcome a w) as Houtcome.
  destruct (run_sequence _ _ _ _) as [[s | [step err]] w'] eqn:Hrun.
  - rewrite Houtcome. split_and!; [done | done |]. simpl. split; done.
  - rewrite Houtcome. split_and!; [done | done | | |].
    + apply step_context_root_cause.
    + by apply run_sequence_stops.
    + simpl. split; done.
Qed.

(** C9. After a successful [ExtractSchema] the root-level [Indexes] are
    the concatenation of the [Indexes] of the tables, in table order: every
    index of a table is in the root collection as it is in the table, and
    the root collection holds nothing else. *)
Theorem root_indexes_concat_table_indexes (a : Adapter) (w : World) (s : Schema) :
  fst (fst (ExtractSchema (methods a) w)) = Some s ->
  elems (Schema_Indexes s)
    = concat (map (fun t => elems (Table_Indexes t)) (elems (Schema_Tables s))) /\
  (forall t idx, t ∈ elems (Schema_Tables s) -> idx ∈ elems (Table_Indexes t) ->
     idx ∈ elems (Schema_Indexes s)) /\
  (forall idx, idx ∈ elems (Schema_Indexes s) ->
     exists t, t ∈ elems (Schema_Tables s) /\ idx ∈ elems (Table_Indexes t)).
Proof.
  rewrite ExtractSchema_orchestrate.
  pose proof (orchestrate_outcome a w) as Houtcome.
  destruct (run_sequence _ _ _ _) as [[s0 | [step err]] w'].
  - rewrite Houtcome. simpl. intros [= <-]. simpl.
    assert (Hconcat := elems_collect_indexes (Schema_Tables s0)).
    split; [exact Hconcat |]. rewrite Hconcat. split.
    + intros t idx Ht Hidx. apply list_elem_of_In, in_concat.
      exists (elems (Table_Indexes t)). split; [| by apply list_elem_of_In].
      apply in_map_iff. exists t. split; [done | by apply list_elem_of_In].
    + intros idx [l [Hl Hidx]]%list_elem_of_In%in_concat.
      apply in_map_iff in Hl as [t [<- Ht]].
      exists t. split; by apply list_elem_of_In.
  - rewrite Houtcome. done.
Qed.

(** On the [shop] database the extraction succeeds, and the two indexes of
    [orders] are the root collection. *)
Lemma shop_root_indexes :
  exists s,
    fst (fst (ExtractSchema (methods (MySQL shop)) [])) = Some s /\
    map Index_Name (elems (Schema_Indexes s)) = ["PRIMARY"; "idx_customer_date"] /\
    elems (Schema_Indexes s)
      = concat (map (fun t => elems (Table_Indexes t)) (elems (Schema_Tables s))).
Proof.
  eexists. split; [vm_compute; reflexivity |]. split; [reflexivity |].
  apply (root_indexes_concat_table_indexes (MySQL shop) []).
  vm_compute; reflexivity.
Defined.

(** C7. A dialect that lacks a concept answers with an empty, non-nil
    collection and the nil error, without a driver call: the PostgreSQL
    adapter for synonyms, the MySQL adapter for sequences and synonyms. *)
Theorem absent_feature_empty_not_error :
  (forall e w, postgres.GetSynonyms e w = ((mk_slice [], None), w)) /\
  (forall e w, mysql.GetSequences e w = ((mk_slice [], None), w)) /\
  (forall e w, mysql.GetSynonyms e w = ((mk_slice [], None), w)) /\
  (forall e w, is_nil (fst (fst (GetSynonyms (methods (PostgreSQL e)) w))) = false /\
               len (fst (fst (GetSynonyms (methods (PostgreSQL e)) w))) = 0%nat /\
               snd (fst (GetSynonyms (methods (PostgreSQL e)) w)) = None).
Proof. by split_and!. Qed.

(** C8. For every adapter and every history, the [Columns] of each index
    that [GetTables] or a successful [ExtractSchema] returns, nested in its
    table or in the root collection, are the column names the catalog
    delivered for that index: all of them, in the order of delivery. *)
Theorem index_columns_in_catalog_order (a : Adapter) (w : World) :
  Forall (fun t => Forall (columns_as_delivered a) (elems (Table_Indexes t)))
    (elems (fst (fst (GetTables (methods a) w)))) /\
  (forall s, fst (fst (ExtractSchema (methods a) w)) = Some s ->
     Forall (fun t => Forall (columns_as_delivered a) (elems (Table_Indexes t)))
       (elems (Schema_Tables s)) /\
     Forall (columns_as_delivered a) (elems (Schema_Indexes s))).
Proof.
  split.
  - eapply Forall_impl; [apply (GetTables_design a w) |]. by intros t [_ Hindexes].
  - intros s Hs.
    destruct (ExtractSchema_design a w s Hs) as [(Htables & _ & _) Hindexes].
    split; [| exact Hindexes].
    eapply Forall_impl; [exact Htables |]. by intros t [_ Ht].
Qed.

(** C10. Every trigger the SQL Server adapter's [GetTriggers] returns has
    [Level] ["ROW"] and [TargetType] ["TABLE"], whatever the catalog
    delivered for it. *)
Theorem mssql_triggers_row_table (e : mssql.Extractor) (w : World) :
  Forall row_level_table_trigger (elems (fst (fst (mssql.GetTriggers e w)))).
Proof. apply (ms_GetTriggers_row_level e w). Qed.

Lemma pg_every_call_filter e :
  postgres.schemaFilter e = mk_slice ["public"] ->
  every_call (restricted_to ["public"] "$1") (methods (PostgreSQL e)).
Proof.
  intros Hf. unfold every_call. simpl. split_and!.
  - apply pg_GetDatabaseInfo_filter. filter_premise.
  - by apply pg_GetTables_filter.
  - by apply pg_GetViews_filter.
  - by apply pg_GetRoutines_filter.
  - by apply pg_GetSequences_filter.
  - by apply pg_GetTriggers_filter.
  - apply pg_GetSynonyms_filter. filter_premise.
  - by apply pg_ExtractSchema_filter.
Qed.

Lemma ms_every_call_filter e :
  mssql.schemaFilter e = mk_slice ["dbo"] ->
  every_call (restricted_to ["dbo"] "@p1") (methods (MSSQL e)).
Proof.
  intros Hf. unfold every_call. simpl. split_and!.
  - apply ms_GetDatabaseInfo_filter. filter_premise.
  - by apply ms_GetTables_filter.
  - by apply ms_GetViews_filter.
  - by apply ms_GetRoutines_filter.
  - by apply ms_GetSequences_filter.
  - by apply ms_GetTriggers_filter.
  - by apply ms_GetSynonyms_filter.
  - by apply ms_ExtractSchema_filter.
Qed.

Lemma my_every_call_filter e database :
  mysql.schemaFilter e = mk_slice [database] ->
  every_call (restricted_to [database] "?") (methods (MySQL e)).
Proof.
  intros Hf. unfold every_call. simpl. split_and!.
  - apply my_GetDatabaseInfo_filter. filter_premise.
  - by apply my_GetTables_filter.
  - by apply my_GetViews_filter.
  - by apply my_GetRoutines_filter.
  - apply my_GetSequences_filter. filter_premise.
  - by apply my_GetTriggers_filter.
  - apply my_GetSynonyms_filter. filter_premise.
  - by apply my_ExtractSchema_filter.
Qed.

Lemma ora_every_call_filter e :
  elems (oracle.schemaFilter e) = [] ->
  every_call unrestricted (methods (Oracle e)).
Proof.
  intros Hf. unfold every_call. simpl. split_and!.
  - apply ora_GetDatabaseInfo_filter. filter_premise.
  - by apply ora_GetTables_filter.
  - by apply ora_GetViews_filter.
  - by apply ora_GetRoutines_filter.
  - by apply ora_GetSequences_filter.
  - by apply ora_GetTriggers_filter.
  - by apply ora_GetSynonyms_filter.
  - by apply ora_ExtractSchema_filter.
Qed.

Lemma len_0_elems {A} (s : slice A) : len s = 0%nat -> elems s = [].
Proof. unfold len. by destruct (elems s). Qed.

(** C5 (amended). An adapter constructed with an empty schema filter gets
    the default its constructor hard-codes: [public] for PostgreSQL, [dbo]
    for SQL Server, the configured database for MySQL; every catalog query
    that selects by owner then binds exactly that schema in an [IN]
    clause. The Oracle constructor has no default: the filter stays empty
    and the catalog queries that select by owner carry no [IN] clause and
    bind no owner. *)
Theorem default_schema_filter :
  (forall sql_Open cfg e,
     len (postgres.SchemaFilter cfg) = 0%nat ->
     fst (postgres.NewExtractor sql_Open cfg) = Some e ->
     postgres.schemaFilter e = mk_slice ["public"] /\
     every_call (restricted_to ["public"] "$1") (methods (PostgreSQL e))) /\
  (forall sql_Open cfg e,
     len (mssql.SchemaFilter cfg) = 0%nat ->
     fst (mssql.NewExtractor sql_Open cfg) = Some e ->
     mssql.schemaFilter e = mk_slice ["dbo"] /\
     every_call (restricted_to ["dbo"] "@p1") (methods (MSSQL e))) /\
  (forall sql_Open cfg e,
     len (mysql.SchemaFilter cfg) = 0%nat ->
     fst (mysql.NewExtractor sql_Open cfg) = Some e ->
     mysql.schemaFilter e = mk_slice [mysql.Database cfg] /\
     every_call (restricted_to [mysql.Database cfg] "?") (methods (MySQL e))) /\
  (forall sql_Open cfg e,
     len (oracle.SchemaFilter cfg) = 0%nat ->
     fst (oracle.NewExtractor sql_Open cfg) = Some e ->
     oracle.schemaFilter e = oracle.SchemaFilter cfg /\
     every_call unrestricted (methods (Oracle e))).
Proof.
  split_and!; intros sql_Open cfg e Hlen.
  - unfold postgres.NewExtractor. destruct (sql_Open _ _) as [db | err]; [| done].
    rewrite Hlen. simpl. intros [= <-]. split; [done |].
    by apply pg_every_call_filter.
  - unfold mssql.NewExtractor. destruct (sql_Open _ _) as [db | err]; [| done].
    rewrite Hlen. simpl. intros [= <-]. split; [done |].
    by apply ms_every_call_filter.
  - unfold mysql.NewExtractor. destruct (sql_Open _ _) as [db | err]; [| done].
    rewrite Hlen. simpl. intros [= <-]. split; [done |].
    by apply my_every_call_filter.
  - unfold oracle.NewExtractor. destruct (sql_Open _ _) as [db | err]; [| done].
    simpl. intros [= <-]. split; [done |].
    apply ora_every_call_filter. simpl. by apply len_0_elems.
Qed.

(** A PostgreSQL extractor constructed without a schema filter is
    restricted to [public]. *)
Lemma pg_default_public :
  exists e,
    fst (postgres.NewExtractor pg_open pg_config) = Some e /\
    postgres.schemaFilter e = mk_slice ["public"] /\
    every_call (restricted_to ["public"] "$1") (methods (PostgreSQL e)).
Proof.
  eexists. split; [reflexivity |].
  apply (proj1 default_schema_filter pg_open pg_config); reflexivity.
Defined.

(** Connected as [HR] with an empty filter, the Oracle extractor keeps the
    nil filter, binds no owner in the table query and lists the table of
    [SYS] next to the one of [HR]. *)
Lemma oracle_filter_stays_empty :
  len (oracle.SchemaFilter hr_config) = 0%nat /\
  oracle.Username hr_config = "HR" /\
  exists e,
    fst (oracle.NewExtractor hr_open hr_config) = Some e /\
    oracle.schemaFilter e = nil_slice /\
    snd (fst (GetTables (methods (Oracle e)) [])) = None /\
    map Table_Owner (elems (fst (fst (GetTables (methods (Oracle e)) []))))
      = ["HR"; "SYS"] /\
    head (snd (GetTables (methods (Oracle e)) []))
      = Some (mkEvent CallQueryContext
                (mkQuery SelTables " ORDER BY t.OWNER, t.TABLE_NAME" []) None).
Proof.
  split; [reflexivity |]. split; [reflexivity |].
  eexists. split; [reflexivity |]. split; [reflexivity |].
  split_and!; by vm_compute.
Qed.

(** C6 (amended). For every adapter, when an operation of the interface
    returns the nil error, every driver call made during it returned the
    nil error too, with one exception: the PostgreSQL, SQL Server and
    MySQL adapters leave the error of the per-column lookup of the
    foreign-key target unreported. The Oracle adapter has no such lookup
    and reports every error. *)
Theorem errors_reach_the_caller (a : Adapter) :
  errors_surface (tolerated a) (methods a).
Proof.
  destruct a as [e | e | e | e]; unfold errors_surface; simpl; split_and!.
  - apply ora_GetDatabaseInfo_quiet.
  - apply ora_GetTables_quiet.
  - apply ora_GetViews_quiet.
  - apply ora_GetRoutines_quiet.
  - apply ora_GetSequences_quiet.
  - apply ora_GetTriggers_quiet.
  - apply ora_GetSynonyms_quiet.
  - apply ora_ExtractSchema_quiet.
  - apply my_GetDatabaseInfo_quiet.
  - apply my_GetTables_quiet.
  - apply my_GetViews_quiet.
  - apply my_GetRoutines_quiet.
  - apply my_GetSequences_quiet.
  - apply my_GetTriggers_quiet.
  - apply my_GetSynonyms_quiet.
  - apply my_ExtractSchema_quiet.
  - apply pg_GetDatabaseInfo_quiet.
  - apply pg_GetTables_quiet.
  - apply pg_GetViews_quiet.
  - apply pg_GetRoutines_quiet.
  - apply pg_GetSequences_quiet.
  - apply pg_GetTriggers_quiet.
  - apply pg_GetSynonyms_quiet.
  - apply pg_ExtractSchema_quiet.
  - apply ms_GetDatabaseInfo_quiet.
  - apply ms_GetTables_quiet.
  - apply ms_GetViews_quiet.
  - apply ms_GetRoutines_quiet.
  - apply ms_GetSequences_quiet.
  - apply ms_GetTriggers_quiet.
  - apply ms_GetSynonyms_quiet.
  - apply ms_ExtractSchema_quiet.
Qed.

(** The lookup of the target of [shop.orders.customer_id] fails, and
    [GetTables] returns the nil error. *)
Lemma fk_lookup_error_unreported :
  snd (fst (GetTables (methods (MySQL shop)) [])) = None /\
  mkEvent CallQueryRowScan
    (mkQuery SelForeignKeyTarget "" ["shop"; "orders"; "customer_id"])
    (Some (errors_New "sql: no rows in result set"))
  ∈ snd (GetTables (methods (MySQL shop)) []).
Proof.
  split; [by vm_compute |].
  apply list_elem_of_In. vm_compute. tauto.
Qed.

(** ** The error an operation returns *)

Lemma reported_app err evs1 evs2 : reported err evs2 -> reported err (evs1 ++ evs2).
Proof.
  intros (ev & cause & Hlast & Hev & Hcause). exists ev, cause.
  split_and!; [| done | done]. by rewrite last_app, Hlast.
Qed.

Lemma reported_wrap err err' evs :
  root_cause err' = root_cause err -> reported err evs -> reported err' evs.
Proof.
  intros Heq (ev & cause & Hlast & Hev & Hcause). exists ev, cause.
  split_and!; [done | done | congruence].
Qed.

Lemma reported_call err call q cause :
  root_cause err = root_cause cause -> reported err [mkEvent call q (Some cause)].
Proof. intros H. by exists (mkEvent call q (Some cause)), cause. Qed.

Lemma stops_for_rows {R S} q h (body : S -> R -> M (S * option error))
    (rows : list (error + R)) :
  (forall e, root_cause (h e) = root_cause e) ->
  (forall acc r, stops_at_failure (body acc r)) ->
  forall acc, stops_at_failure (for_rows q h body rows acc).
Proof.
  intros Hh Hbody. induction rows as [|row rows IH]; intros acc; simpl.
  - apply Trace_ret. by intros err.
  - eapply Trace_bind; [apply Trace_Scan |]. intros ? evs1 [-> ->].
    destruct row as [err | r].
    + apply Trace_ret. simpl. intros ? [= <-]. by apply reported_call.
    + eapply Trace_bind; [apply Hbody |]. intros [acc' [err |]] evs2 H2; simpl in *.
      * apply Trace_ret. intros ? [= <-]. rewrite app_nil_r.
        apply (reported_app _ [_]). by apply H2.
      * eapply Trace_weaken; [apply IH |]. simpl. intros res evs3 H3 err Herr.
        apply (reported_app _ [_]), reported_app. by apply H3.
Qed.

Lemma reported_cons err ev evs : reported err evs -> reported err (ev :: evs).
Proof. apply (reported_app err [ev]). Qed.

(** The end of a path: the error returned, if any, is the one of the last
    driver call on the path. *)
Ltac reported_last :=
  first
    [ apply reported_call; reflexivity
    | match goal with
      | H : forall err, Some ?e = Some err -> reported err ?evs |- reported _ ?evs =>
        apply (reported_wrap e); [reflexivity | by apply H]
      end
    | apply reported_cons; reported_last
    | apply reported_app; reported_last ].

Ltac reported_here :=
  simpl in *; intros; simplify_eq/=; rewrite ?app_nil_r; reported_last.

Ltac walk leaf loop callee :=
  lazymatch goal with
  | |- stops_at_failure _ => unfold stops_at_failure
  | |- always _ _ => unfold always
  | |- Trace (mret _) _ => apply Trace_ret; leaf
  | |- Trace (match ?x with _ => _ end) _ => destruct x
  | |- Trace (if ?b then _ else _) _ => destruct b
  | |- Trace (mbind _ (if ?b then _ else _)) _ => destruct b
  | |- Trace (mbind _ (match ?x with _ => _ end)) _ => destruct x
  | |- Trace (mbind _ (mbind _ _)) _ => apply Trace_assoc
  | |- Trace (mbind _ (mret _)) _ => apply Trace_ret_bind; cbn beta iota
  | |- Trace (mbind _ (QueryContext _ _)) _ =>
    eapply Trace_bind; [apply Trace_QueryContext | intros ? ? ->]
  | |- Trace (mbind _ (QueryRowScan _ _)) _ =>
    eapply Trace_bind; [apply Trace_QueryRowScan | intros ? ? ->]
  | |- Trace (mbind _ (Err _ _)) _ =>
    eapply Trace_bind; [apply Trace_Err | intros ? ? ->]
  | |- Trace (mbind _ (time_Now _)) _ =>
    eapply Trace_bind; [apply Trace_time_Now | intros ? ? ->]
  | |- Trace (mbind _ (for_rows _ _ _ _ _)) _ =>
    eapply Trace_bind;
    [ loop; intros ? ?; destruct_tuples | intros [? ?] ? ? ]
  | |- Trace (mbind _ _) _ =>
    eapply Trace_bind; [ callee | intros [? ?] ? ? ]
  end.

Ltac stops_auto callee :=
  repeat (walk ltac:(reported_here) ltac:(apply stops_for_rows; [done |]) callee).

Lemma pg_getForeignKeyTarget_stops e schema table column :
  stops_at_failure (postgres.getForeignKeyTarget e schema table column).
Proof. unfold postgres.getForeignKeyTarget. stops_auto fail. Qed.

Lemma pg_getColumnsForTable_stops e schema table :
  stops_at_failure (postgres.getColumnsForTable e schema table).
Proof. unfold postgres.getColumnsForTable. stops_auto ltac:(first [apply pg_getForeignKeyTarget_stops]). Qed.

Lemma pg_getIndexColumns_stops e schema index :
  stops_at_failure (postgres.getIndexColumns e schema index).
Proof. unfold postgres.getIndexColumns. stops_auto fail. Qed.

Lemma pg_getIndexesForTable_stops e schema table :
  stops_at_failure (postgres.getIndexesForTable e schema table).
Proof. unfold postgres.getIndexesForTable. stops_auto ltac:(first [apply pg_getIndexColumns_stops]). Qed.









Lemma ms_getForeignKeyTarget_stops e schema table column :
  stops_at_failure (mssql.getForeignKeyTarget e schema table column).
Proof. unfold mssql.getForeignKeyTarget. stops_auto fail. Qed.

Lemma ms_getColumnsForTable_stops e schema table :
  stops_at_failure (mssql.getColumnsForTable e schema table).
Proof. unfold mssql.getColumnsForTable. stops_auto ltac:(first [apply ms_getForeignKeyTarget_stops]). Qed.

Lemma ms_getIndexColumns_stops e schema table index :
  stops_at_failure (mssql.getIndexColumns e schema table index).
Proof. unfold mssql.getIndexColumns. stops_auto fail. Qed.

Lemma ms_getIndexesForTable_stops e schema table :
  stops_at_failure (mssql.getIndexesForTable e schema table).
Proof. unfold mssql.getIndexesForTable. stops_auto ltac:(first [apply ms_getIndexColumns_stops]). Qed.

Lemma ms_getColumnsForView_stops e schema view :
  stops_at_failure (mssql.getColumnsForView e schema view).
Proof. unfold mssql.getColumnsForView. stops_auto fail. Qed.

Lemma ms_getRoutineParameters_stops e schema routine :
  stops_at_failure (mssql.getRoutineParameters e schema routine).
Proof. unfold mssql.getRoutineParameters. stops_auto fail. Qed.









Lemma my_getForeignKeyTarget_stops e schema table column :
  stops_at_failure (mysql.getForeignKeyTarget e schema table column).
Proof. unfold mysql.getForeignKeyTarget. stops_auto fail. Qed.

Lemma my_getColumnsForTable_stops e schema table :
  stops_at_failure (mysql.getColumnsForTable e schema table).
Proof. unfold mysql.getColumnsForTable. stops_auto ltac:(first [apply my_getForeignKeyTarget_stops]). Qed.

Lemma my_getIndexColumns_stops e schema table index :
  stops_at_failure (mysql.getIndexColumns e schema table index).
Proof. unfold mysql.getIndexColumns. stops_auto fail. Qed.

Lemma my_getIndexesForTable_stops e schema table :
  stops_at_failure (mysql.getIndexesForTable e schema table).
Proof. unfold mysql.getIndexesForTable. stops_auto ltac:(first [apply my_getIndexColumns_stops]). Qed.

Lemma my_getRoutineParameters_stops e schema routine :
  stops_at_failure (mysql.getRoutineParameters e schema routine).
Proof. unfold mysql.getRoutineParameters. stops_auto fail. Qed.









Lemma ora_enrichColumnsWithConstraints_stops e owner table columns :
  stops_at_failure (oracle.enrichColumnsWithConstraints e owner table columns).
Proof. unfold oracle.enrichColumnsWithConstraints. stops_auto fail. Qed.

Lemma ora_getColumnsForTable_stops e owner table :
  stops_at_failure (oracle.getColumnsForTable e owner table).
Proof. unfold oracle.getColumnsForTable. stops_auto ltac:(first [apply ora_enrichColumnsWithConstraints_stops]). Qed.

Lemma ora_getIndexColumns_stops e owner index :
  stops_at_failure (oracle.getIndexColumns e owner index).
Proof. unfold oracle.getIndexColumns. stops_auto fail. Qed.

Lemma ora_getIndexesForTable_stops e owner table :
  stops_at_failure (oracle.getIndexesForTable e owner table).
Proof. unfold oracle.getIndexesForTable. stops_auto ltac:(first [apply ora_getIndexColumns_stops]). Qed.

Lemma ora_getRoutineArguments_stops e owner object :
  stops_at_failure (oracle.getRoutineArguments e owner object).
Proof. unfold oracle.getRoutineArguments. stops_auto fail. Qed.









(** ** What comes back with an error *)

Lemma extends_for_rows {R S} q h (body : S -> R -> M (S * option error))
    (rows : list (error + R)) :
  (forall acc r, Trace (body acc r) (fun _ _ => True)) ->
  forall acc, Trace (for_rows q h body rows acc) (fun _ _ => True).
Proof.
  intros Hbody. induction rows as [|row rows IH]; intros acc; simpl.
  - by apply Trace_ret.
  - eapply Trace_bind; [apply Trace_Scan |]. intros ? evs1 [-> _].
    destruct row as [err | r]; [by apply Trace_ret |].
    eapply Trace_bind; [apply Hbody |]. intros [acc' [err |]] evs2 _.
    + by apply Trace_ret.
    + eapply Trace_weaken; [apply IH | done].
Qed.

(** The functions that run one query and collect one value per row. *)
Lemma collect_nil_unless {R T} (answer : World -> Query -> error + Rows R) q h0 h
    (body : slice T -> R -> M (slice T * option error)) :
  (forall acc r, Trace (body acc r) (fun _ _ => True)) ->
  nil_unless_iteration_error
    (res ← QueryContext answer q;
     match res with
     | inl err => mret (nil_slice, Some (h0 err))
     | inr rows =>
       '(xs, err) ← for_rows q h body (delivered rows) nil_slice;
       match err with
       | Some err => mret (nil_slice, Some err)
       | None => err ← Err q rows; mret (xs, err)
       end
     end).
Proof.
  intros Hbody. unfold nil_unless_iteration_error.
  eapply Trace_bind; [apply Trace_QueryContext |]. intros [err | rows] evs1 ->.
  - apply Trace_ret. by left.
  - eapply Trace_bind; [by apply extends_for_rows |]. intros [xs [err |]] evs2 _.
    + apply Trace_ret. by left.
    + eapply Trace_bind; [apply Trace_Err |]. intros err evs3 ->.
      apply Trace_ret. simpl. intros err' ->. right. eexists.
      rewrite ?app_nil_r, app_comm_cons. apply last_snoc.
Qed.

Ltac nested_calls :=
  first
    [ apply pg_getColumnsForTable_stops | apply pg_getIndexesForTable_stops
    | apply ora_getColumnsForTable_stops | apply ora_getIndexesForTable_stops
    | apply ora_getRoutineArguments_stops
    | apply ms_getColumnsForTable_stops | apply ms_getIndexesForTable_stops
    | apply ms_getColumnsForView_stops | apply ms_getRoutineParameters_stops
    | apply my_getColumnsForTable_stops | apply my_getIndexesForTable_stops
    | apply my_getRoutineParameters_stops ].

Ltac collects :=
  first
    [ apply Trace_ret; by intros err
    | apply collect_nil_unless; intros acc r; destruct_tuples;
      repeat (walk ltac:(done) ltac:(fail) ltac:(nested_calls)) ].

(** X2. For every adapter and every operation that returns a collection:
    when the operation fails, the collection returned is nil, with one
    exception: when the failure is the one [rows.Err()] reports once the
    rows are read, the values collected so far come back with the error. *)
Theorem failed_collection_is_nil (a : Adapter) : every_collection_nil_unless (methods a).
Proof.
  destruct a as [e | e | e | e]; unfold every_collection_nil_unless; simpl;
    split_and!.
  - unfold oracle.GetTables. collects.
  - unfold oracle.GetViews. collects.
  - unfold oracle.GetRoutines. collects.
  - unfold oracle.GetSequences. collects.
  - unfold oracle.GetTriggers. collects.
  - unfold oracle.GetSynonyms. collects.
  - unfold mysql.GetTables. collects.
  - unfold mysql.GetViews. collects.
  - unfold mysql.GetRoutines. collects.
  - unfold mysql.GetSequences. collects.
  - unfold mysql.GetTriggers. collects.
  - unfold mysql.GetSynonyms. collects.
  - unfold postgres.GetTables. collects.
  - unfold postgres.GetViews. collects.
  - unfold postgres.GetRoutines. collects.
  - unfold postgres.GetSequences. collects.
  - unfold postgres.GetTriggers. collects.
  - unfold postgres.GetSynonyms. collects.
  - unfold mssql.GetTables. collects.
  - unfold mssql.GetViews. collects.
  - unfold mssql.GetRoutines. collects.
  - unfold mssql.GetSequences. collects.
  - unfold mssql.GetTriggers. collects.
  - unfold mssql.GetSynonyms. collects.
Qed.

(** ** An explicit schema filter *)

Lemma filter_args_elems (schemaFilter : slice string) :
  elems (filter_args schemaFilter) = elems schemaFilter.
Proof.
  unfold filter_args.
  assert (forall (l : list string) (acc : slice string),
            elems (foldl append acc l) = elems acc ++ l) as H.
  { induction l as [|x l IH]; intros acc; simpl; [by rewrite app_nil_r |].
    rewrite IH, elems_append, <- app_assoc. done. }
  apply H.
Qed.

Lemma imap_index_only {A B} (f : nat -> B) (l : list A) :
  imap (fun i _ => f i) l = map f (seq 0 (length l)).
Proof.
  revert f. induction l as [|x l IH]; intros f; [done |].
  simpl. f_equal. rewrite <- seq_shift, map_map. apply (IH (f ∘ S)).
Qed.

Lemma filter_clause_nonempty (schemaFilter : slice string) placeholder format :
  (0 <? len schemaFilter)%nat = true ->
  filter_clause schemaFilter placeholder format
    = fmt.Sprintf format [fmt.S_ (placeholders placeholder (len schemaFilter))].
Proof.
  intros H. unfold filter_clause, placeholders. rewrite H.
  pose proof (assign_by_index_spec (fun i (_ : string) => placeholder i)
                (elems schemaFilter) 0 [] (replicate (len schemaFilter) "")
                eq_refl (length_replicate _ _)) as Hassign.
  simpl in Hassign. rewrite Hassign, imap_index_only. done.
Qed.

Lemma HasPrefix_refl s : strings.HasPrefix s s = true.
Proof. induction s as [|c s IH]; [done |]. simpl. by rewrite Ascii.eqb_refl. Qed.

Lemma HasPrefix_app s t : strings.HasPrefix (s +:+ t) s = true.
Proof.
  induction s as [|c s IH]; [by destruct t |]. simpl. by rewrite Ascii.eqb_refl.
Qed.

Lemma Contains_prefix s m : strings.HasPrefix s m = true -> strings.Contains s m = true.
Proof. intros H. destruct s; cbn [strings.Contains]; by rewrite H. Qed.

Lemma Contains_cons c s m :
  strings.Contains s m = true -> strings.Contains (String c s) m = true.
Proof. intros H. cbn [strings.Contains]. rewrite H. apply orb_true_r. Qed.

Lemma Contains_append_l p s m :
  strings.Contains s m = true -> strings.Contains (p +:+ s) m = true.
Proof. intros H. induction p as [|c p IH]; [done |]. by apply Contains_cons. Qed.

Lemma HasPrefix_append_r s t m :
  strings.HasPrefix s m = true -> strings.HasPrefix (s +:+ t) m = true.
Proof.
  revert s. induction m as [|c m IH]; intros s H; [by destruct (s +:+ t) |].
  destruct s as [|c' s]; [done |]. simpl in *.
  destruct (Ascii.eqb c c'); [by apply IH | done].
Qed.

Lemma Contains_append_r s t m :
  strings.Contains s m = true -> strings.Contains (s +:+ t) m = true.
Proof.
  induction s as [|c s IH]; cbn [strings.Contains]; intros H.
  - rewrite orb_false_r in H. apply Contains_prefix.
    by apply (HasPrefix_append_r "").
  - apply orb_true_iff in H as [H | H].
    + apply Contains_prefix. by apply (HasPrefix_append_r (String c s)).
    + apply Contains_cons. by apply IH.
Qed.

Lemma Sprintf_in_clause pre marks :
  no_verb pre = true ->
  fmt.Sprintf (pre +:+ " IN (%s)") [fmt.S_ marks] = pre +:+ " IN (" +:+ marks +:+ ")".
Proof.
  induction pre as [|c pre IH]; intros H; [done |].
  simpl in H. apply andb_true_iff in H as [Hc Hpre].
  change (String c pre +:+ " IN (%s)") with (String c (pre +:+ " IN (%s)")).
  cbn [fmt.Sprintf]. destruct (Ascii.eqb c "%"); [done |].
  by rewrite IH.
Qed.

(** The [IN] clause is found in the text appended to the query. *)
Ltac in_clause :=
  first
    [ apply Contains_append_l, Contains_prefix, HasPrefix_refl
    | apply Contains_append_r, Contains_append_l, Contains_prefix, HasPrefix_refl ].

Ltac bound_event :=
  first
    [ match goal with
      | HP : forall ev, selects_by_owner _ = false -> _ |- _ => by apply HP
      end
    | apply restricted_to_other; reflexivity
    | unfold restricted_to; cbn [ev_query statement args appended selects_by_owner];
      intros _; split; [reflexivity | in_clause] ].

Ltac bound_events :=
  cbn [fst snd] in *; intros; simplify_eq/=;
  repeat first [rewrite Forall_app | rewrite Forall_cons | rewrite Forall_nil];
  repeat match goal with
         | |- _ /\ _ => split
         end;
  auto; try bound_event.

Ltac bound_auto P callee :=
  repeat (walk ltac:(bound_events)
               ltac:(apply (always_for_rows P); [intros; bound_event |])
               callee).

(** The query of an operation under a filter that is not empty. *)
Ltac bound_filter Hlen :=
  rewrite ?filter_args_elems, ?(filter_clause_nonempty _ _ _ Hlen);
  repeat match goal with
         | |- context [fmt.Sprintf ?F [fmt.S_ ?m]] =>
           let pre := eval vm_compute in (substring 0 (String.length F - 8) F) in
           change F with (pre +:+ " IN (%s)");
           rewrite (Sprintf_in_clause pre m eq_refl)
         end;
  match goal with
  | |- context [placeholders ?p ?n] => generalize (placeholders p n)
  end;
  match goal with
  | |- context [elems ?s] => generalize (elems s)
  end;
  intros schemas marks.

Lemma pg_GetTables_bound e :
  (0 <? len (postgres.schemaFilter e))%nat = true ->
  always (restricted_to (elems (postgres.schemaFilter e))
            (placeholders postgres.placeholder (len (postgres.schemaFilter e))))
    (postgres.GetTables e).
Proof.
  intros Hlen. unfold postgres.GetTables. bound_filter Hlen.
  bound_auto (restricted_to schemas marks)
    ltac:(first [apply (pg_getColumnsForTable_filter e (restricted_to schemas marks)); apply restricted_to_other
                | apply (pg_getIndexesForTable_filter e (restricted_to schemas marks)); apply restricted_to_other]).
Qed.

Lemma pg_GetViews_bound e :
  (0 <? len (postgres.schemaFilter e))%nat = true ->
  always (restricted_to (elems (postgres.schemaFilter e))
            (placeholders postgres.placeholder (len (postgres.schemaFilter e))))
    (postgres.GetViews e).
Proof.
  intros Hlen. unfold postgres.GetViews. bound_filter Hlen.
  bound_auto (restricted_to schemas marks)
    ltac:(first [apply (pg_getColumnsForTable_filter e (restricted_to schemas marks)); apply restricted_to_other]).
Qed.

Lemma pg_GetRoutines_bound e :
  (0 <? len (postgres.schemaFilter e))%nat = true ->
  always (restricted_to (elems (postgres.schemaFilter e))
            (placeholders postgres.placeholder (len (postgres.schemaFilter e))))
    (postgres.GetRoutines e).
Proof.
  intros Hlen. unfold postgres.GetRoutines. bound_filter Hlen.
  bound_auto (restricted_to schemas marks)
    fail.
Qed.

Lemma pg_GetSequences_bound e :
  (0 <? len (postgres.schemaFilter e))%nat = true ->
  always (restricted_to (elems (postgres.schemaFilter e))
            (placeholders postgres.placeholder (len (postgres.schemaFilter e))))
    (postgres.GetSequences e).
Proof.
  intros Hlen. unfold postgres.GetSequences. bound_filter Hlen.
  bound_auto (restricted_to schemas marks)
    fail.
Qed.

Lemma pg_GetTriggers_bound e :
  (0 <? len (postgres.schemaFilter e))%nat = true ->
  always (restricted_to (elems (postgres.schemaFilter e))
            (placeholders postgres.placeholder (len (postgres.schemaFilter e))))
    (postgres.GetTriggers e).
Proof.
  intros Hlen. unfold postgres.GetTriggers. bound_filter Hlen.
  bound_auto (restricted_to schemas marks)
    fail.
Qed.

Lemma pg_ExtractSchema_bound e :
  (0 <? len (postgres.schemaFilter e))%nat = true ->
  always (restricted_to (elems (postgres.schemaFilter e))
            (placeholders postgres.placeholder (len (postgres.schemaFilter e))))
    (postgres.ExtractSchema e).
Proof.
  intros Hlen. unfold postgres.ExtractSchema.
  bound_auto (restricted_to (elems (postgres.schemaFilter e)) (placeholders postgres.placeholder (len (postgres.schemaFilter e))))
    ltac:(first [apply (pg_GetDatabaseInfo_filter e (restricted_to (elems (postgres.schemaFilter e)) (placeholders postgres.placeholder (len (postgres.schemaFilter e))))); apply restricted_to_other
                | by apply pg_GetTables_bound
                | by apply pg_GetViews_bound
                | by apply pg_GetRoutines_bound
                | by apply pg_GetSequences_bound
                | by apply pg_GetTriggers_bound
                | apply (pg_GetSynonyms_filter e (restricted_to (elems (postgres.schemaFilter e)) (placeholders postgres.placeholder (len (postgres.schemaFilter e))))); apply restricted_to_other]).
Qed.

Lemma pg_every_call_bound e :
  (0 <? len (postgres.schemaFilter e))%nat = true ->
  every_call (restricted_to (elems (postgres.schemaFilter e))
            (placeholders postgres.placeholder (len (postgres.schemaFilter e))))
    (methods (PostgreSQL e)).
Proof.
  intros Hlen. unfold every_call. simpl. split_and!.
  - apply pg_GetDatabaseInfo_filter. apply restricted_to_other.
  - by apply pg_GetTables_bound.
  - by apply pg_GetViews_bound.
  - by apply pg_GetRoutines_bound.
  - by apply pg_GetSequences_bound.
  - by apply pg_GetTriggers_bound.
  - apply pg_GetSynonyms_filter. apply restricted_to_other.
  - by apply pg_ExtractSchema_bound.
Qed.

Lemma ora_GetTables_bound e :
  (0 <? len (oracle.schemaFilter e))%nat = true ->
  always (restricted_to (elems (oracle.schemaFilter e))
            (placeholders oracle.placeholder (len (oracle.schemaFilter e))))
    (oracle.GetTables e).
Proof.
  intros Hlen. unfold oracle.GetTables. bound_filter Hlen.
  bound_auto (restricted_to schemas marks)
    ltac:(first [apply (ora_getColumnsForTable_filter e (restricted_to schemas marks)); apply restricted_to_other
                | apply (ora_getIndexesForTable_filter e (restricted_to schemas marks)); apply restricted_to_other]).
Qed.

Lemma ora_GetViews_bound e :
  (0 <? len (oracle.schemaFilter e))%nat = true ->
  always (restricted_to (elems (oracle.schemaFilter e))
            (placeholders oracle.placeholder (len (oracle.schemaFilter e))))
    (oracle.GetViews e).
Proof.
  intros Hlen. unfold oracle.GetViews. bound_filter Hlen.
  bound_auto (restricted_to schemas marks)
    ltac:(first [apply (ora_getColumnsForTable_filter e (restricted_to schemas marks)); apply restricted_to_other]).
Qed.

Lemma ora_GetRoutines_bound e :
  (0 <? len (oracle.schemaFilter e))%nat = true ->
  always (restricted_to (elems (oracle.schemaFilter e))
            (placeholders oracle.placeholder (len (oracle.schemaFilter e))))
    (oracle.GetRoutines e).
Proof.
  intros Hlen. unfold oracle.GetRoutines. bound_filter Hlen.
  bound_auto (restricted_to schemas marks)
    ltac:(first [apply (ora_getRoutineArguments_filter e (restricted_to schemas marks)); apply restricted_to_other]).
Qed.

Lemma ora_GetSequences_bound e :
  (0 <? len (oracle.schemaFilter e))%nat = true ->
  always (restricted_to (elems (oracle.schemaFilter e))
            (placeholders oracle.placeholder (len (oracle.schemaFilter e))))
    (oracle.GetSequences e).
Proof.
  intros Hlen. unfold oracle.GetSequences. bound_filter Hlen.
  bound_auto (restricted_to schemas marks)
    fail.
Qed.

Lemma ora_GetTriggers_bound e :
  (0 <? len (oracle.schemaFilter e))%nat = true ->
  always (restricted_to (elems (oracle.schemaFilter e))
            (placeholders oracle.placeholder (len (oracle.schemaFilter e))))
    (oracle.GetTriggers e).
Proof.
  intros Hlen. unfold oracle.GetTriggers. bound_filter Hlen.
  bound_auto (restricted_to schemas marks)
    fail.
Qed.

Lemma ora_GetSynonyms_bound e :
  (0 <? len (oracle.schemaFilter e))%nat = true ->
  always (restricted_to (elems (oracle.schemaFilter e))
            (placeholders oracle.placeholder (len (oracle.schemaFilter e))))
    (oracle.GetSynonyms e).
Proof.
  intros Hlen. unfold oracle.GetSynonyms. bound_filter Hlen.
  bound_auto (restricted_to schemas marks)
    fail.
Qed.

Lemma ora_ExtractSchema_bound e :
  (0 <? len (oracle.schemaFilter e))%nat = true ->
  always (restricted_to (elems (oracle.schemaFilter e))
            (placeholders oracle.placeholder (len (oracle.schemaFilter e))))
    (oracle.ExtractSchema e).
Proof.
  intros Hlen. unfold oracle.ExtractSchema.
  bound_auto (restricted_to (elems (oracle.schemaFilter e)) (placeholders oracle.placeholder (len (oracle.schemaFilter e))))
    ltac:(first [apply (ora_GetDatabaseInfo_filter e (restricted_to (elems (oracle.schemaFilter e)) (placeholders oracle.placeholder (len (oracle.schemaFilter e))))); apply restricted_to_other
                | by apply ora_GetTables_bound
                | by apply ora_GetViews_bound
                | by apply ora_GetRoutines_bound
                | by apply ora_GetSequences_bound
                | by apply ora_GetTriggers_bound
                | by apply ora_GetSynonyms_bound]).
Qed.

Lemma ora_every_call_bound e :
  (0 <? len (oracle.schemaFilter e))%nat = true ->
  every_call (restricted_to (elems (oracle.schemaFilter e))
            (placeholders oracle.placeholder (len (oracle.schemaFilter e))))
    (methods (Oracle e)).
Proof.
  intros Hlen. unfold every_call. simpl. split_and!.
  - apply ora_GetDatabaseInfo_filter. apply restricted_to_other.
  - by apply ora_GetTables_bound.
  - by apply ora_GetViews_bound.
  - by apply ora_GetRoutines_bound.
  - by apply ora_GetSequences_bound.
  - by apply ora_GetTriggers_bound.
  - by apply ora_GetSynonyms_bound.
  - by apply ora_ExtractSchema_bound.
Qed.

Lemma ms_GetTables_bound e :
  (0 <? len (mssql.schemaFilter e))%nat = true ->
  always (restricted_to (elems (mssql.schemaFilter e))
            (placeholders mssql.placeholder (len (mssql.schemaFilter e))))
    (mssql.GetTables e).
Proof.
  intros Hlen. unfold mssql.GetTables. bound_filter Hlen.
  bound_auto (restricted_to schemas marks)
    ltac:(first [apply (ms_getColumnsForTable_filter e (restricted_to schemas marks)); apply restricted_to_other
                | apply (ms_getIndexesForTable_filter e (restricted_to schemas marks)); apply restricted_to_other]).
Qed.

Lemma ms_GetViews_bound e :
  (0 <? len (mssql.schemaFilter e))%nat = true ->
  always (restricted_to (elems (mssql.schemaFilter e))
            (placeholders mssql.placeholder (len (mssql.schemaFilter e))))
    (mssql.GetViews e).
Proof.
  intros Hlen. unfold mssql.GetViews. bound_filter Hlen.
  bound_auto (restricted_to schemas marks)
    ltac:(first [apply (ms_getColumnsForView_filter e (restricted_to schemas marks)); apply restricted_to_other]).
Qed.

Lemma ms_GetRoutines_bound e :
  (0 <? len (mssql.schemaFilter e))%nat = true ->
  always (restricted_to (elems (mssql.schemaFilter e))
            (placeholders mssql.placeholder (len (mssql.schemaFilter e))))
    (mssql.GetRoutines e).
Proof.
  intros Hlen. unfold mssql.GetRoutines. bound_filter Hlen.
  bound_auto (restricted_to schemas marks)
    ltac:(first [apply (ms_getRoutineParameters_filter e (restricted_to schemas marks)); apply restricted_to_other]).
Qed.

Lemma ms_GetSequences_bound e :
  (0 <? len (mssql.schemaFilter e))%nat = true ->
  always (restricted_to (elems (mssql.schemaFilter e))
            (placeholders mssql.placeholder (len (mssql.schemaFilter e))))
    (mssql.GetSequences e).
Proof.
  intros Hlen. unfold mssql.GetSequences. bound_filter Hlen.
  bound_auto (restricted_to schemas marks)
    fail.
Qed.

Lemma ms_GetTriggers_bound e :
  (0 <? len (mssql.schemaFilter e))%nat = true ->
  always (restricted_to (elems (mssql.schemaFilter e))
            (placeholders mssql.placeholder (len (mssql.schemaFilter e))))
    (mssql.GetTriggers e).
Proof.
  intros Hlen. unfold mssql.GetTriggers. bound_filter Hlen.
  bound_auto (restricted_to schemas marks)
    fail.
Qed.

Lemma ms_GetSynonyms_bound e :
  (0 <? len (mssql.schemaFilter e))%nat = true ->
  always (restricted_to (elems (mssql.schemaFilter e))
            (placeholders mssql.placeholder (len (mssql.schemaFilter e))))
    (mssql.GetSynonyms e).
Proof.
  intros Hlen. unfold mssql.GetSynonyms. bound_filter Hlen.
  bound_auto (restricted_to schemas marks)
    fail.
Qed.

Lemma ms_ExtractSchema_bound e :
  (0 <? len (mssql.schemaFilter e))%nat = true ->
  always (restricted_to (elems (mssql.schemaFilter e))
            (placeholders mssql.placeholder (len (mssql.schemaFilter e))))
    (mssql.ExtractSchema e).
Proof.
  intros Hlen. unfold mssql.ExtractSchema.
  bound_auto (restricted_to (elems (mssql.schemaFilter e)) (placeholders mssql.placeholder (len (mssql.schemaFilter e))))
    ltac:(first [apply (ms_GetDatabaseInfo_filter e (restricted_to (elems (mssql.schemaFilter e)) (placeholders mssql.placeholder (len (mssql.schemaFilter e))))); apply restricted_to_other
                | by apply ms_GetTables_bound
                | by apply ms_GetViews_bound
                | by apply ms_GetRoutines_bound
                | by apply ms_GetSequences_bound
                | by apply ms_GetTriggers_bound
                | by apply ms_GetSynonyms_bound]).
Qed.

Lemma ms_every_call_bound e :
  (0 <? len (mssql.schemaFilter e))%nat = true ->
  every_call (restricted_to (elems (mssql.schemaFilter e))
            (placeholders mssql.placeholder (len (mssql.schemaFilter e))))
    (methods (MSSQL e)).
Proof.
  intros Hlen. unfold every_call. simpl. split_and!.
  - apply ms_GetDatabaseInfo_filter. apply restricted_to_other.
  - by apply ms_GetTables_bound.
  - by apply ms_GetViews_bound.
  - by apply ms_GetRoutines_bound.
  - by apply ms_GetSequences_bound.
  - by apply ms_GetTriggers_bound.
  - by apply ms_GetSynonyms_bound.
  - by apply ms_ExtractSchema_bound.
Qed.

Lemma my_GetTables_bound e :
  (0 <? len (mysql.schemaFilter e))%nat = true ->
  always (restricted_to (elems (mysql.schemaFilter e))
            (placeholders mysql.placeholder (len (mysql.schemaFilter e))))
    (mysql.GetTables e).
Proof.
  intros Hlen. unfold mysql.GetTables. bound_filter Hlen.
  bound_auto (restricted_to schemas marks)
    ltac:(first [apply (my_getColumnsForTable_filter e (restricted_to schemas marks)); apply restricted_to_other
                | apply (my_getIndexesForTable_filter e (restricted_to schemas marks)); apply restricted_to_other]).
Qed.

Lemma my_GetViews_bound e :
  (0 <? len (mysql.schemaFilter e))%nat = true ->
  always (restricted_to (elems (mysql.schemaFilter e))
            (placeholders mysql.placeholder (len (mysql.schemaFilter e))))
    (mysql.GetViews e).
Proof.
  intros Hlen. unfold mysql.GetViews. bound_filter Hlen.
  bound_auto (restricted_to schemas marks)
    ltac:(first [apply (my_getColumnsForTable_filter e (restricted_to schemas marks)); apply restricted_to_other]).
Qed.

Lemma my_GetRoutines_bound e :
  (0 <? len (mysql.schemaFilter e))%nat = true ->
  always (restricted_to (elems (mysql.schemaFilter e))
            (placeholders mysql.placeholder (len (mysql.schemaFilter e))))
    (mysql.GetRoutines e).
Proof.
  intros Hlen. unfold mysql.GetRoutines. bound_filter Hlen.
  bound_auto (restricted_to schemas marks)
    ltac:(first [apply (my_getRoutineParameters_filter e (restricted_to schemas marks)); apply restricted_to_other]).
Qed.

Lemma my_GetTriggers_bound e :
  (0 <? len (mysql.schemaFilter e))%nat = true ->
  always (restricted_to (elems (mysql.schemaFilter e))
            (placeholders mysql.placeholder (len (mysql.schemaFilter e))))
    (mysql.GetTriggers e).
Proof.
  intros Hlen. unfold mysql.GetTriggers. bound_filter Hlen.
  bound_auto (restricted_to schemas marks)
    fail.
Qed.

Lemma my_ExtractSchema_bound e :
  (0 <? len (mysql.schemaFilter e))%nat = true ->
  always (restricted_to (elems (mysql.schemaFilter e))
            (placeholders mysql.placeholder (len (mysql.schemaFilter e))))
    (mysql.ExtractSchema e).
Proof.
  intros Hlen. unfold mysql.ExtractSchema.
  bound_auto (restricted_to (elems (mysql.schemaFilter e)) (placeholders mysql.placeholder (len (mysql.schemaFilter e))))
    ltac:(first [apply (my_GetDatabaseInfo_filter e (restricted_to (elems (mysql.schemaFilter e)) (placeholders mysql.placeholder (len (mysql.schemaFilter e))))); apply restricted_to_other
                | by apply my_GetTables_bound
                | by apply my_GetViews_bound
                | by apply my_GetRoutines_bound
                | apply (my_GetSequences_filter e (restricted_to (elems (mysql.schemaFilter e)) (placeholders mysql.placeholder (len (mysql.schemaFilter e))))); apply restricted_to_other
                | by apply my_GetTriggers_bound
                | apply (my_GetSynonyms_filter e (restricted_to (elems (mysql.schemaFilter e)) (placeholders mysql.placeholder (len (mysql.schemaFilter e))))); apply restricted_to_other]).
Qed.

Lemma my_every_call_bound e :
  (0 <? len (mysql.schemaFilter e))%nat = true ->
  every_call (restricted_to (elems (mysql.schemaFilter e))
            (placeholders mysql.placeholder (len (mysql.schemaFilter e))))
    (methods (MySQL e)).
Proof.
  intros Hlen. unfold every_call. simpl. split_and!.
  - apply my_GetDatabaseInfo_filter. apply restricted_to_other.
  - by apply my_GetTables_bound.
  - by apply my_GetViews_bound.
  - by apply my_GetRoutines_bound.
  - apply my_GetSequences_filter. apply restricted_to_other.
  - by apply my_GetTriggers_bound.
  - apply my_GetSynonyms_filter. apply restricted_to_other.
  - by apply my_ExtractSchema_bound.
Qed.


(** X3. For every adapter whose schema filter is not empty, every catalog
    query that selects by owner binds exactly the schemas of the filter,
    in the order of the filter, and the text appended to the query holds
    an [IN] clause with one placeholder per schema in the adapter's
    syntax. *)
Theorem explicit_filter_binds_schemas (a : Adapter) :
  (0 < len (schema_filter a))%nat ->
  every_call
    (restricted_to (elems (schema_filter a))
       (placeholders (placeholder_of a) (len (schema_filter a))))
    (methods a).
Proof.
  intros Hlen. apply Nat.ltb_lt in Hlen.
  destruct a as [e | e | e | e]; simpl in *.
  - by apply ora_every_call_bound.
  - by apply my_every_call_bound.
  - by apply pg_every_call_bound.
  - by apply ms_every_call_bound.
Qed.

(** Under the filter [HR, SCOTT] the Oracle extractor binds the two
    schemas to [:1,:2]. *)
Lemma hr_scott_bound :
  every_call (restricted_to ["HR"; "SCOTT"] ":1,:2") (methods (Oracle hr_scott)).
Proof. apply (explicit_filter_binds_schemas (Oracle hr_scott)). vm_compute. lia. Defined.

(** ** The header of an extracted schema *)

Lemma run_step_header x step s w :
  step <> StepDatabaseInfo ->
  header (fst (fst (run_step x step s w))) = header s.
Proof.
  intros Hstep. destruct step; [done | ..]; simpl; unfold mbind, M_bind.
  - by destruct (GetTables x w) as [[tables err] w'].
  - by destruct (GetViews x w) as [[views err] w'].
  - by destruct (GetRoutines x w) as [[routines err] w'].
  - by destruct (GetSequences x w) as [[sequences err] w'].
  - by destruct (GetTriggers x w) as [[triggers err] w'].
  - by destruct (GetSynonyms x w) as [[synonyms err] w'].
Qed.

Lemma run_sequence_header x steps :
  Forall (fun step => step <> StepDatabaseInfo) steps ->
  forall s w s' w',
    run_sequence x steps s w = (inl s', w') -> header s' = header s.
Proof.
  induction 1 as [|step steps Hstep Hsteps IH]; intros s w s' w' Hrun.
  - by injection Hrun as <- _.
  - simpl in Hrun. unfold mbind, M_bind in Hrun.
    pose proof (run_step_header x step s w Hstep) as Hheader.
    destruct (run_step x step s w) as [[s1 [err |]] w1]; [done |].
    simpl in Hheader. rewrite <- Hheader. by eapply IH.
Qed.

Lemma GetDatabaseInfo_answer a w :
  GetDatabaseInfo (methods a) w =
    (match database_info_answer a w (mkQuery SelDatabaseInfo "" []) with
     | inl err => ("", "", Some err)
     | inr (name, version) => (name, version, None)
     end,
     w ++ [mkEvent CallQueryRowScan (mkQuery SelDatabaseInfo "" [])
             (failure (database_info_answer a w (mkQuery SelDatabaseInfo "" [])))]).
Proof.
  destruct a as [e | e | e | e]; simpl;
    unfold oracle.GetDatabaseInfo, mysql.GetDatabaseInfo, postgres.GetDatabaseInfo,
      mssql.GetDatabaseInfo, mbind, M_bind, QueryRowScan.
  - by destruct (oracle.databaseInfo _ w _) as [err | [name version]].
  - by destruct (mysql.databaseInfo _ w _) as [err | [name version]].
  - by destruct (postgres.databaseInfo _ w _) as [err | [name version]].
  - by destruct (mssql.databaseInfo _ w _) as [err | [name version]].
Qed.

Lemma database_info_step a s w :
  run_sequence (methods a) [StepDatabaseInfo] s w =
    (match database_info_answer a w (mkQuery SelDatabaseInfo "" []) with
     | inl err => inr (StepDatabaseInfo, err)
     | inr (name, version) =>
       inl (mkSchema name (Schema_DatabaseType s) version (Schema_ExtractedAt s)
              (Schema_Comment s) (Schema_Tables s) (Schema_Views s)
              (Schema_Routines s) (Schema_Sequences s) (Schema_Triggers s)
              (Schema_Synonyms s) (Schema_Indexes s))
     end,
     w ++ [mkEvent CallQueryRowScan (mkQuery SelDatabaseInfo "" [])
             (failure (database_info_answer a w (mkQuery SelDatabaseInfo "" [])))]).
Proof.
  cbn [run_sequence run_step]. unfold mbind, M_bind.
  rewrite GetDatabaseInfo_answer.
  by destruct (database_info_answer a w _) as [err | [name version]].
Qed.

(** X4. After a successful [ExtractSchema], the schema names the database
    and the version the database-info query answered at the start of the
    extraction, carries the constant type of its adapter, the time read
    before the first query, and an empty comment. *)
Theorem extracted_schema_header (a : Adapter) (w : World) (s : Schema) :
  fst (fst (ExtractSchema (methods a) w)) = Some s ->
  database_info_answer a w (mkQuery SelDatabaseInfo "" [])
    = inr (Schema_DatabaseName s, Schema_Version s) /\
  Schema_DatabaseType s = database_type a /\
  Schema_ExtractedAt s = clock_of a w /\
  Schema_Comment s = "".
Proof.
  rewrite ExtractSchema_orchestrate.
  pose proof (orchestrate_outcome a w) as Houtcome.
  destruct (run_sequence _ _ _ _) as [[s0 | [step err]] w'] eqn:Hrun;
    rewrite Houtcome; [| done].
  simpl. intros [= <-].
  change strict_sequence with
    ([StepDatabaseInfo]
       ++ [StepTables; StepViews; StepRoutines; StepSequences; StepTriggers;
           StepSynonyms]) in Hrun.
  rewrite run_sequence_app, database_info_step in Hrun.
  destruct (database_info_answer a w _) as [err | [name version]]; [done |].
  apply run_sequence_header in Hrun; [| by repeat constructor].
  unfold header in Hrun. simpl in *. by simplify_eq.
Qed.

(** The schema extracted from [shop] names the database [shop], its
    version, the type MySQL and the time of the sample clock. *)
Lemma shop_schema_header :
  exists s,
    fst (fst (ExtractSchema (methods (MySQL shop)) [])) = Some s /\
    Schema_DatabaseName s = "shop" /\ Schema_Version s = "8.0.36" /\
    Schema_DatabaseType s = "MySQL" /\
    Schema_ExtractedAt s = mkTime 2024 5 17 9 30 0 /\
    Schema_Comment s = "".
Proof.
  eexists. split; [vm_compute; reflexivity |].
  destruct (extracted_schema_header (MySQL shop) [] _ ltac:(vm_compute; reflexivity))
    as (Hinfo & Htype & Hat & Hcomment).
  by split_and!.
Defined.

(** ** One object per catalog row *)

(** A loop whose body, when it succeeds, appends one value with the key of
    the row: without an error every delivered row was scanned, and the keys
    of the result are the old keys followed by the keys of the rows, in the
    order of delivery. *)
Lemma for_rows_keys {R T K} q h (key : T -> K) (g : R -> K)
    (body : slice T -> R -> M (slice T * option error)) (rows : list (error + R)) :
  (forall acc r,
     Post (body acc r)
       (fun res => snd res = None -> exists t, fst res = append acc t /\ key t = g r)) ->
  forall acc,
    Post (for_rows q h body rows acc)
      (fun res =>
         snd res = None ->
         exists rs, rows = map inr rs /\
                    map key (elems (fst res)) = map key (elems acc) ++ map g rs).
Proof.
  intros Hbody. induction rows as [|row rows IH]; intros acc; simpl.
  - apply Post_ret. intros _. exists []. by rewrite app_nil_r.
  - eapply Post_bind; [apply Post_Scan |]. intros ? ->.
    destruct row as [err | r]; [by apply Post_ret |].
    eapply Post_bind; [apply Hbody |]. intros [acc' [err |]] Hacc'; simpl in Hacc'.
    + by apply Post_ret.
    + destruct (Hacc' eq_refl) as (t & -> & Ht).
      intros w. specialize (IH (append acc t) w). simpl.
      intros Hnil. destruct (IH Hnil) as (rs & -> & Hkeys).
      exists (r :: rs). split; [done |].
      rewrite Hkeys, elems_append, map_app, <- app_assoc. simpl. by rewrite Ht.
Qed.

(** The functions that run one query and collect one value per row, with a
    body that may fail. *)
Lemma Post_collect_keys {R T K} (answer : World -> Query -> error + Rows R) q h0 h
    (key : T -> K) (g : R -> K) (body : slice T -> R -> M (slice T * option error)) :
  (forall acc r,
     Post (body acc r)
       (fun res => snd res = None -> exists t, fst res = append acc t /\ key t = g r)) ->
  Post (res ← QueryContext answer q;
        match res with
        | inl err => mret (nil_slice, Some (h0 err))
        | inr rows =>
          '(xs, err) ← for_rows q h body (delivered rows) nil_slice;
          match err with
          | Some err => mret (nil_slice, Some err)
          | None => err ← Err q rows; mret (xs, err)
          end
        end)
    (fun res =>
       snd res = None ->
       exists w rs, answer w q = inr (mkRows (map inr rs) None) /\
                    map key (elems (fst res)) = map g rs).
Proof.
  intros Hbody.
  eapply Post_bind; [apply Post_QueryContext |]. intros [err | [rows iter]] [w Hw].
  - by apply Post_ret.
  - eapply Post_bind; [by apply (for_rows_keys _ _ key g) |].
    intros [xs [err |]] Hxs; simpl in Hxs; [by apply Post_ret |].
    destruct (Hxs eq_refl) as (rs & Hrows & Hkeys). simpl in Hrows. subst rows.
    eapply Post_bind; [apply Post_Err |]. intros err ->. simpl.
    apply Post_ret. simpl. intros ->. by exists w, rs.
Qed.

Lemma collect_delivered_keys {R T} (g : R -> string * string)
    (answer : World -> Query -> error + Rows R) q h0 h (key : T -> string * string)
    (body : slice T -> R -> M (slice T * option error)) :
  (forall acc r,
     Post (body acc r)
       (fun res => snd res = None -> exists t, fst res = append acc t /\ key t = g r)) ->
  Post (res ← QueryContext answer q;
        match res with
        | inl err => mret (nil_slice, Some (h0 err))
        | inr rows =>
          '(xs, err) ← for_rows q h body (delivered rows) nil_slice;
          match err with
          | Some err => mret (nil_slice, Some err)
          | None => err ← Err q rows; mret (xs, err)
          end
        end)
    (fun res =>
       snd res = None ->
       delivered_keys g answer (statement q) (map key (elems (fst res)))).
Proof.
  intros Hbody w Hnil.
  destruct (Post_collect_keys answer q h0 h key g body Hbody w Hnil)
    as (w' & rs & Hanswer & Hkeys).
  by exists w', q, rs.
Qed.

Ltac lists_rows key :=
  first
    [ by intros w _
    | intros w Hnil;
      match goal with
      | |- delivered_keys ?g ?answer _ _ =>
        match goal with
        | |- context [QueryContext answer ?q] =>
          refine (collect_delivered_keys g answer q _ _ key _ _ w Hnil)
        end
      end;
      intros acc r; destruct_tuples;
      repeat post_step ltac:(apply Post_True);
      try done; intros _; eexists; split; reflexivity ].

(** X5. For every adapter and every history: when an operation that
    returns a collection succeeds, the catalog answered its query with
    rows that all scanned, and the collection holds one object per row, in
    the order of delivery, under the owner and the name of its row; a
    dialect without sequences or synonyms lists none. *)
Theorem one_object_per_catalog_row (a : Adapter) (w : World) : lists_catalog_rows a w.
Proof.
  destruct a as [e | e | e | e]; unfold lists_catalog_rows; simpl; split_and!.
  - revert w. unfold oracle.GetTables. lists_rows (fun t => (Table_Owner t, Table_Name t)).
  - revert w. unfold oracle.GetViews. lists_rows (fun v => (View_Owner v, View_Name v)).
  - revert w. unfold oracle.GetRoutines.
    lists_rows (fun r => (Routine_Owner r, Routine_Name r)).
  - revert w. unfold oracle.GetSequences.
    lists_rows (fun s => (Sequence_Owner s, Sequence_Name s)).
  - revert w. unfold oracle.GetTriggers.
    lists_rows (fun t => (Trigger_Owner t, Trigger_Name t)).
  - revert w. unfold oracle.GetSynonyms.
    lists_rows (fun s => (Synonym_Owner s, Synonym_Name s)).
  - revert w. unfold mysql.GetTables. lists_rows (fun t => (Table_Owner t, Table_Name t)).
  - revert w. unfold mysql.GetViews. lists_rows (fun v => (View_Owner v, View_Name v)).
  - revert w. unfold mysql.GetRoutines.
    lists_rows (fun r => (Routine_Owner r, Routine_Name r)).
  - done.
  - revert w. unfold mysql.GetTriggers.
    lists_rows (fun t => (Trigger_Owner t, Trigger_Name t)).
  - done.
  - revert w. unfold postgres.GetTables.
    lists_rows (fun t => (Table_Owner t, Table_Name t)).
  - revert w. unfold postgres.GetViews. lists_rows (fun v => (View_Owner v, View_Name v)).
  - revert w. unfold postgres.GetRoutines.
    lists_rows (fun r => (Routine_Owner r, Routine_Name r)).
  - revert w. unfold postgres.GetSequences.
    lists_rows (fun s => (Sequence_Owner s, Sequence_Name s)).
  - revert w. unfold postgres.GetTriggers.
    lists_rows (fun t => (Trigger_Owner t, Trigger_Name t)).
  - done.
  - revert w. unfold mssql.GetTables. lists_rows (fun t => (Table_Owner t, Table_Name t)).
  - revert w. unfold mssql.GetViews. lists_rows (fun v => (View_Owner v, View_Name v)).
  - revert w. unfold mssql.GetRoutines.
    lists_rows (fun r => (Routine_Owner r, Routine_Name r)).
  - revert w. unfold mssql.GetSequences.
    lists_rows (fun s => (Sequence_Owner s, Sequence_Name s)).
  - revert w. unfold mssql.GetTriggers.
    lists_rows (fun t => (Trigger_Owner t, Trigger_Name t)).
  - revert w. unfold mssql.GetSynonyms.
    lists_rows (fun s => (Synonym_Owner s, Synonym_Name s)).
Qed.

(** ** Columns *)

Lemma apply_constraints_applied constraintMap c :
  constraints_applied c (oracle.apply_constraints constraintMap c).
Proof.
  unfold constraints_applied, oracle.apply_constraints, plain.
  repeat case_match; simpl; split_and!; try done; try (intros; congruence).
Qed.

Lemma ora_enrichColumnsWithConstraints_applied e owner table columns :
  Post (oracle.enrichColumnsWithConstraints e owner table columns)
    (fun res => Forall2 constraints_applied (elems columns) (elems (fst res))).
Proof.
  assert (Hsame : Forall2 constraints_applied (elems columns) (elems columns)).
  { apply Forall_Forall2_diag, Forall_forall. intros c _.
    unfold constraints_applied. by split_and!. }
  unfold oracle.enrichColumnsWithConstraints.
  repeat post_step fail; [done |].
  eapply Post_bind; [apply Post_True |]. intros [constraintMap [err |]] _;
    repeat post_step fail; [done |].
  simpl. rewrite elems_update_each. apply Forall2_fmap_r, Forall_Forall2_diag.
  apply Forall_forall. intros c _. apply apply_constraints_applied.
Qed.

(** X6. The Oracle extractor's [enrichColumnsWithConstraints] returns as
    many columns as it was given, in the same order; of each it keeps
    every field that is not a constraint flag or a foreign-key target,
    clears no flag, and changes the targets only on a column it flags as
    foreign key. This holds whether the constraint query succeeds or not. *)
Theorem oracle_enrichment_frame (e : oracle.Extractor) (owner table : string)
    (columns : slice Column) (w : World) :
  Forall2 constraints_applied (elems columns)
    (elems (fst (fst (oracle.enrichColumnsWithConstraints e owner table columns w)))).
Proof. apply (ora_enrichColumnsWithConstraints_applied e owner table columns w). Qed.

(** *** What each dialect makes of a column *)

Lemma constraints_keep_dialect e c c' :
  constraints_applied c c' ->
  column_by_dialect (Oracle e) c -> column_by_dialect (Oracle e) c'.
Proof.
  unfold constraints_applied, plain, column_by_dialect.
  intros (Hplain & _) (Hset & Hcoll & Hauto). simplify_eq. split_and!; congruence.
Qed.

(** [COLUMN_KEY] holds one value: a MySQL column gets at most one flag. *)
Ltac one_column_key :=
  match goal with
  | |- context [String.eqb ?key "PRI"] =>
    destruct (String.eqb_spec key "PRI") as [-> |];
    [| destruct (String.eqb_spec key "UNI") as [-> |]];
    simpl in *; by split_and!
  end.

Ltac dialect_column :=
  repeat post_step ltac:(apply Post_True); cbn [fst snd elems append] in *;
  (apply Forall_app; split; [assumption |]; apply Forall_singleton);
  unfold column_by_dialect; simpl;
  (split; [done | (split; [done |])]);
  first [done | by split_and! | one_column_key].

Lemma pg_getColumnsForTable_dialect e schema table :
  Post (postgres.getColumnsForTable e schema table)
    (fun res => Forall (column_by_dialect (PostgreSQL e)) (elems (fst res))).
Proof.
  unfold postgres.getColumnsForTable.
  post_loop (column_by_dialect (PostgreSQL e)) fail ltac:(dialect_column).
Qed.

Lemma ms_getColumnsForTable_dialect e schema table :
  Post (mssql.getColumnsForTable e schema table)
    (fun res => Forall (column_by_dialect (MSSQL e)) (elems (fst res))).
Proof.
  unfold mssql.getColumnsForTable.
  post_loop (column_by_dialect (MSSQL e)) fail ltac:(dialect_column).
Qed.

Lemma ms_getColumnsForView_dialect e schema view :
  Post (mssql.getColumnsForView e schema view)
    (fun res => Forall (column_by_dialect (MSSQL e)) (elems (fst res))).
Proof.
  unfold mssql.getColumnsForView.
  post_loop (column_by_dialect (MSSQL e)) fail ltac:(dialect_column).
Qed.

Lemma my_getColumnsForTable_dialect e schema table :
  Post (mysql.getColumnsForTable e schema table)
    (fun res => Forall (column_by_dialect (MySQL e)) (elems (fst res))).
Proof.
  unfold mysql.getColumnsForTable.
  post_loop (column_by_dialect (MySQL e)) fail
    ltac:(dialect_column).
Qed.

Lemma ora_getColumnsForTable_dialect e owner table :
  Post (oracle.getColumnsForTable e owner table)
    (fun res => Forall (column_by_dialect (Oracle e)) (elems (fst res))).
Proof.
  unfold oracle.getColumnsForTable.
  repeat post_step fail; [constructor |].
  eapply Post_bind.
  { apply (Post_for_rows _ _ _ (fun acc => Forall (column_by_dialect (Oracle e))
                                             (elems acc))); [| constructor].
    intros acc row Hacc Hin. destruct_tuples. dialect_column. }
  intros [columns [err |]] Hcolumns; simpl in Hcolumns;
    repeat post_step fail; [constructor |].
  eapply Post_bind; [apply ora_enrichColumnsWithConstraints_applied |].
  intros [columns' [err |]] Happlied; simpl in Happlied;
    repeat post_step fail; [constructor |]. simpl.
  clear -Hcolumns Happlied. induction Happlied as [|c c' l l' Hc _ IH]; [done |].
  inversion Hcolumns; subst. constructor; [by eapply constraints_keep_dialect | auto].
Qed.

(** *** From the column readers to tables, views and schemas *)

Ltac columns_body :=
  repeat post_step ltac:(first [ match goal with
                                 | H : forall o t, Post _ _ |- _ => apply H
                                 end
                               | apply Post_True ]);
  cbn [fst snd elems append] in *;
  first
    [ assumption
    | (apply Forall_app; split; [assumption |]; apply Forall_singleton);
      simpl; auto ].

Lemma GetTables_columns a (Q : bool -> string -> string -> slice Column -> Prop) :
  (forall o t, Post (column_reader a false o t)
                 (fun res => snd res = None -> Q false o t (fst res))) ->
  Post (GetTables (methods a)) (fun res => tables_columns Q (fst res)).
Proof.
  intros Hreader. unfold tables_columns.
  destruct a as [e | e | e | e]; simpl in *.
  - unfold oracle.GetTables. post_loop (fun t => Q false (Table_Owner t) (Table_Name t) (Table_Columns t)) fail ltac:(columns_body).
  - unfold mysql.GetTables. post_loop (fun t => Q false (Table_Owner t) (Table_Name t) (Table_Columns t)) fail ltac:(columns_body).
  - unfold postgres.GetTables. post_loop (fun t => Q false (Table_Owner t) (Table_Name t) (Table_Columns t)) fail ltac:(columns_body).
  - unfold mssql.GetTables. post_loop (fun t => Q false (Table_Owner t) (Table_Name t) (Table_Columns t)) fail ltac:(columns_body).
Qed.

Lemma GetViews_columns a (Q : bool -> string -> string -> slice Column -> Prop) :
  (forall o t, Post (column_reader a true o t)
                 (fun res => snd res = None -> Q true o t (fst res))) ->
  Post (GetViews (methods a)) (fun res => views_columns Q (fst res)).
Proof.
  intros Hreader. unfold views_columns.
  destruct a as [e | e | e | e]; simpl in *.
  - unfold oracle.GetViews. post_loop (fun v => Q true (View_Owner v) (View_Name v) (View_Columns v)) fail ltac:(columns_body).
  - unfold mysql.GetViews. post_loop (fun v => Q true (View_Owner v) (View_Name v) (View_Columns v)) fail ltac:(columns_body).
  - unfold postgres.GetViews. post_loop (fun v => Q true (View_Owner v) (View_Name v) (View_Columns v)) fail ltac:(columns_body).
  - unfold mssql.GetViews. post_loop (fun v => Q true (View_Owner v) (View_Name v) (View_Columns v)) fail ltac:(columns_body).
Qed.

Lemma run_step_columns a Q step s :
  Post (GetTables (methods a)) (fun res => tables_columns Q (fst res)) ->
  Post (GetViews (methods a)) (fun res => views_columns Q (fst res)) ->
  tables_columns Q (Schema_Tables s) /\ views_columns Q (Schema_Views s) ->
  Post (run_step (methods a) step s)
    (fun res => tables_columns Q (Schema_Tables (fst res)) /\
                views_columns Q (Schema_Views (fst res))).
Proof.
  intros Htables Hviews [Ht Hv].
  destruct step; unfold run_step.
  - eapply Post_bind; [apply Post_True |]. intros [[name version] err] _.
    by apply Post_ret.
  - eapply Post_bind; [apply Htables |]. intros [tables err] H. by apply Post_ret.
  - eapply Post_bind; [apply Hviews |]. intros [views err] H. by apply Post_ret.
  - eapply Post_bind; [apply Post_True |]. intros [routines err] _. by apply Post_ret.
  - eapply Post_bind; [apply Post_True |]. intros [sequences err] _. by apply Post_ret.
  - eapply Post_bind; [apply Post_True |]. intros [triggers err] _. by apply Post_ret.
  - eapply Post_bind; [apply Post_True |]. intros [synonyms err] _. by apply Post_ret.
Qed.

Lemma run_sequence_columns a Q steps :
  Post (GetTables (methods a)) (fun res => tables_columns Q (fst res)) ->
  Post (GetViews (methods a)) (fun res => views_columns Q (fst res)) ->
  forall s,
    tables_columns Q (Schema_Tables s) /\ views_columns Q (Schema_Views s) ->
    Post (run_sequence (methods a) steps s)
      (fun outcome =>
         forall s', outcome = inl s' ->
           tables_columns Q (Schema_Tables s') /\ views_columns Q (Schema_Views s')).
Proof.
  intros Htables Hviews.
  induction steps as [|step steps IH]; intros s Hs; simpl.
  - apply Post_ret. by intros s' [= <-].
  - eapply Post_bind; [by apply run_step_columns |].
    intros [s1 [err |]] Hs1; simpl in Hs1; [by apply Post_ret |]. by apply IH.
Qed.

Lemma every_column_list_intro a w (Q : bool -> string -> string -> slice Column -> Prop) :
  (forall view o t, Post (column_reader a view o t)
                      (fun res => snd res = None -> Q view o t (fst res))) ->
  every_column_list a w Q.
Proof.
  intros Hreader.
  pose proof (GetTables_columns a Q (Hreader false)) as Htables.
  pose proof (GetViews_columns a Q (Hreader true)) as Hviews.
  split_and!; [apply Htables | apply Hviews |].
  rewrite ExtractSchema_orchestrate.
  pose proof (orchestrate_outcome a w) as Houtcome.
  pose proof (run_sequence_columns a Q strict_sequence Htables Hviews
                (fresh_schema a (clock_of a w))) as Hrun.
  specialize (Hrun ltac:(by split; constructor) w).
  destruct (run_sequence _ _ _ _) as [[s0 | [step err]] w']; rewrite Houtcome.
  - simpl. intros s [= <-]. apply (Hrun s0 eq_refl).
  - by intros s.
Qed.

(** X7. For every adapter and every history, each column of each table and
    view that [GetTables], [GetViews] or a successful [ExtractSchema]
    returns has an empty character set and collation, and moreover: a
    PostgreSQL column has length, precision and scale 0 and is flagged
    auto-increment exactly when its default contains [nextval]; a MySQL
    column carries at most one of the flags primary key, unique and
    foreign key; an Oracle column is never flagged auto-increment. *)
Theorem columns_by_dialect (a : Adapter) (w : World) :
  every_column_list a w
    (fun _ _ _ columns => Forall (column_by_dialect a) (elems columns)).
Proof.
  apply every_column_list_intro. intros view o t w' _. revert w'.
  destruct a as [e | e | e | e]; simpl.
  - apply ora_getColumnsForTable_dialect.
  - apply my_getColumnsForTable_dialect.
  - apply pg_getColumnsForTable_dialect.
  - destruct view;
      [apply ms_getColumnsForView_dialect | apply ms_getColumnsForTable_dialect].
Qed.

(** *** Columns as the catalog delivered them *)

Ltac keyed_body :=
  intros acc r; destruct_tuples;
  repeat post_step ltac:(apply Post_True);
  try done; intros _; eexists; split; reflexivity.

Lemma pg_getColumnsForTable_delivered e owner table :
  Post (postgres.getColumnsForTable e owner table)
    (fun res => snd res = None ->
                columns_delivered (PostgreSQL e) false owner table (fst res)).
Proof.
  unfold postgres.getColumnsForTable.
  apply (Post_collect_keys _ _ _ _ column_key (fun r => swap (leading r))).
  keyed_body.
Qed.

Lemma ms_getColumnsForTable_delivered e owner table :
  Post (mssql.getColumnsForTable e owner table)
    (fun res => snd res = None ->
                columns_delivered (MSSQL e) false owner table (fst res)).
Proof.
  unfold mssql.getColumnsForTable.
  apply (Post_collect_keys _ _ _ _ column_key (fun r => swap (leading r))).
  keyed_body.
Qed.

Lemma ms_getColumnsForView_delivered e owner view :
  Post (mssql.getColumnsForView e owner view)
    (fun res => snd res = None ->
                columns_delivered (MSSQL e) true owner view (fst res)).
Proof.
  unfold mssql.getColumnsForView.
  apply (Post_collect_keys _ _ _ _ column_key (fun r => swap (leading r))).
  keyed_body.
Qed.

Lemma my_getColumnsForTable_delivered e owner table :
  Post (mysql.getColumnsForTable e owner table)
    (fun res => snd res = None ->
                columns_delivered (MySQL e) false owner table (fst res)).
Proof.
  unfold mysql.getColumnsForTable.
  apply (Post_collect_keys _ _ _ _ column_key leading).
  keyed_body.
Qed.

Lemma constraints_keep_keys (columns columns' : list Column) :
  Forall2 constraints_applied columns columns' ->
  map column_key columns' = map column_key columns.
Proof.
  induction 1 as [|c c' l l' [Hplain _] _ IH]; [done |].
  simpl. rewrite IH. f_equal. unfold column_key, plain in *. congruence.
Qed.

Lemma ora_getColumnsForTable_delivered e owner table :
  Post (oracle.getColumnsForTable e owner table)
    (fun res => snd res = None ->
                columns_delivered (Oracle e) false owner table (fst res)).
Proof.
  unfold oracle.getColumnsForTable.
  eapply Post_bind; [apply Post_QueryContext |]. intros [err | [rows iter]] [w Hw].
  { by apply Post_ret. }
  eapply Post_bind.
  { apply (for_rows_keys _ _ column_key leading). keyed_body. }
  intros [columns [err |]] Hcolumns; simpl in Hcolumns; [by apply Post_ret |].
  destruct (Hcolumns eq_refl) as (rs & Hrows & Hkeys). simpl in Hrows. subst rows.
  eapply Post_bind; [apply ora_enrichColumnsWithConstraints_applied |].
  intros [columns' [err |]] Happlied; simpl in Happlied; [by apply Post_ret |].
  eapply Post_bind; [apply Post_Err |]. intros err ->.
  apply Post_ret. simpl. intros ->. exists w, rs. split; [done |].
  by rewrite (constraints_keep_keys _ _ Happlied).
Qed.

(** X8. For every adapter and every history, the columns of each table and
    view that [GetTables], [GetViews] or a successful [ExtractSchema]
    returns are the rows the catalog delivered for that table or view:
    one column per row, in the order of delivery, under the name and the
    position of its row. *)
Theorem columns_in_catalog_order (a : Adapter) (w : World) :
  every_column_list a w (columns_delivered a).
Proof.
  apply every_column_list_intro. intros view o t.
  destruct a as [e | e | e | e]; simpl column_reader.
  - destruct view; apply ora_getColumnsForTable_delivered.
  - destruct view; apply my_getColumnsForTable_delivered.
  - destruct view; apply pg_getColumnsForTable_delivered.
  - destruct view;
      [apply ms_getColumnsForView_delivered | apply ms_getColumnsForTable_delivered].
Qed.

(** ** The factory *)

Lemma accepted_types_spec (name : string) :
  name ∈ accepted_types <->
  String.eqb name "oracle" || String.eqb name "mysql"
  || (String.eqb name "postgresql" || String.eqb name "postgres" || String.eqb name "pg")
  || (String.eqb name "mssql" || String.eqb name "sqlserver") = true.
Proof.
  unfold accepted_types. rewrite !elem_of_cons, elem_of_nil.
  rewrite !orb_true_iff, !String.eqb_eq. tauto.
Qed.

(** The four constructors return an extractor or an error, never both or
    neither. *)
Lemma constructors_exclusive :
  (forall o cfg, is_Some (fst (oracle.NewExtractor o cfg))
                 <-> snd (oracle.NewExtractor o cfg) = None) /\
  (forall o cfg, is_Some (fst (mysql.NewExtractor o cfg))
                 <-> snd (mysql.NewExtractor o cfg) = None) /\
  (forall o cfg, is_Some (fst (postgres.NewExtractor o cfg))
                 <-> snd (postgres.NewExtractor o cfg) = None) /\
  (forall o cfg, is_Some (fst (mssql.NewExtractor o cfg))
                 <-> snd (mssql.NewExtractor o cfg) = None).
Proof.
  split_and!; intros o cfg;
    unfold oracle.NewExtractor, mysql.NewExtractor, postgres.NewExtractor,
      mssql.NewExtractor;
    destruct (o _ _) as [db | err]; simpl; split; try done;
    by intros [? [=]].
Qed.

(** X9. [NewDBExtractor] returns the nil interface exactly when the type
    name, lowered and trimmed, is none of oracle, mysql, postgresql,
    postgres, pg, mssql, sqlserver; the error then names the type and no
    driver is opened. For an accepted name the interface is never nil: it
    holds an extractor exactly when the error is nil, and a nil pointer
    when the driver failed to open. Every name [GetSupportedDatabases]
    lists is accepted. *)
Theorem factory_outcome (rt : dbextractor.Runtime) (dbType : string)
    (config : dbextractor.Config) :
  let name := dbextractor.lower_trimmed rt dbType in
  let result := dbextractor.NewDBExtractor rt dbType config in
  (fst result = dbextractor.nil_interface <-> name ∉ accepted_types) /\
  (name ∉ accepted_types ->
   result = (dbextractor.nil_interface,
             Some (errors_New
                     ("unsupported database type: " +:+ name
                        +:+ " (supported: oracle, mysql, postgresql, mssql)")))) /\
  (is_Some (adapter_of (fst result)) <-> snd result = None) /\
  Forall (fun listed => listed ∈ accepted_types)
    (elems dbextractor.GetSupportedDatabases).
Proof.
  intros name result. subst result.
  pose proof (accepted_types_spec name) as Haccepted.
  destruct constructors_exclusive as (Hora & Hmy & Hpg & Hms).
  unfold dbextractor.NewDBExtractor. fold name.
  destruct (String.eqb name "oracle") eqn:H1.
  { match goal with
    | |- context [oracle.NewExtractor ?o ?c] =>
        specialize (Hora o c); destruct (oracle.NewExtractor o c) as [e err]
    end.
    simpl in *.
    split_and!; [split; [done | tauto] | tauto | | by repeat constructor].
    rewrite <- Hora. unfold is_Some. destruct e; simpl; split; intros [? ?]; by eauto. }
  destruct (String.eqb name "mysql") eqn:H2.
  { match goal with
    | |- context [mysql.NewExtractor ?o ?c] =>
        specialize (Hmy o c); destruct (mysql.NewExtractor o c) as [e err]
    end.
    simpl in *.
    split_and!; [split; [done | tauto] | tauto | | by repeat constructor].
    rewrite <- Hmy. unfold is_Some. destruct e; simpl; split; intros [? ?]; by eauto. }
  destruct (String.eqb name "postgresql" || String.eqb name "postgres"
            || String.eqb name "pg") eqn:H3.
  { match goal with
    | |- context [postgres.NewExtractor ?o ?c] =>
        specialize (Hpg o c); destruct (postgres.NewExtractor o c) as [e err]
    end.
    simpl in *.
    split_and!; [split; [done | tauto] | tauto | | by repeat constructor].
    rewrite <- Hpg. unfold is_Some. destruct e; simpl; split; intros [? ?]; by eauto. }
  destruct (String.eqb name "mssql" || String.eqb name "sqlserver") eqn:H4.
  { match goal with
    | |- context [mssql.NewExtractor ?o ?c] =>
        specialize (Hms o c); destruct (mssql.NewExtractor o c) as [e err]
    end.
    simpl in *.
    split_and!; [split; [done | tauto] | tauto | | by repeat constructor].
    rewrite <- Hms. unfold is_Some. destruct e; simpl; split; intros [? ?]; by eauto. }
  simpl in *. assert (name ∉ accepted_types) as Hnot by (rewrite Haccepted; done).
  split_and!; [done | intros _; f_equal | | by repeat constructor].
  split; [by intros [? [=]] | done].
Qed.

Lemma eqb_elem_of_3 (name x y z : string) :
  String.eqb name x || String.eqb name y || String.eqb name z = true ->
  name ∈ [x; y; z].
Proof.
  rewrite !orb_true_iff, !String.eqb_eq, !elem_of_cons. tauto.
Qed.

Lemma eqb_elem_of_2 (name x y : string) :
  String.eqb name x || String.eqb name y = true -> name ∈ [x; y].
Proof.
  rewrite !orb_true_iff, !String.eqb_eq, !elem_of_cons. tauto.
Qed.

(** X10. An extractor the factory returns is of the dialect its type name
    selects (postgres and pg are PostgreSQL, sqlserver is SQL Server), and
    its catalog queries are restricted as the unified configuration says:
    with a schema filter, to the schemas of the filter, one placeholder
    each; without one, to [public] for PostgreSQL, [dbo] for SQL Server,
    the configured database for MySQL, and to nothing for Oracle. *)
Theorem factory_made_restriction (rt : dbextractor.Runtime) (dbType : string)
    (config : dbextractor.Config) (a : Adapter) :
  adapter_of (fst (dbextractor.NewDBExtractor rt dbType config)) = Some a ->
  dialect_of_name (dbextractor.lower_trimmed rt dbType) a /\
  every_call (configured_restriction config a) (methods a).
Proof.
  unfold dbextractor.NewDBExtractor, configured_restriction.
  set (name := dbextractor.lower_trimmed rt dbType).
  destruct (String.eqb name "oracle") eqn:H1.
  { unfold oracle.NewExtractor.
    destruct (dbextractor.open_oracle rt _ _) as [db | err]; simpl; [ | done].
    intros [= <-]. split; [simpl; by apply String.eqb_eq | ].
    destruct (len (dbextractor.SchemaFilter config) =? 0)%nat eqn:Hlen.
    - apply ora_every_call_filter. simpl. apply len_0_elems.
      by apply Nat.eqb_eq.
    - apply (ora_every_call_bound (oracle.mkExtractor _ _ _)). apply Nat.ltb_lt.
      apply Nat.eqb_neq in Hlen. destruct config. unfold len in *. simpl in *. lia. }
  destruct (String.eqb name "mysql") eqn:H2.
  { unfold mysql.NewExtractor.
    destruct (dbextractor.open_mysql rt _ _) as [db | err]; simpl; [ | done].
    intros [= <-]. split; [simpl; by apply String.eqb_eq | ].
    destruct (len (dbextractor.SchemaFilter config) =? 0)%nat eqn:Hlen.
    - by apply my_every_call_filter.
    - apply (my_every_call_bound (mysql.mkExtractor _ _ _)). apply Nat.ltb_lt.
      apply Nat.eqb_neq in Hlen. destruct config. unfold len in *. simpl in *. lia. }
  destruct (String.eqb name "postgresql" || String.eqb name "postgres"
            || String.eqb name "pg") eqn:H3.
  { unfold postgres.NewExtractor.
    destruct (dbextractor.open_postgres rt _ _) as [db | err]; simpl; [ | done].
    intros [= <-]. split; [simpl; by apply eqb_elem_of_3 | ].
    destruct (len (dbextractor.SchemaFilter config) =? 0)%nat eqn:Hlen.
    - by apply pg_every_call_filter.
    - apply (pg_every_call_bound (postgres.mkExtractor _ _ _)). apply Nat.ltb_lt.
      apply Nat.eqb_neq in Hlen. destruct config. unfold len in *. simpl in *. lia. }
  destruct (String.eqb name "mssql" || String.eqb name "sqlserver") eqn:H4.
  { unfold mssql.NewExtractor.
    destruct (dbextractor.open_mssql rt _ _) as [db | err]; simpl; [ | done].
    intros [= <-]. split; [simpl; by apply eqb_elem_of_2 | ].
    destruct (len (dbextractor.SchemaFilter config) =? 0)%nat eqn:Hlen.
    - by apply ms_every_call_filter.
    - apply (ms_every_call_bound (mssql.mkExtractor _ _ _)). apply Nat.ltb_lt.
      apply Nat.eqb_neq in Hlen. destruct config. unfold len in *. simpl in *. lia. }
  done.
Qed.

(** The factory called with [pg] and no schema filter gives a PostgreSQL
    extractor whose catalog queries are bound to [public]. *)
Lemma pg_from_factory :
  exists a,
    adapter_of
      (fst (dbextractor.NewDBExtractor sample_runtime "pg" sample_config))
    = Some a /\
    dialect_of_name "pg" a /\
    every_call (configured_restriction sample_config a) (methods a).
Proof.
  eexists. split; [reflexivity | ].
  apply (factory_made_restriction sample_runtime "pg" sample_config).
  reflexivity.
Defined.

(** ** The other rules of the validator *)

Lemma names_loop_spec (names : list string) (h : bool) :
  validator.names_loop names h = true <-> h = true \/ "Comment" ∈ names.
Proof.
  induction names as [|name names IH]; simpl.
  - rewrite elem_of_nil. tauto.
  - rewrite elem_of_cons. destruct (String.eqb_spec name "Comment") as [-> | Hne].
    + tauto.
    + rewrite IH. split; [tauto |]. intros [? | [? | ?]]; auto; congruence.
Qed.

Lemma fields_loop_from (fields : list validator.Field) (h : bool) :
  fold_left (fun hasComment field =>
               validator.names_loop (validator.Names field) hasComment)
    fields h = true
  <-> h = true \/ "Comment" ∈ flat_map validator.Names fields.
Proof.
  revert h. induction fields as [|field fields IH]; intros h; simpl.
  - rewrite elem_of_nil. tauto.
  - rewrite IH, names_loop_spec, elem_of_app. tauto.
Qed.

Lemma fields_loop_spec (fields : list validator.Field) :
  validator.fields_loop fields = true
  <-> "Comment" ∈ flat_map validator.Names fields.
Proof.
  unfold validator.fields_loop. rewrite fields_loop_from.
  split; [by intros [? | ?] | by right].
Qed.

Lemma last_app_or {A} (l1 l2 : list A) :
  last (l1 ++ l2) = match last l2 with Some x => Some x | None => last l1 end.
Proof.
  destruct l2 as [|x l2] using rev_ind.
  - by rewrite app_nil_r.
  - by rewrite app_assoc, !last_snoc.
Qed.

Lemma index_insert (m : gmap string bool) (key name : string) (v : bool) :
  validator.index (<[key := v]> m) name
  = if String.eqb key name then v else validator.index m name.
Proof.
  unfold validator.index. destruct (String.eqb_spec key name) as [-> | Hne].
  - by rewrite lookup_insert_eq.
  - by rewrite lookup_insert_ne.
Qed.

(** The map of [validateCommentFields] holds, for a name, what the last
    struct declaration of that name gave. *)
Lemma structsWithComment_from (file : validator.File) (m : gmap string bool)
    (name : string) :
  validator.index
    (fold_left (fun (m : gmap string bool) typeSpec =>
       match validator.Type_ typeSpec with
       | validator.StructType fields =>
           <[validator.Name typeSpec := validator.fields_loop fields]> m
       | validator.OtherType => m
       end) file m) name
  = match last (struct_declarations file name) with
    | Some fields => validator.fields_loop fields
    | None => validator.index m name
    end.
Proof.
  revert m. induction file as [|ts file IH]; intros m; [done |].
  cbn [fold_left]. rewrite IH.
  change (struct_declarations (ts :: file) name)
    with ((if String.eqb (validator.Name ts) name
           then match validator.Type_ ts with
                | validator.StructType fields => [fields]
                | validator.OtherType => []
                end
           else []) ++ struct_declarations file name).
  rewrite last_app_or.
  destruct (last (struct_declarations file name)) as [fields |]; [done |].
  destruct (validator.Type_ ts) as [fields |].
  - rewrite index_insert. by destruct (String.eqb (validator.Name ts) name).
  - by destruct (String.eqb (validator.Name ts) name).
Qed.

Lemma structsWithComment_spec (file : validator.File) (name : string) :
  validator.index (validator.structsWithComment file) name = true
  <-> last_declaration_has_comment file name.
Proof.
  unfold validator.structsWithComment, last_declaration_has_comment.
  rewrite structsWithComment_from.
  destruct (last (struct_declarations file name)) as [fields |].
  - apply fields_loop_spec.
  - unfold validator.index. by rewrite lookup_empty.
Qed.

Lemma definedTypes_from (file : validator.File) (m : gmap string bool)
    (name : string) :
  validator.index
    (fold_left (fun (m : gmap string bool) typeSpec =>
                  <[validator.Name typeSpec := true]> m) file m) name = true
  <-> validator.index m name = true \/ declared file name.
Proof.
  unfold declared. revert m. induction file as [|ts file IH]; intros m; simpl.
  - rewrite elem_of_nil. tauto.
  - rewrite IH, index_insert, elem_of_cons.
    destruct (String.eqb_spec (validator.Name ts) name) as [-> | Hne].
    + tauto.
    + split; [tauto |]. intros [? | [? | ?]]; auto; congruence.
Qed.

Lemma definedTypes_spec (file : validator.File) (name : string) :
  validator.index (validator.definedTypes file) name = true
  <-> declared file name.
Proof.
  unfold validator.definedTypes. rewrite definedTypes_from.
  unfold validator.index at 1. rewrite lookup_empty. simpl.
  split; [by intros [? | ?] | by right].
Qed.

(** The loop over the required names: the lines for the missing ones and
    the lines for the present ones, each in the order of the names. *)
Lemma required_loop (present : string -> bool) (P : string -> Prop)
    `{!forall name, Decision (P name)} (miss ok : string -> string)
    (required missing details : list string) :
  (forall name, present name = true <-> P name) ->
  fold_left (fun '(missing, details) name =>
      if negb (present name)
      then (missing ++ [miss name], details)
      else (missing, details ++ [ok name]))
    required (missing, details)
  = (missing ++ map miss (filter (fun name => ~ P name) required),
     details ++ map ok (filter P required)).
Proof.
  intros Hp. revert missing details.
  induction required as [|name required IH]; intros missing details.
  - simpl. by rewrite !app_nil_r.
  - cbn [fold_left]. rewrite !filter_cons.
    destruct (present name) eqn:Hname; simpl; rewrite IH;
      destruct (decide (P name)) as [HP | HP],
               (decide (~ P name)) as [HN | HN];
      try (by rewrite <- !app_assoc);
      try (apply Hp in Hname; tauto);
      try (apply Hp in HP; congruence).
Qed.

Lemma filter_not_nil {A} (P : A -> Prop) `{!forall x, Decision (P x)}
    (l : list A) :
  filter (fun x => ~ P x) l = [] <-> Forall P l.
Proof.
  induction l as [|x l IH]; [by split; [constructor |] |].
  rewrite filter_cons, Forall_cons. destruct (decide (P x)).
  - rewrite decide_False by tauto. tauto.
  - rewrite decide_True by tauto. split; [done | tauto].
Qed.

Lemma validateCommentFields_spec (file : validator.File) :
  validator.validateCommentFields (inr file)
  = let missing :=
      map (fun name =>
             fmt.Sprintf "Struct '%s' missing Comment field" [fmt.S_ name])
        (filter (fun name => ~ last_declaration_has_comment file name)
           validator.requiredStructs) in
    let details :=
      map (fun name => fmt.Sprintf "✓ %s has Comment field" [fmt.S_ name])
        (filter (last_declaration_has_comment file) validator.requiredStructs) in
    validator.mkResult "COMMENT FIELDS ON ALL STRUCTS (Rich Metadata)"
      (bool_decide (Forall (last_declaration_has_comment file)
                      validator.requiredStructs))
      (missing ++ details).
Proof.
  unfold validator.validateCommentFields.
  rewrite (required_loop _ (last_declaration_has_comment file)
             (fun name =>
                fmt.Sprintf "Struct '%s' missing Comment field" [fmt.S_ name])
             (fun name => fmt.Sprintf "✓ %s has Comment field" [fmt.S_ name]))
    by apply structsWithComment_spec.
  cbn [app]. cbv zeta.
  pose proof (filter_not_nil (last_declaration_has_comment file)
                validator.requiredStructs) as Hnil.
  destruct (filter (fun name => ~ last_declaration_has_comment file name)
              validator.requiredStructs) as [|name missing] eqn:Hmissing.
  - rewrite bool_decide_eq_true_2 by by apply Hnil. done.
  - rewrite bool_decide_eq_false_2; [done |]. intros HP. by apply Hnil in HP.
Qed.

Lemma validateFullObjectCoverage_spec (file : validator.File) :
  validator.validateFullObjectCoverage (inr file)
  = let missing :=
      map (fun name => fmt.Sprintf "Missing type: %s" [fmt.S_ name])
        (filter (fun name => ~ declared file name) validator.requiredTypes) in
    let details :=
      map (fun name => fmt.Sprintf "✓ %s type defined" [fmt.S_ name])
        (filter (declared file) validator.requiredTypes) in
    validator.mkResult
      "FULL OBJECT COVERAGE (Tables/Views/Routines/Sequences/Triggers/Synonyms)"
      (bool_decide (Forall (declared file) validator.requiredTypes))
      (missing ++ details).
Proof.
  unfold validator.validateFullObjectCoverage.
  rewrite (required_loop _ (declared file)
             (fun name => fmt.Sprintf "Missing type: %s" [fmt.S_ name])
             (fun name => fmt.Sprintf "✓ %s type defined" [fmt.S_ name]))
    by apply definedTypes_spec.
  cbn [app]. cbv zeta.
  pose proof (filter_not_nil (declared file) validator.requiredTypes) as Hnil.
  destruct (filter (fun name => ~ declared file name) validator.requiredTypes)
    as [|name missing] eqn:Hmissing.
  - rewrite bool_decide_eq_true_2 by by apply Hnil. done.
  - rewrite bool_decide_eq_false_2; [done |]. intros HP. by apply Hnil in HP.
Qed.

Lemma struct_declaration_declared (file : validator.File) (name : string)
    (fields : list validator.Field) :
  fields ∈ struct_declarations file name -> declared file name.
Proof.
  unfold declared. induction file as [|ts file IH]; simpl.
  - by rewrite elem_of_nil.
  - rewrite elem_of_app, elem_of_cons. intros [Hts | Hfile]; [| auto].
    destruct (String.eqb_spec (validator.Name ts) name) as [<- | ?]; [by left |].
    by apply elem_of_nil in Hts.
Qed.

Lemma last_declaration_declared (file : validator.File) (name : string) :
  last_declaration_has_comment file name -> declared file name.
Proof.
  unfold last_declaration_has_comment.
  destruct (last (struct_declarations file name)) as [fields |] eqn:Hlast;
    [intros _ | done].
  apply last_Some_elem_of in Hlast. by apply struct_declaration_declared in Hlast.
Qed.

(** X11. On a file that parses, [validateCommentFields] passes exactly when
    each of the ten required structs has a field named [Comment] in its
    last struct declaration in the file: a later declaration of the same
    name replaces an earlier one, and a declaration that is not a struct
    does not count. Its details are one line per required struct: first
    the lines of the structs that miss the field, then the lines of those
    that have it, each group in the order of the required names. *)
Theorem comment_rule_reads_last_declaration (file : validator.File) :
  let result := validator.validateCommentFields (inr file) in
  (validator.Passed result = true <->
   Forall (last_declaration_has_comment file) validator.requiredStructs) /\
  validator.Details result
  = map (fun name =>
           "Struct '" +:+ name +:+ "' missing Comment field")
      (filter (fun name => ~ last_declaration_has_comment file name)
         validator.requiredStructs)
    ++ map (fun name => "✓ " +:+ name +:+ " has Comment field")
         (filter (last_declaration_has_comment file) validator.requiredStructs).
Proof.
  intros result. subst result. rewrite validateCommentFields_spec.
  cbv zeta. cbn [validator.Passed validator.Details].
  split; [apply bool_decide_eq_true | done].
Qed.

(** X12. On a file that parses, [validateFullObjectCoverage] passes exactly
    when each of Table, View, Routine, Sequence, Trigger and Synonym is
    the name of some type declaration of the file, struct or not. So a
    file on which the comment rule passes also passes the coverage
    rule. *)
Theorem coverage_rule_follows_comment_rule (file : validator.File) :
  (validator.Passed (validator.validateFullObjectCoverage (inr file)) = true
   <-> Forall (declared file) validator.requiredTypes) /\
  (validator.Passed (validator.validateCommentFields (inr file)) = true ->
   validator.Passed (validator.validateFullObjectCoverage (inr file)) = true).
Proof.
  rewrite validateFullObjectCoverage_spec, validateCommentFields_spec.
  cbv zeta. cbn [validator.Passed]. rewrite !bool_decide_eq_true.
  split; [done |].
  unfold validator.requiredStructs, validator.requiredTypes.
  rewrite !Forall_cons. intros H.
  split_and!; try apply last_declaration_declared; try constructor; tauto.
Qed.

Lemma main_loop (results : list validator.ValidationResult) (out : string)
    (allPassed : bool) :
  snd (fold_left (fun '(out, allPassed) result =>
      let status :=
        if validator.Passed result then "✅ PASS" else "❌ FAIL" in
      let allPassed := if validator.Passed result then allPassed else false in
      let out :=
        out +:+ fmt.Sprintf "%s Rule: %s"
                  [fmt.S_ status; fmt.S_ (validator.Rule result)]
            +:+ validator.newline in
      let out :=
        fold_left (fun out detail =>
          out +:+ fmt.Sprintf "    %s" [fmt.S_ detail] +:+ validator.newline)
        (validator.Details result) out in
      (out +:+ validator.newline, allPassed))
    results (out, allPassed))
  = allPassed && forallb validator.Passed results.
Proof.
  revert out allPassed.
  induction results as [|result results IH]; intros out allPassed.
  - simpl. by rewrite andb_true_r.
  - cbn [fold_left forallb]. cbv zeta. rewrite IH.
    destruct (validator.Passed result); [done |]. by rewrite andb_false_r.
Qed.

Lemma validateViperTags_passes (content : error + string) :
  validator.Passed (validator.validateViperTags content) = true
  <-> exists text, content = inr text /\
                   strings.Contains text "mapstructure:" = true.
Proof.
  unfold validator.validateViperTags. destruct content as [err | text].
  - split; [done | by intros (? & [=] & _)].
  - destruct (strings.Contains text "mapstructure:") eqn:Htext; simpl.
    + split; [by exists text | done].
    + split; [done |]. intros (? & [= <-] & ?). congruence.
Qed.

(** X13. [main] exits with status 0 or 1. It exits with 0 exactly when the
    model file parsed for each of the three rules that read it, no struct
    of it declares a field named Body, Definition, Script, Text or Source,
    every required struct has a [Comment] field in its last declaration,
    every required type is declared, and the configuration source could be
    read and contains the text [mapstructure:]. *)
Theorem validator_exit_status (parsed1 parsed2 parsed3 : error + validator.File)
    (content : error + string) :
  let status := snd (validator.main parsed1 parsed2 parsed3 content) in
  (status = 0 \/ status = 1) /\
  (status = 0 <->
   exists file1 file2 file3 text,
     parsed1 = inr file1 /\ parsed2 = inr file2 /\ parsed3 = inr file3 /\
     content = inr text /\
     Forall (fun ts =>
               Forall (fun name => forbidden name = false) (struct_field_names ts))
       file1 /\
     Forall (last_declaration_has_comment file2) validator.requiredStructs /\
     Forall (declared file3) validator.requiredTypes /\
     strings.Contains text "mapstructure:" = true).
Proof.
  intros status. subst status. unfold validator.main.
  match goal with
  | |- context [fold_left ?f ?results (?out, true)] =>
      pose proof (main_loop results out true) as Hloop;
      destruct (fold_left f results (out, true)) as [out' allPassed]
  end.
  simpl in Hloop. subst allPassed.
  pose proof (validateViperTags_passes content) as Hviper.
  destruct (validator.Passed (validator.validateViperTags content)).
  2: { rewrite !andb_false_r. simpl. split; [by right |]. split; [done |].
       intros (? & ? & ? & text & _ & _ & _ & -> & _ & _ & _ & Htext).
       assert (false = true) by (apply Hviper; eauto). done. }
  destruct parsed1 as [err | file1].
  { simpl. split; [by right |]. split; [done |]. by intros (? & ? & ? & ? & [=] & _). }
  destruct parsed2 as [err | file2].
  { simpl. rewrite andb_false_r. simpl. split; [by right |]. split; [done |].
    by intros (? & ? & ? & ? & _ & [=] & _). }
  destruct parsed3 as [err | file3].
  { simpl. rewrite !andb_false_r. simpl. split; [by right |]. split; [done |].
    by intros (? & ? & ? & ? & _ & _ & [=] & _). }
  pose proof (validator_passes file1) as H1.
  rewrite validateCommentFields_spec, validateFullObjectCoverage_spec.
  cbv zeta. cbn [validator.Passed].
  destruct (proj1 Hviper eq_refl) as (text & -> & Htext).
  destruct (validator.Passed (validator.validateNoSourceCodeFields (inr file1))).
  2: { simpl. split; [by right |]. split; [done |].
       intros (? & ? & ? & ? & [= <-] & _ & _ & _ & Hfile & _).
       apply H1 in Hfile. done. }
  destruct (bool_decide_reflect
              (Forall (last_declaration_has_comment file2)
                 validator.requiredStructs)) as [H2 | H2].
  2: { simpl. split; [by right |]. split; [done |].
       by intros (? & ? & ? & ? & _ & [= <-] & _ & _ & _ & ? & _). }
  destruct (bool_decide_reflect
              (Forall (declared file3) validator.requiredTypes)) as [H3 | H3].
  2: { simpl. split; [by right |]. split; [done |].
       by intros (? & ? & ? & ? & _ & _ & [= <-] & _ & _ & _ & ? & _). }
  simpl. split; [by left |]. split; [intros _ | done].
  exists file1, file2, file3, text. split_and!; try done. by apply H1.
Qed.

(** ** Splitting at a dot *)

Lemma rev_app_append (s acc : string) :
  String.rev_app s acc = String.rev s +:+ acc.
Proof.
  unfold String.rev. revert acc. induction s as [|c s IH]; intros acc; [done |].
  cbn [String.rev_app]. rewrite (IH (String c acc)), (IH (String c "")).
  by rewrite append_assoc.
Qed.

Lemma rev_cons (c : ascii) (s : string) :
  String.rev (String c s) = String.rev s +:+ String c "".
Proof. unfold String.rev at 1. cbn [String.rev_app]. apply rev_app_append. Qed.

Lemma Contains_dot_cons (c : ascii) (s : string) :
  strings.Contains (String c s) "." = Ascii.eqb "." c || strings.Contains s ".".
Proof.
  cbn [strings.Contains]. f_equal.
  cbn [strings.HasPrefix]. destruct s; apply andb_true_r.
Qed.

Lemma dotless_app (a b : string) : dotless a -> dotless b -> dotless (a +:+ b).
Proof.
  unfold dotless. intros Ha Hb. induction a as [|c a IH]; [done |].
  change (String c a +:+ b) with (String c (a +:+ b)).
  rewrite Contains_dot_cons in *. apply orb_false_iff in Ha as [-> Ha].
  by apply IH.
Qed.

(** The parts of a split at dots have no dot, and joined by dots they give
    the text back. *)
Lemma split_go_dot (s cur : string) :
  exists part parts,
    strings.split_go s "." 0 cur = part :: parts /\
    strings.Join (part :: parts) "." = String.rev cur +:+ s /\
    (dotless (String.rev cur) -> dotless part) /\
    Forall dotless parts.
Proof.
  revert cur. induction s as [|c s IH]; intros cur.
  - exists (String.rev cur), []. split_and!; try done.
    by rewrite append_empty_r.
  - cbn [strings.split_go].
    change (String.length "." - 1)%nat with 0%nat.
    replace (strings.HasPrefix (String c s) ".") with (Ascii.eqb "." c)
      by (cbn [strings.HasPrefix]; destruct s; symmetry; apply andb_true_r).
    destruct (Ascii.eqb_spec "."%char c) as [<- | Hc].
    + destruct (IH "") as (part & parts & -> & Hjoin & Hpart & Hparts).
      exists (String.rev cur), (part :: parts). split_and!; try done.
      * change (String.rev cur +:+ "." +:+ strings.Join (part :: parts) "."
                = String.rev cur +:+ String "." s).
        by rewrite Hjoin.
      * constructor; [by apply Hpart | done].
    + destruct (IH (String c cur)) as (part & parts & -> & Hjoin & Hpart & Hparts).
      exists part, parts. split_and!; try done.
      * by rewrite Hjoin, rev_cons, append_assoc.
      * intros Hcur. apply Hpart. rewrite rev_cons.
        apply dotless_app; [done |]. unfold dotless.
        rewrite Contains_dot_cons. by apply Ascii.eqb_neq in Hc as ->.
Qed.

Lemma split_target (base : string) :
  qualified_target base
    (match strings.Split base "." with
     | part0 :: part1 :: _ => (part0, part1)
     | _ => ("", base)
     end).1
    (match strings.Split base "." with
     | part0 :: part1 :: _ => (part0, part1)
     | _ => ("", base)
     end).2.
Proof.
  unfold strings.Split.
  destruct (split_go_dot base "") as (part0 & parts & -> & Hjoin & Hpart & Hparts).
  change (String.rev "" +:+ base) with base in Hjoin.
  specialize (Hpart eq_refl).
  destruct parts as [|part1 parts]; simpl.
  - left. simpl in Hjoin. by subst part0.
  - right. apply Forall_cons in Hparts as [Hpart1 Hparts].
    split_and!; try done. destruct parts as [|part2 parts].
    + exists "". split; [| by left]. rewrite append_empty_r.
      subst base. reflexivity.
    + exists ("." +:+ strings.Join (part2 :: parts) ".").
      split; [| right; apply HasPrefix_app].
      subst base. reflexivity.
Qed.

(** X14. When [GetSynonyms] of the SQL Server extractor succeeds, the
    catalog answered with rows that all scanned and the result holds one
    synonym per row, in order, with the row's schema, name and comment and
    target type TABLE. A base object name without a dot is the target
    object and the target owner is empty; otherwise the owner is the text
    before the first dot and the object the text between the first and the
    second dot, so whatever follows a second dot is dropped. *)
Theorem mssql_synonym_targets (e : mssql.Extractor) (w : World) :
  snd (fst (mssql.GetSynonyms e w)) = None ->
  exists w' q rs,
    statement q = SelSynonyms /\
    mssql.synonyms (mssql.db e) w' q = inr (mkRows (map inr rs) None) /\
    Forall2 synonym_of_row (elems (fst (fst (mssql.GetSynonyms e w)))) rs.
Proof.
  intros Hnil.
  pose (query :=
    mkQuery SelSynonyms
      (filter_clause (mssql.schemaFilter e) mssql.placeholder " AND s.name IN (%s)")
      (elems (filter_args (mssql.schemaFilter e)))).
  pose (g := fun row : string * string * string * string =>
    let '(Owner, Name, TargetObject, Comment) := row in
    let target :=
      match strings.Split TargetObject "." with
      | part0 :: part1 :: _ => (part0, part1)
      | _ => ("", TargetObject)
      end in
    {| Synonym_Name := Name; Synonym_Owner := Owner;
       Synonym_TargetObject := target.2; Synonym_TargetOwner := target.1;
       Synonym_TargetType := "TABLE"; Synonym_IsPublic := false;
       Synonym_Comment := Comment; Synonym_CreatedAt := "" |}).
  assert (exists w' rs,
            mssql.synonyms (mssql.db e) w' query = inr (mkRows (map inr rs) None) /\
            map (fun syn : Synonym => syn)
              (elems (fst (fst (mssql.GetSynonyms e w)))) = map g rs)
    as (w' & rs & Hanswer & Hkeys).
  { refine (Post_collect_keys (mssql.synonyms (mssql.db e)) query _ _
              (fun syn : Synonym => syn) g _ _ w Hnil).
    intros acc [[[Owner Name] TargetObject] Comment].
    unfold g. cbv beta iota.
    destruct (strings.Split TargetObject ".") as [|? [|? ?]];
      apply Post_ret; intros _; eexists; split; reflexivity. }
  exists w', query, rs. split_and!; try done.
  rewrite map_id in Hkeys. rewrite Hkeys.
  apply Forall2_fmap_l, Forall_Forall2_diag, Forall_forall.
  intros [[[Owner Name] TargetObject] Comment] _. subst g. simpl.
  split_and!; try done. apply split_target.
Qed.

(** The synonyms of [crm]: the three-part name keeps its first two parts,
    the one-part name has no owner. *)
Lemma crm_synonym_targets :
  exists w' q rs,
    statement q = SelSynonyms /\
    mssql.synonyms (mssql.db crm) w' q = inr (mkRows (map inr rs) None) /\
    Forall2 synonym_of_row (elems (fst (fst (mssql.GetSynonyms crm [])))) rs.
Proof. apply (mssql_synonym_targets crm []). reflexivity. Defined.

(** ** Indexes and their tables *)

Ltac index_row_body :=
  repeat post_step ltac:(apply Post_True);
  cbn [fst snd elems append] in *;
  first
    [ assumption
    | (apply Forall_app; split; [assumption |]; apply Forall_singleton);
      by repeat split ].

Lemma index_reader_in_table a owner table :
  Post (index_reader a owner table)
    (fun res => Forall (index_in_table a owner table) (elems (fst res))).
Proof.
  destruct a as [e | e | e | e]; simpl.
  - unfold oracle.getIndexesForTable.
    post_loop (index_in_table (Oracle e) owner table) ltac:(apply Post_True)
      ltac:(index_row_body).
  - unfold mysql.getIndexesForTable.
    post_loop (index_in_table (MySQL e) owner table) ltac:(apply Post_True)
      ltac:(index_row_body).
  - unfold postgres.getIndexesForTable.
    post_loop (index_in_table (PostgreSQL e) owner table) ltac:(apply Post_True)
      ltac:(index_row_body).
  - unfold mssql.getIndexesForTable.
    post_loop (index_in_table (MSSQL e) owner table) ltac:(apply Post_True)
      ltac:(index_row_body).
Qed.

Ltac table_indexes_body a :=
  repeat post_step ltac:(first [ apply (index_reader_in_table a)
                               | apply Post_True ]);
  cbn [fst snd elems append] in *;
  first
    [ assumption
    | (apply Forall_app; split; [assumption |]; apply Forall_singleton);
      simpl; assumption ].

Lemma GetTables_indexes a :
  Post (GetTables (methods a)) (fun res => tables_indexes a (fst res)).
Proof.
  unfold tables_indexes. destruct a as [e | e | e | e]; simpl.
  - unfold oracle.GetTables.
    post_loop (fun t => Forall (index_in_table (Oracle e) (Table_Owner t) (Table_Name t))
                          (elems (Table_Indexes t)))
      fail ltac:(table_indexes_body (Oracle e)).
  - unfold mysql.GetTables.
    post_loop (fun t => Forall (index_in_table (MySQL e) (Table_Owner t) (Table_Name t))
                          (elems (Table_Indexes t)))
      fail ltac:(table_indexes_body (MySQL e)).
  - unfold postgres.GetTables.
    post_loop (fun t => Forall (index_in_table (PostgreSQL e) (Table_Owner t) (Table_Name t))
                          (elems (Table_Indexes t)))
      fail ltac:(table_indexes_body (PostgreSQL e)).
  - unfold mssql.GetTables.
    post_loop (fun t => Forall (index_in_table (MSSQL e) (Table_Owner t) (Table_Name t))
                          (elems (Table_Indexes t)))
      fail ltac:(table_indexes_body (MSSQL e)).
Qed.

(** What [GetTables] establishes of its tables holds of the tables of the
    schema a sequence of steps ends with. *)
Lemma run_sequence_tables a (P : slice Table -> Prop) steps :
  Post (GetTables (methods a)) (fun res => P (fst res)) ->
  forall s,
    P (Schema_Tables s) ->
    Post (run_sequence (methods a) steps s)
      (fun outcome => forall s', outcome = inl s' -> P (Schema_Tables s')).
Proof.
  intros Htables.
  induction steps as [|step steps IH]; intros s Hs; simpl.
  - apply Post_ret. by intros s' [= <-].
  - eapply Post_bind with (R := fun res => P (Schema_Tables (fst res))).
    + destruct step; unfold run_step.
      * eapply Post_bind; [apply Post_True |]. intros [[name version] err] _.
        by apply Post_ret.
      * eapply Post_bind; [apply Htables |]. intros [tables err] H.
        by apply Post_ret.
      * eapply Post_bind; [apply Post_True |]. intros [views err] _.
        by apply Post_ret.
      * eapply Post_bind; [apply Post_True |]. intros [routines err] _.
        by apply Post_ret.
      * eapply Post_bind; [apply Post_True |]. intros [sequences err] _.
        by apply Post_ret.
      * eapply Post_bind; [apply Post_True |]. intros [triggers err] _.
        by apply Post_ret.
      * eapply Post_bind; [apply Post_True |]. intros [synonyms err] _.
        by apply Post_ret.
    + intros [s1 [err |]] Hs1; simpl in Hs1; [by apply Post_ret |]. by apply IH.
Qed.

(** X15. For every adapter and every history, each index of each table that
    [GetTables] or a successful [ExtractSchema] returns carries the owner
    and the name of that table, is enabled and has no creation time; an
    Oracle index is never marked primary, a MySQL index is marked primary
    exactly when it is named PRIMARY and has no comment. Every root-level
    index of an extracted schema is an index of one of its tables and
    names that table. *)
Theorem index_names_its_table (a : Adapter) (w : World) :
  tables_indexes a (fst (fst (GetTables (methods a) w))) /\
  (forall s, fst (fst (ExtractSchema (methods a) w)) = Some s ->
     tables_indexes a (Schema_Tables s) /\
     Forall (fun i =>
               exists t, t ∈ elems (Schema_Tables s) /\
                         i ∈ elems (Table_Indexes t) /\
                         index_in_table a (Table_Owner t) (Table_Name t) i)
       (elems (Schema_Indexes s))).
Proof.
  split; [apply GetTables_indexes |].
  rewrite ExtractSchema_orchestrate.
  pose proof (orchestrate_outcome a w) as Houtcome.
  pose proof (run_sequence_tables a (tables_indexes a) strict_sequence
                (GetTables_indexes a) (fresh_schema a (clock_of a w))) as Hrun.
  specialize (Hrun ltac:(constructor) w).
  destruct (run_sequence _ _ _ _) as [[s0 | [step err]] w']; rewrite Houtcome;
    [| by intros s].
  simpl. intros s [= <-]. specialize (Hrun s0 eq_refl). simpl.
  split; [done |]. rewrite elems_collect_indexes.
  unfold tables_indexes in Hrun. apply Forall_forall. intros i Hi.
  apply list_elem_of_In, in_concat in Hi as (l & Hl & Hi).
  apply in_map_iff in Hl as (t & <- & Ht).
  apply list_elem_of_In in Hi, Ht.
  exists t. split_and!; try done.
  rewrite Forall_forall in Hrun. specialize (Hrun t Ht).
  rewrite Forall_forall in Hrun. by apply Hrun.
Qed.

(** ** The first word of a text *)





